(** * LivePhotoSort: a shallow embedding of [live_photo_sort.py]

    The development follows the layout of the Python module: string and path
    helpers, the exiftool record classifier ([scan_folder]), the cross-source
    merge of [main], the namer ([rich_base_name], [safe_dest_path]), the
    integrity-checked relocator ([safe_move]) and the run loop
    ([move_pairs], [main]).

    Modelling conventions.
    - Python [str] values are [string]s of 8-bit characters; [str.lower],
      [str.upper] and the character classes of [re] are the ASCII ones.
    - A [pathlib.Path] is the string it prints as; [dir / name] is
      [dir +:+ "/" +:+ name] (the directory is a normalised, non-root path).
    - A dict used as an index is a [gmap]; a Python [set] is a [gset].
    - The file tree, the log and the pending signal live in a [world] that is
      threaded through a state-and-exception monad.  What the operating system
      does to a call (an I/O error, a short or corrupted write) is read from a
      list of [fault]s, one per primitive call, so every theorem quantified
      over worlds covers every such behaviour.
    - The program's own log directory and PID file are not part of the
      modelled tree.
    - What the model leaves out.  [Path.exists()], [Path.is_file()] and the
      directory walk are taken to answer: the model has no run in which one
      of them raises (a name too long, an unsearchable directory).  An
      identifier is a string, as exiftool prints a UUID; a record whose
      identifier is a JSON number is not represented.  So the theorems
      that say a run returns are about the runs the model has; the others
      are stated for whatever outcome a run has. *)

From stdpp Require Import gmap strings list fin_maps sorting.
From Stdlib Require Import ZArith Ascii String.

Local Open Scope Z_scope.
Local Open Scope nat_scope.

(* ================================================================== *)
(** * Strings *)
(* ================================================================== *)

Module Str.

Definition code (c : ascii) : nat := nat_of_ascii c.

Definition between (lo hi : nat) (c : ascii) : bool :=
  (lo <=? code c) && (code c <=? hi).

Definition is_upper (c : ascii) : bool := between 65 90 c.
Definition is_lower (c : ascii) : bool := between 97 122 c.
Definition is_digit (c : ascii) : bool := between 48 57 c.

(** A character of the ASCII range, where [str.lower] and [str.upper] are
    the functions below. *)
Definition is_ascii (c : ascii) : bool := code c <? 128.

(** [\s] of a [str] pattern, and the characters [str.strip()] removes, in
    the 8-bit range handled here: TAB, LF, VT, FF, CR, the four separators
    FS GS RS US, SPACE, NEL (U+0085) and the no-break space (U+00A0). *)
Definition is_space (c : ascii) : bool :=
  between 9 13 c || between 28 31 c || (code c =? 32)
  || (code c =? 133) || (code c =? 160).

Definition lower_char (c : ascii) : ascii :=
  if is_upper c then ascii_of_nat (code c + 32) else c.
Definition upper_char (c : ascii) : ascii :=
  if is_lower c then ascii_of_nat (code c - 32) else c.

Fixpoint map (f : ascii → ascii) (s : string) : string :=
  match s with
  | EmptyString => EmptyString
  | String c s' => String (f c) (map f s')
  end.

(** [s.lower()] and [s.upper()]. *)
Definition lower : string → string := map lower_char.
Definition upper : string → string := map upper_char.

(** [s.replace(c, "")] for a one-character [c]. *)
Fixpoint remove (c : ascii) (s : string) : string :=
  match s with
  | EmptyString => EmptyString
  | String a s' =>
      if Ascii.eqb a c then remove c s' else String a (remove c s')
  end.

(** [s[:n]]. *)
Fixpoint take (n : nat) (s : string) : string :=
  match n, s with
  | S n', String c s' => String c (take n' s')
  | _, _ => EmptyString
  end.

(** [s[n:]]. *)
Fixpoint drop (n : nat) (s : string) : string :=
  match n, s with
  | S n', String _ s' => drop n' s'
  | _, _ => s
  end.

(** [s.rfind(c)], with [None] for Python's [-1]. *)
Fixpoint rfind (c : ascii) (s : string) : option nat :=
  match s with
  | EmptyString => None
  | String a s' =>
      match rfind c s' with
      | Some i => Some (S i)
      | None => if Ascii.eqb a c then Some 0 else None
      end
  end.

Fixpoint mem (c : ascii) (s : string) : bool :=
  match s with
  | EmptyString => false
  | String a s' => Ascii.eqb a c || mem c s'
  end.

Fixpoint all (p : ascii → bool) (s : string) : bool :=
  match s with
  | EmptyString => true
  | String a s' => p a && all p s'
  end.

Fixpoint repeat (c : ascii) (n : nat) : string :=
  match n with
  | 0 => EmptyString
  | S n' => String c (repeat c n')
  end.

(** [bool(s)] of a string: non-empty. *)
Definition truthy (s : string) : bool :=
  match s with EmptyString => false | _ => true end.

(** Decimal printing, as [str(n)] of a non-negative [int]. *)
Definition digit_char (d : nat) : ascii := ascii_of_nat (48 + d).

Fixpoint digits_acc (fuel n : nat) (acc : string) : string :=
  match fuel with
  | 0 => acc
  | S f =>
      let acc' := String (digit_char (n mod 10)) acc in
      if n <? 10 then acc' else digits_acc f (n / 10) acc'
  end.

Definition of_nat (n : nat) : string := digits_acc (S n) n EmptyString.

(** [str(z)] of an [int]. *)
Definition of_Z (z : Z) : string :=
  if (z <? 0)%Z then String "-" (of_nat (Z.to_nat (- z)))
  else of_nat (Z.to_nat z).

(** [s.zfill(w)] for a sign-free [s]; [f"{n:02d}"] is [zfill 2 (of_nat n)]
    and the [%m], [%d], ... fields of [strftime] are [zfill]ed likewise. *)
Definition zfill (w : nat) (s : string) : string :=
  repeat "0" (w - String.length s) +:+ s.

(** Reading a digit string back ([int(s)] on digits). *)
Definition digit_val (c : ascii) : nat := code c - 48.

Fixpoint to_nat_acc (v : nat) (s : string) : nat :=
  match s with
  | EmptyString => v
  | String c s' => to_nat_acc (10 * v + digit_val c) s'
  end.

Definition to_nat : string → nat := to_nat_acc 0.

End Str.

(* ================================================================== *)
(** * Paths *)
(* ================================================================== *)

(** [dir / name]. *)
Definition path_join (dir name : string) : string := dir +:+ "/" +:+ name.

(** [Path(p).name]: the final component. *)
Definition path_name (p : string) : string :=
  match Str.rfind "/" p with
  | Some i => Str.drop (S i) p
  | None => p
  end.

(** [Path(p).suffix]: from the last dot of the final component, unless that
    dot is its first or its last character. *)
Definition suffix (p : string) : string :=
  let name := path_name p in
  match Str.rfind "." name with
  | Some i =>
      if (0 <? i) && (i <? String.length name - 1) then Str.drop i name
      else ""
  | None => ""
  end.

(** [Path(p).stem]: the final component without its suffix. *)
Definition stem (p : string) : string :=
  let name := path_name p in
  match Str.rfind "." name with
  | Some i =>
      if (0 <? i) && (i <? String.length name - 1) then Str.take i name
      else name
  | None => name
  end.

(* ================================================================== *)
(** * Data model *)
(* ================================================================== *)

(** A JSON scalar as [json.loads] hands it to the program.  exiftool prints a
    tag as a string or, when it looks like one, as a number; floats, arrays
    and objects do not occur in the fields the program reads and are left
    out. *)
Inductive jval :=
  | JStr (s : string)
  | JInt (z : Z)
  | JBool (b : bool)
  | JNull.

(** One exiftool record ([rec]), reduced to the keys the program reads.
    [None] is an absent key.  [SourceFile] and [ContentIdentifier] are typed as
    strings, which is what exiftool prints for a path and for a UUID. *)
Record exif_rec := {
  SourceFile : option string;
  ContentIdentifier : option string;
  LivePhotoVideoIndex : option jval;
  DateTimeOriginal : option jval;
  Model : option jval;
}.

(** An index: [{uuid: (path, meta_dict)}]. *)
Abbreviation index := (gmap string (string * exif_rec)).

(** One side of a manifest entry: [{"source": .., "dest": .., "success": ..}]. *)
Record half := {
  source : string;
  dest : string;
  success : bool;
}.

(** A manifest entry of [manifest["pairs"]]. *)
Record entry := {
  e_uuid : string;
  e_base_name : string;
  e_image : half;
  e_video : half;
}.

(** An entry of [manifest["orphan_images"]] or [manifest["orphan_videos"]]. *)
Record orphan := {
  o_uuid : string;
  o_path : string;
}.

Record manifest := {
  generated : string;
  m_dest_dir : string;
  version : string;
  pairs : list entry;
  orphan_images : list orphan;
  orphan_videos : list orphan;
}.

(** ** Configuration *)

Definition IMAGE_EXTS : list string := [".heic"; ".jpg"; ".jpeg"; ".png"].
Definition VIDEO_EXTS : list string := [".mov"].
Definition ALL_EXTS : list string := IMAGE_EXTS ++ VIDEO_EXTS.
Definition EXIFTOOL_BATCH_SIZE : nat := 500.

(** [ext in EXTS]. *)
Definition in_exts (ext : string) (exts : list string) : bool :=
  bool_decide (ext ∈ exts).

(** ** External collaborators

    The hash function, the JSON printer, the metadata tool and the directory
    walk are taken as given.  [rglob folder] is [None] when the folder does
    not exist, and otherwise lists what [Path(folder).rglob("*")] yields, each
    path with its [is_file()].  [strftime_pads_year] is the C library's way
    with [%Y]: BSD libc (macOS) fills the year with zeros to four digits,
    glibc prints it as it is, so that the year 999 comes out as [0999] on
    the one and as [999] on the other. *)
Class Env := {
  sha256 : list Byte.byte → string;
  json_dumps : manifest → list Byte.byte;
  batch_exiftool : list string → list exif_rec;
  rglob : string → option (list (string * bool));
  strftime_pads_year : bool;
}.

(* ================================================================== *)
(** * The world and the monad of effects *)
(* ================================================================== *)

Inductive exn :=
  | FileNotFoundError
  | FileExistsError
  | IsADirectoryError
  | NotADirectoryError
  | SameFileError
  | OSError
  | KeyError
  | Diverged.  (* a loop of the model ran out of fuel; shown unreachable *)

(** What the operating system does to one primitive call. *)
Inductive fault :=
  | NoFault                           (* the call does its work *)
  | Fails                             (* it raises [OSError], nothing changed *)
  | WritesThenFails (data : list Byte.byte) (* a copy leaves [data], then raises *)
  | WritesWrong (data : list Byte.byte).    (* a copy silently writes [data] *)

Inductive level := INFO | WARNING | ERROR.

(** The log calls of the modelled functions, one constructor per format
    string, with the arguments that are formatted in. *)
Inductive msg :=
  | MsgNoFolder (folder : string)
  | MsgNoCandidates (folder : string)
  | MsgScanning (folder : string) (n : nat)
  | MsgScanInterrupted
  | MsgBatch (num total size : nat)
  | MsgScanComplete (folder : string) (n_img n_vid : nat)
  | MsgHashMismatch (src dst src_hash12 dst_hash12 : string)
  | MsgSafeMoveFailed (src dst : string) (exc : exn)
  | MsgRule (width : nat)
  | MsgResults (matched orphan_img orphan_vid : nat)
  | MsgDryRunPair (base img_ext : string)
  | MsgImgSrc (p : string)
  | MsgMovSrc (p : string)
  | MsgDryRunOrphanImg (p uuid8 : string)
  | MsgDryRunOrphanMov (p uuid8 : string)
  | MsgMoveInterrupted (i n : nat)
  | MsgMovingPair (i n : nat) (base : string)
  | MsgImg (src_name dst_name : string)
  | MsgMov (src_name dst_name : string)
  | MsgPairComplete
  | MsgImageFailed (p : string)
  | MsgVideoFailed (p : string)
  | MsgOrphanImg (p uuid8 : string)
  | MsgOrphanMov (p uuid8 : string)
  | MsgDone (ok failed orphan_img orphan_vid : nat)
  | MsgAfterMerging (src : string) (new_imgs new_vids n_img n_vid : nat)
  | MsgGrandTotal (n_img n_vid : nat)
  | MsgManifestWritten (p : string)
  | MsgManifestFailed (exc : exn).

Record world := {
  files : gmap string (list Byte.byte);   (* regular files, by path *)
  dirs : gset string;                (* directories, by path *)
  faults : list fault;               (* what happens to the coming calls *)
  stop_in : option nat;              (* [Some n]: SIGTERM/SIGINT lands after
                                        [n] more reads of [_running] *)
  clock : string;                    (* [datetime.now().isoformat()] *)
  log : list (level * msg);
}.

Definition with_files (f : gmap string (list Byte.byte)) (w : world) : world :=
  {| files := f; dirs := dirs w; faults := faults w; stop_in := stop_in w;
     clock := clock w; log := log w |}.
Definition with_dirs (d : gset string) (w : world) : world :=
  {| files := files w; dirs := d; faults := faults w; stop_in := stop_in w;
     clock := clock w; log := log w |}.
Definition with_faults (fs : list fault) (w : world) : world :=
  {| files := files w; dirs := dirs w; faults := fs; stop_in := stop_in w;
     clock := clock w; log := log w |}.
Definition with_stop_in (s : option nat) (w : world) : world :=
  {| files := files w; dirs := dirs w; faults := faults w; stop_in := s;
     clock := clock w; log := log w |}.
Definition with_log (l : list (level * msg)) (w : world) : world :=
  {| files := files w; dirs := dirs w; faults := faults w; stop_in := stop_in w;
     clock := clock w; log := l |}.

Inductive result (A : Type) :=
  | Ok (a : A)
  | Raised (e : exn).
Arguments Ok {A} a.
Arguments Raised {A} e.

Definition M (A : Type) : Type := world → result A * world.

#[global] Instance M_ret : MRet M := λ A a w, (Ok a, w).
#[global] Instance M_bind : MBind M := λ A B f m w,
  match m w with
  | (Ok a, w') => f a w'
  | (Raised e, w') => (Raised e, w')
  end.

Definition raise {A} (e : exn) : M A := λ w, (Raised e, w).

(** [try: body except Exception as exc: handler(exc)]. *)
Definition try_except {A} (body : M A) (handler : exn → M A) : M A := λ w,
  match body w with
  | (Ok a, w') => (Ok a, w')
  | (Raised e, w') => handler e w'
  end.

Definition get_world : M world := λ w, (Ok w, w).
Definition modify (f : world → world) : M unit := λ w, (Ok tt, f w).

(** [log.info(..)], [log.warning(..)], [log.error(..)]. *)
Definition log_at (l : level) (m : msg) : M unit :=
  modify (λ w, with_log (log w ++ [(l, m)]) w).
Definition log_info := log_at INFO.
Definition log_warning := log_at WARNING.
Definition log_error := log_at ERROR.

(** Reading the global [_running]: it is [True] until the signal handler has
    run, and [False] from then on. *)
Definition read_running : M bool := λ w,
  match stop_in w with
  | None => (Ok true, w)
  | Some 0 => (Ok false, w)
  | Some (S n) => (Ok true, with_stop_in (Some n) w)
  end.

(** The fault that applies to the call being made. *)
Definition next_fault : M fault := λ w,
  (Ok (default NoFault (head (faults w))), with_faults (tail (faults w)) w).

(** ** Filesystem primitives *)

(** [p.exists()]. *)
Definition path_exists (w : world) (p : string) : bool :=
  bool_decide (is_Some (files w !! p)) || bool_decide (p ∈ dirs w).

(** The proper ancestors of a path, nearest last: the prefixes that end just
    before a ["/"] (the root itself is left out). *)
Fixpoint parents_from (pre s : string) : list string :=
  match s with
  | EmptyString => []
  | String c s' =>
      let rest := parents_from (pre +:+ String c EmptyString) s' in
      if Ascii.eqb c "/" then
        match pre with EmptyString => rest | _ => pre :: rest end
      else rest
  end.
Definition parents (p : string) : list string := parents_from "" p.

(** Whether the directory that is to hold [p] is there.  A path with no
    ["/"] after its first character lies in the working directory or in the
    root, which exist. *)
Definition parent_exists (w : world) (p : string) : bool :=
  match Str.rfind "/" p with
  | Some (S i) => bool_decide (Str.take (S i) p ∈ dirs w)
  | _ => true
  end.

(** [d.mkdir(parents=True, exist_ok=True)].  The ancestors are made one by
    one from the top, so the call can fail with some of them made: under
    the fault [WritesThenFails part] it makes the first [length part]
    ancestors and raises. *)
Definition mkdir_p (d : string) : M unit :=
  f ← next_fault;
  w ← get_world;
  if bool_decide (is_Some (files w !! d)) then raise FileExistsError
  else if existsb (λ a, bool_decide (is_Some (files w !! a))) (parents d)
  then raise NotADirectoryError
  else match f with
  | Fails => raise OSError
  | WritesThenFails part =>
      modify (λ w, with_dirs
                     (dirs w ∪ list_to_set (take (List.length part) (parents d)))
                     w);;
      raise OSError
  | _ => modify (λ w, with_dirs (dirs w ∪ list_to_set (parents d) ∪ {[d]}) w)
  end.

Definition write_file (p : string) (data : list Byte.byte) : M unit :=
  modify (λ w, with_files (<[p := data]> (files w)) w).

(** Where [shutil.copy2(src, dst)] writes: a directory as [dst] receives the
    file under the source's name. *)
Definition copy_target (w : world) (src dst : string) : string :=
  if bool_decide (dst ∈ dirs w) then path_join dst (path_name src) else dst.

(** [shutil.copy2(src, dst)].  Copying a file onto itself is refused, and
    the source is opened before anything is written. *)
Definition copy2 (src dst : string) : M unit :=
  f ← next_fault;
  w ← get_world;
  let target := copy_target w src dst in
  if bool_decide (src = target) then raise SameFileError
  else if bool_decide (src ∈ dirs w) then raise IsADirectoryError
  else match files w !! src with
  | None => raise FileNotFoundError
  | Some data =>
      if bool_decide (target ∈ dirs w) then raise IsADirectoryError
      else if negb (parent_exists w target) then raise FileNotFoundError
      else match f with
      | NoFault => write_file target data
      | Fails => raise OSError
      | WritesThenFails part => write_file target part;; raise OSError
      | WritesWrong other => write_file target other
      end
  end.

(** [sha256_file(path)]: the digest of the bytes now at [path]. *)
Definition sha256_file `{Env} (p : string) : M string :=
  f ← next_fault;
  w ← get_world;
  if bool_decide (p ∈ dirs w) then raise IsADirectoryError
  else match files w !! p with
  | None => raise FileNotFoundError
  | Some data =>
      match f with
      | Fails | WritesThenFails _ => raise OSError
      | _ => mret (sha256 data)
      end
  end.

(** [p.unlink(missing_ok=..)]. *)
Definition unlink (missing_ok : bool) (p : string) : M unit :=
  f ← next_fault;
  w ← get_world;
  if bool_decide (p ∈ dirs w) then raise IsADirectoryError
  else match files w !! p with
  | None => if missing_ok then mret tt else raise FileNotFoundError
  | Some _ =>
      match f with
      | Fails | WritesThenFails _ => raise OSError
      | _ => modify (λ w, with_files (delete p (files w)) w)
      end
  end.

(** [open(p, "w")] followed by writing [data] and closing. *)
Definition open_write (p : string) (data : list Byte.byte) : M unit :=
  f ← next_fault;
  w ← get_world;
  if bool_decide (p ∈ dirs w) then raise IsADirectoryError
  else if negb (parent_exists w p) then raise FileNotFoundError
  else match f with
  | NoFault => write_file p data
  | Fails => raise OSError
  | WritesThenFails part => write_file p part;; raise OSError
  | WritesWrong other => write_file p other
  end.

(** [for x in xs: body(x)], for a body that neither breaks nor returns. *)
Fixpoint for_each {A} (body : A → M unit) (xs : list A) : M unit :=
  match xs with
  | [] => mret tt
  | x :: xs' => body x;; for_each body xs'
  end.

(* ================================================================== *)
(** * Batch scanning *)
(* ================================================================== *)

(** [collect_candidate_files(folder)]. *)
Definition collect_candidate_files `{Env} (folder : string) : M (list string) :=
  match rglob folder with
  | None => log_warning (MsgNoFolder folder);; mret []
  | Some found =>
      mret (List.map fst
              (List.filter
                 (λ e, snd e && in_exts (Str.lower (suffix (fst e))) ALL_EXTS)
                 found))
  end.

(** The body of [for rec in records:] in [scan_folder], on the pair
    [(images, videos)]. *)
Definition scan_record (acc : index * index) (rec : exif_rec) : index * index :=
  let '(images, videos) := acc in
  let src_file := default "" (SourceFile rec) in
  if negb (Str.truthy src_file) then acc
  else
    let fpath := src_file in
    let ext := Str.lower (suffix fpath) in
    let uuid := ContentIdentifier rec in
    let lp_index :=
      match LivePhotoVideoIndex rec with
      | Some JNull => None
      | v => v
      end in
    match uuid with
    | None => acc
    | Some uuid =>
        if negb (Str.truthy uuid) then acc
        else if in_exts ext IMAGE_EXTS && bool_decide (is_Some lp_index) then
          match images !! uuid with
          | None => (<[uuid := (fpath, rec)]> images, videos)
          | Some _ => acc
          end
        else if in_exts ext VIDEO_EXTS then
          match videos !! uuid with
          | None => (images, <[uuid := (fpath, rec)]> videos)
          | Some _ => acc
          end
        else acc
    end.

Definition scan_records (records : list exif_rec) (acc : index * index)
  : index * index :=
  fold_left scan_record records acc.

(** [range(0, n, step)]. *)
Definition range_step (n step : nat) : list nat :=
  List.map (λ k, k * step) (seq 0 ((n + step - 1) / step)).

(** The batch loop of [scan_folder], with its [break]. *)
Fixpoint scan_batches `{Env} (starts : list nat) (candidates : list string)
    (acc : index * index) : M (index * index) :=
  match starts with
  | [] => mret acc
  | batch_start :: starts' =>
      running ← read_running;
      if negb running then log_warning MsgScanInterrupted;; mret acc
      else
        let batch := take EXIFTOOL_BATCH_SIZE (drop batch_start candidates) in
        let batch_num := batch_start / EXIFTOOL_BATCH_SIZE + 1 in
        let total_batches :=
          (List.length candidates + EXIFTOOL_BATCH_SIZE - 1) / EXIFTOOL_BATCH_SIZE in
        log_info (MsgBatch batch_num total_batches (List.length batch));;
        let records := batch_exiftool batch in
        scan_batches starts' candidates (scan_records records acc)
  end.

(** [scan_folder(folder)]. *)
Definition scan_folder `{Env} (folder : string) : M (index * index) :=
  candidates ← collect_candidate_files folder;
  match candidates with
  | [] => log_info (MsgNoCandidates folder);; mret (∅, ∅)
  | _ =>
      log_info (MsgScanning folder (List.length candidates));;
      '(images, videos) ←
        scan_batches (range_step (List.length candidates) EXIFTOOL_BATCH_SIZE)
          candidates (∅, ∅);
      log_info (MsgScanComplete folder (size images) (size videos));;
      mret (images, videos)
  end.

(* ================================================================== *)
(** * Cross-source merge (the loop of [main]) *)
(* ================================================================== *)

(** [for uuid, val in scanned.items(): if uuid not in all: all[uuid] = val;
    new += 1].  The keys of a dict are distinct, so the order in which
    [items()] yields them does not change the outcome. *)
Definition merge_into (all scanned : index) : index * nat :=
  map_fold
    (λ uuid val '(all, new),
       match all !! uuid with
       | None => (<[uuid := val]> all, S new)
       | Some _ => (all, new)
       end)
    (all, 0) scanned.

(** The body of [for src in args.source:] once the folder is scanned. *)
Definition merge_scan (src : string) (acc scanned : index * index)
  : M (index * index) :=
  let '(all_images, all_videos) := acc in
  let '(imgs, vids) := scanned in
  let '(all_images, new_imgs) := merge_into all_images imgs in
  let '(all_videos, new_vids) := merge_into all_videos vids in
  log_info (MsgAfterMerging src new_imgs new_vids
              (size all_images) (size all_videos));;
  mret (all_images, all_videos).

Fixpoint scan_sources `{Env} (sources : list string) (acc : index * index)
  : M (index * index) :=
  match sources with
  | [] => mret acc
  | src :: sources' =>
      scanned ← scan_folder src;
      acc' ← merge_scan src acc scanned;
      scan_sources sources' acc'
  end.

(* ================================================================== *)
(** * File naming *)
(* ================================================================== *)

Record datetime := {
  year : nat; month : nat; day : nat;
  hour : nat; minute : nat; second : nat;
}.

Definition is_leap (y : nat) : bool :=
  (y mod 4 =? 0) && (negb (y mod 100 =? 0) || (y mod 400 =? 0)).

Definition days_in_month (y m : nat) : nat :=
  match m with
  | 2 => if is_leap y then 29 else 28
  | 4 | 6 | 9 | 11 => 30
  | _ => 31
  end.

(** The range checks of the [datetime(..)] constructor. *)
Definition datetime_ok (t : datetime) : bool :=
  (1 <=? year t) && (year t <? 10 * 1000) &&
  (1 <=? month t) && (month t <=? 12) &&
  (1 <=? day t) && (day t <=? days_in_month (year t) (month t)) &&
  (hour t <=? 23) && (minute t <=? 59) && (second t <=? 59).

(** ** The regular expression of [strptime]

    [_strptime] turns the format ["%Y:%m:%d %H:%M:%S"] into
    [(?P<Y>\d\d\d\d):(?P<m>1[0-2]|0[1-9]|[1-9]):
     (?P<d>3[0-1]|[1-2]\d|0[1-9]|[1-9]| [1-9])\s+
     (?P<H>2[0-3]|[0-1]\d|\d):(?P<M>[0-5]\d|\d):(?P<S>6[0-1]|[0-5]\d|\d)]
    and calls [match] on it.  A pattern is modelled by the list of its
    matches in the order a backtracking matcher tries them, each with the
    integer of the group and the text that is left. *)
Module Re.

Definition pat (A : Type) : Type := string → list (A * string).

Definition alt {A} (p q : pat A) : pat A := λ s, p s ++ q s.

Definition andthen {A B} (p : pat A) (k : A → pat B) : pat B := λ s,
  List.concat (List.map (λ '(a, rest), k a rest) (p s)).

Definition pure {A} (a : A) : pat A := λ s, [(a, s)].

(** A literal character. *)
Definition lit (c : ascii) : pat unit := λ s,
  match s with
  | String a rest => if Ascii.eqb a c then [(tt, rest)] else []
  | EmptyString => []
  end.

(** One digit of a class, as its value. *)
Definition d1 (cls : ascii → bool) : pat nat := λ s,
  match s with
  | String a rest => if cls a then [(Str.digit_val a, rest)] else []
  | EmptyString => []
  end.

(** Two digits of two classes, as their value. *)
Definition d2 (cls1 cls2 : ascii → bool) : pat nat :=
  andthen (d1 cls1) (λ a, andthen (d1 cls2) (λ b, pure (10 * a + b))).

Definition digit := Str.is_digit.
Definition range (lo hi : nat) : ascii → bool := Str.between (48 + lo) (48 + hi).
Definition only (d : nat) : ascii → bool := range d d.

(** [\s+], greedy: the longest run first. *)
Fixpoint spaces_from (s : string) : list (unit * string) :=
  match s with
  | String a rest =>
      if Str.is_space a then spaces_from rest ++ [(tt, rest)] else []
  | EmptyString => []
  end.
Definition spaces1 : pat unit := spaces_from.

Definition Y : pat nat :=
  andthen (d2 digit digit) (λ hi,
  andthen (d2 digit digit) (λ lo, pure (100 * hi + lo))).
Definition m : pat nat :=
  alt (d2 (only 1) (range 0 2)) (alt (d2 (only 0) (range 1 9)) (d1 (range 1 9))).
Definition d : pat nat :=
  alt (d2 (only 3) (range 0 1))
   (alt (d2 (range 1 2) digit)
     (alt (d2 (only 0) (range 1 9))
       (alt (d1 (range 1 9))
            (andthen (lit " ") (λ _, d1 (range 1 9)))))).
Definition H : pat nat :=
  alt (d2 (only 2) (range 0 3)) (alt (d2 (range 0 1) digit) (d1 digit)).
Definition M : pat nat :=
  alt (d2 (range 0 5) digit) (d1 digit).
Definition S : pat nat :=
  alt (d2 (only 6) (range 0 1)) (alt (d2 (range 0 5) digit) (d1 digit)).

Definition format_regex : pat datetime :=
  andthen Y (λ y, andthen (lit ":") (λ _,
  andthen m (λ mo, andthen (lit ":") (λ _,
  andthen d (λ dd, andthen spaces1 (λ _,
  andthen H (λ hh, andthen (lit ":") (λ _,
  andthen M (λ mi, andthen (lit ":") (λ _,
  andthen S (λ ss,
    pure {| year := y; month := mo; day := dd;
            hour := hh; minute := mi; second := ss |}))))))))))).

End Re.

(** [datetime.strptime(s, "%Y:%m:%d %H:%M:%S")]; [None] is [ValueError]:
    no match, unconverted data after the match, or a field out of range. *)
Definition strptime (s : string) : option datetime :=
  match Re.format_regex s with
  | (t, EmptyString) :: _ => if datetime_ok t then Some t else None
  | _ => None
  end.

(** The [%Y] field of [strftime]. *)
Definition strftime_year `{Env} (y : nat) : string :=
  if strftime_pads_year then Str.zfill 4 (Str.of_nat y) else Str.of_nat y.

(** [dt.strftime("%Y-%m-%d_%H%M%S")]. *)
Definition strftime `{Env} (t : datetime) : string :=
  strftime_year (year t) +:+ "-" +:+
  Str.zfill 2 (Str.of_nat (month t)) +:+ "-" +:+
  Str.zfill 2 (Str.of_nat (day t)) +:+ "_" +:+
  Str.zfill 2 (Str.of_nat (hour t)) +:+
  Str.zfill 2 (Str.of_nat (minute t)) +:+
  Str.zfill 2 (Str.of_nat (second t)).

(** [str(v)]. *)
Definition py_str (v : jval) : string :=
  match v with
  | JStr s => s
  | JInt z => Str.of_Z z
  | JBool true => "True"
  | JBool false => "False"
  | JNull => "None"
  end.

(** The [try]/[except (ValueError, TypeError)] block of [rich_base_name]. *)
Definition date_str `{Env} (meta : exif_rec) : string :=
  let dt_raw := default (JStr "") (DateTimeOriginal meta) in
  match dt_raw with
  | JStr s =>
      match strptime s with
      | Some dt => strftime dt
      | None => "0000-00-00_000000"    (* ValueError *)
      end
  | _ => "0000-00-00_000000"           (* TypeError *)
  end.

Definition uuid_short (uuid : string) : string :=
  Str.upper (Str.take 8 (Str.remove "-" uuid)).

Definition model_str (meta : exif_rec) : string :=
  let model :=
    Str.remove "," (Str.remove " " (py_str (default (JStr "") (Model meta)))) in
  if negb (Str.truthy model) then "iPhone" else model.

(** [rich_base_name(meta, uuid)]. *)
Definition rich_base_name `{Env} (meta : exif_rec) (uuid : string)
  : string :=
  date_str meta +:+ "_LivePhoto_" +:+ model_str meta +:+ "_" +:+ uuid_short uuid.

(** The [while candidate.exists():] loop of [safe_dest_path]. *)
Fixpoint safe_dest_loop (w : world) (dest_dir base ext : string)
    (fuel counter : nat) (candidate : string) : option string :=
  if path_exists w candidate then
    match fuel with
    | 0 => None
    | S fuel' =>
        safe_dest_loop w dest_dir base ext fuel' (S counter)
          (path_join dest_dir
             (base +:+ "_" +:+ Str.zfill 2 (Str.of_nat counter) +:+ ext))
    end
  else Some candidate.

(** [safe_dest_path(dest_dir, base, ext)].  The loop can go round at most
    once per existing path, which bounds the fuel. *)
Definition safe_dest_path (dest_dir base ext : string) : M string := λ w,
  match safe_dest_loop w dest_dir base ext
          (size (files w) + size (dirs w)) 1
          (path_join dest_dir (base +:+ ext)) with
  | Some p => (Ok p, w)
  | None => (Raised Diverged, w)
  end.

(* ================================================================== *)
(** * File integrity *)
(* ================================================================== *)

(** The [try:] block of [safe_move]. *)
Definition safe_move_body `{Env} (src dst : string) : M bool :=
  copy2 src dst;;
  src_hash ← sha256_file src;
  dst_hash ← sha256_file dst;
  if String.eqb src_hash dst_hash then
    unlink false src;;
    mret true
  else
    log_error (MsgHashMismatch src dst
                 (Str.take 12 src_hash) (Str.take 12 dst_hash));;
    unlink true dst;;
    mret false.

(** [safe_move(src, dst)]. *)
Definition safe_move `{Env} (src dst : string) : M bool :=
  try_except
    (safe_move_body src dst)
    (λ exc,
       log_error (MsgSafeMoveFailed src dst exc);;
       mret false).

(* ================================================================== *)
(** * Move pairs *)
(* ================================================================== *)

(** [idx[uuid]]. *)
Definition getitem (idx : index) (uuid : string) : M (string * exif_rec) :=
  match idx !! uuid with
  | Some v => mret v
  | None => raise KeyError
  end.

(** [sorted(s)] for a set of strings: Python orders [str] by code point. *)
Definition sorted (s : gset string) : list string :=
  merge_sort String.le (elements s).

Definition matched_uuids (all_images all_videos : index) : gset string :=
  dom all_images ∩ dom all_videos.
Definition orphan_img_uuids (all_images all_videos : index) : gset string :=
  dom all_images ∖ matched_uuids all_images all_videos.
Definition orphan_vid_uuids (all_images all_videos : index) : gset string :=
  dom all_videos ∖ matched_uuids all_images all_videos.

(** The three loops of the [if dry_run:] branch. *)
Definition dry_run_report `{Env} (all_images all_videos : index) : M unit :=
  for_each (λ uuid,
      '(img_path, img_meta) ← getitem all_images uuid;
      let base := rich_base_name img_meta uuid in
      '(vid_path, _) ← getitem all_videos uuid;
      let img_ext := Str.lower (suffix img_path) in
      log_info (MsgDryRunPair base img_ext);;
      log_info (MsgImgSrc img_path);;
      log_info (MsgMovSrc vid_path))
    (sorted (matched_uuids all_images all_videos));;
  for_each (λ uuid,
      '(p, _) ← getitem all_images uuid;
      log_info (MsgDryRunOrphanImg p (Str.take 8 uuid)))
    (sorted (orphan_img_uuids all_images all_videos));;
  for_each (λ uuid,
      '(p, _) ← getitem all_videos uuid;
      log_info (MsgDryRunOrphanMov p (Str.take 8 uuid)))
    (sorted (orphan_vid_uuids all_images all_videos)).

(** What the pair loop carries: [manifest["pairs"]], [success_count],
    [fail_count]. *)
Record tally := {
  t_pairs : list entry;
  success_count : nat;
  fail_count : nat;
}.

(** The body of the pair loop after the [_running] check. *)
Definition move_pair `{Env} (all_images all_videos : index) (dest_dir : string)
    (i total : nat) (uuid : string) (acc : tally) : M tally :=
  '(img_path, img_meta) ← getitem all_images uuid;
  '(vid_path, _) ← getitem all_videos uuid;
  let base := rich_base_name img_meta uuid in
  let img_ext := Str.lower (suffix img_path) in
  dest_img ← safe_dest_path dest_dir base img_ext;
  dest_vid ← safe_dest_path dest_dir base ".mov";
  log_info (MsgMovingPair (i + 1) total base);;
  log_info (MsgImg (path_name img_path) (path_name dest_img));;
  log_info (MsgMov (path_name vid_path) (path_name dest_vid));;
  img_ok ← safe_move img_path dest_img;
  vid_ok ← safe_move vid_path dest_vid;
  let entry :=
    {| e_uuid := uuid;
       e_base_name := base;
       e_image := {| source := img_path; dest := dest_img; success := img_ok |};
       e_video := {| source := vid_path; dest := dest_vid; success := vid_ok |} |} in
  let pairs' := t_pairs acc ++ [entry] in
  if img_ok && vid_ok then
    log_info MsgPairComplete;;
    mret {| t_pairs := pairs';
            success_count := success_count acc + 1;
            fail_count := fail_count acc |}
  else
    (if negb img_ok then log_error (MsgImageFailed img_path) else mret tt);;
    (if negb vid_ok then log_error (MsgVideoFailed vid_path) else mret tt);;
    mret {| t_pairs := pairs';
            success_count := success_count acc;
            fail_count := fail_count acc + 1 |}.

(** [for i, uuid in enumerate(sorted(matched_uuids)):], with its [break]. *)
Fixpoint move_loop `{Env} (all_images all_videos : index) (dest_dir : string)
    (i total : nat) (uuids : list string) (acc : tally) : M tally :=
  match uuids with
  | [] => mret acc
  | uuid :: uuids' =>
      running ← read_running;
      if negb running then
        log_warning (MsgMoveInterrupted i total);;
        mret acc
      else
        acc' ← move_pair all_images all_videos dest_dir i total uuid acc;
        move_loop all_images all_videos dest_dir (S i) total uuids' acc'
  end.

(** The two orphan loops; each returns the list appended to the manifest. *)
Fixpoint orphan_loop (kind : string → string → msg) (idx : index)
    (uuids : list string) (acc : list orphan) : M (list orphan) :=
  match uuids with
  | [] => mret acc
  | uuid :: uuids' =>
      '(p, _) ← getitem idx uuid;
      log_warning (kind p (Str.take 8 uuid));;
      orphan_loop kind idx uuids' (acc ++ [{| o_uuid := uuid; o_path := p |}])
  end.

(** [move_pairs(all_images, all_videos, dest_dir, dry_run)]. *)
Definition move_pairs `{Env} (all_images all_videos : index)
    (dest_dir : string) (dry_run : bool) : M manifest :=
  mkdir_p dest_dir;;
  w ← get_world;
  let manifest0 :=
    {| generated := clock w; m_dest_dir := dest_dir; version := "1.1.0";
       pairs := []; orphan_images := []; orphan_videos := [] |} in
  let matched := matched_uuids all_images all_videos in
  let orphan_img := orphan_img_uuids all_images all_videos in
  let orphan_vid := orphan_vid_uuids all_images all_videos in
  log_info (MsgRule 60);;
  log_info (MsgResults (size matched) (size orphan_img) (size orphan_vid));;
  log_info (MsgRule 60);;
  if dry_run then
    dry_run_report all_images all_videos;;
    mret manifest0
  else
    t ← move_loop all_images all_videos dest_dir 0 (size matched)
          (sorted matched)
          {| t_pairs := []; success_count := 0; fail_count := 0 |};
    o_img ← orphan_loop MsgOrphanImg all_images (sorted orphan_img) [];
    o_vid ← orphan_loop MsgOrphanMov all_videos (sorted orphan_vid) [];
    log_info (MsgRule 60);;
    log_info (MsgDone (success_count t) (fail_count t)
                (size orphan_img) (size orphan_vid));;
    log_info (MsgRule 60);;
    mret {| generated := clock w; m_dest_dir := dest_dir; version := "1.1.0";
            pairs := t_pairs t; orphan_images := o_img;
            orphan_videos := o_vid |}.

(* ================================================================== *)
(** * Entry point *)
(* ================================================================== *)

Definition manifest_path (dest_dir : string) : string :=
  path_join dest_dir "live_photo_manifest.json".

(** [main()], from the parsed arguments on; the PID file and the log file
    are outside the modelled tree. *)
Definition main `{Env} (dry_run : bool) (sources : list string)
    (dest : string) : M unit :=
  let dest_dir := dest in
  '(all_images, all_videos) ← scan_sources sources (∅, ∅);
  log_info (MsgGrandTotal (size all_images) (size all_videos));;
  manifest ← move_pairs all_images all_videos dest_dir dry_run;
  if negb dry_run then
    try_except
      (open_write (manifest_path dest_dir) (json_dumps manifest);;
       log_info (MsgManifestWritten (manifest_path dest_dir)))
      (λ exc, log_error (MsgManifestFailed exc))
  else mret tt.

(* ================================================================== *)
(** * Notions used in the statements *)
(* ================================================================== *)

(** Two worlds with the same tree. *)
Definition same_tree (w w' : world) : Prop :=
  files w' = files w ∧ dirs w' = dirs w.

(** The fields a filesystem primitive leaves alone; it uses up one fault. *)
Definition quiet (w w' : world) : Prop :=
  dirs w' = dirs w ∧ log w' = log w ∧ stop_in w' = stop_in w
  ∧ faults w' = tail (faults w).

(** The names [safe_dest_path] tries, in order: the plain one, then the
    suffixed ones from [_01] on. *)
Definition candidate (dest_dir base ext : string) (k : nat) : string :=
  match k with
  | 0 => path_join dest_dir (base +:+ ext)
  | S _ =>
      path_join dest_dir
        (base +:+ "_" +:+ Str.zfill 2 (Str.of_nat k) +:+ ext)
  end.

(** [p] is the source of a half that the entries record as moved. *)
Definition moved_source (p : string) (es : list entry) : Prop :=
  ∃ e, e ∈ es ∧
    ((source (e_image e) = p ∧ success (e_image e) = true)
     ∨ (source (e_video e) = p ∧ success (e_video e) = true)).

(** The orphan entry the program writes for [uuid]. *)
Definition orphan_of (idx : index) (uuid : string) : orphan :=
  {| o_uuid := uuid; o_path := default "" (fst <$> idx !! uuid) |}.

(** ** The classification rules, as the specification words them *)

Inductive role := ImageRole | VideoRole.

(** The path a record echoes, [""] when it has none. *)
Definition path_of (rec : exif_rec) : string := default "" (SourceFile rec).

(** A record has a source path when the key is there and not empty. *)
Definition has_source_path (rec : exif_rec) : bool := Str.truthy (path_of rec).

(** The identifier of a record, when the key is there and not empty. *)
Definition identifier (rec : exif_rec) : option string :=
  match ContentIdentifier rec with
  | Some u => if Str.truthy u then Some u else None
  | None => None
  end.

(** The video-index marker is present. *)
Definition has_marker (rec : exif_rec) : bool :=
  match LivePhotoVideoIndex rec with
  | None | Some JNull => false
  | Some _ => true
  end.

(** The lowercase extension of a record's file. *)
Definition lower_ext (rec : exif_rec) : string := Str.lower (suffix (path_of rec)).

(** Section 4.3 of the specification: skip a record without a source path or
    without an identifier; an image extension with the marker is an image;
    otherwise a video extension is a video; everything else is dropped. *)
Definition role_of (rec : exif_rec) : option (role * string) :=
  if negb (has_source_path rec) then None
  else match identifier rec with
  | None => None
  | Some u =>
      if in_exts (lower_ext rec) IMAGE_EXTS && has_marker rec
      then Some (ImageRole, u)
      else if in_exts (lower_ext rec) VIDEO_EXTS then Some (VideoRole, u)
      else None
  end.

(** Insert under a key unless the key is taken. *)
Definition insert_first (u : string) (v : string * exif_rec) (idx : index)
  : index :=
  match idx !! u with
  | None => <[u := v]> idx
  | Some _ => idx
  end.

(** Merging the pair of indices of one source into the global pair. *)
Definition merge_pair (acc scanned : index * index) : index * index :=
  ((merge_into acc.1 scanned.1).1, (merge_into acc.2 scanned.2).1).

(** The value a run returned, when it did not raise. *)
Definition returned {A} (x : result A * world) : option A :=
  match x.1 with
  | Ok a => Some a
  | Raised _ => None
  end.

(** A fault that lets the call do its work. *)
Definition benign (f : fault) : bool :=
  match f with
  | Fails | WritesThenFails _ => false
  | _ => true
  end.

(** The operating system fails none of the next [n] calls. *)
Definition calm (n : nat) (w : world) : bool :=
  forallb benign (take n (faults w)).

(** ** Naming *)

(** A capture time as exiftool prints it: [YYYY:MM:DD HH:MM:SS]. *)
Definition exif_timestamp (t : datetime) : string :=
  Str.zfill 4 (Str.of_nat (year t)) +:+ ":" +:+
  Str.zfill 2 (Str.of_nat (month t)) +:+ ":" +:+
  Str.zfill 2 (Str.of_nat (day t)) +:+ " " +:+
  Str.zfill 2 (Str.of_nat (hour t)) +:+ ":" +:+
  Str.zfill 2 (Str.of_nat (minute t)) +:+ ":" +:+
  Str.zfill 2 (Str.of_nat (second t)).

(** A string of exactly [n] decimal digits. *)
Definition digits_of_width (n : nat) (s : string) : Prop :=
  String.length s = n ∧ Str.all Str.is_digit s = true.

(** The specification's wording of the model part: the device model with
    whitespace and commas stripped, [iPhone] when nothing is left. *)
Fixpoint strip_whitespace_and_commas (s : string) : string :=
  match s with
  | EmptyString => EmptyString
  | String c s' =>
      if Str.is_space c || Ascii.eqb c "," then strip_whitespace_and_commas s'
      else String c (strip_whitespace_and_commas s')
  end.

(** What the two [replace] calls amount to, in one pass: every character
    other than SPACE and comma, in order. *)
Fixpoint strip_spaces_and_commas (s : string) : string :=
  match s with
  | EmptyString => EmptyString
  | String c s' =>
      if Ascii.eqb c " " || Ascii.eqb c "," then strip_spaces_and_commas s'
      else String c (strip_spaces_and_commas s')
  end.

(** No whitespace character other than SPACE occurs in [s]. *)
Definition only_plain_spaces (s : string) : bool :=
  Str.all (λ c, negb (Str.is_space c) || Ascii.eqb c " ") s.

Definition spec_model_str (meta : exif_rec) : string :=
  let model :=
    strip_whitespace_and_commas (py_str (default (JStr "") (Model meta))) in
  if negb (Str.truthy model) then "iPhone" else model.

(** The base name as the specification words it. *)
Definition spec_rich_base_name `{Env} (meta : exif_rec) (uuid : string)
  : string :=
  date_str meta +:+ "_LivePhoto_" +:+ spec_model_str meta +:+ "_" +:+
  uuid_short uuid.

(* ================================================================== *)
(** * A concrete setting for the worked examples *)
(* ================================================================== *)

Module Demo.

(** A stand-in for SHA-256, enough to tell the example files apart. *)
Definition checksum (data : list Byte.byte) : string :=
  Str.of_nat (fold_left (λ a b, (a * 31 + Byte.to_nat b) mod 2003) data 7).

Definition uuid1 : string := "ABCD1234-0000-4000-8000-000000000001".
Definition uuid2 : string := "EEEE0002-0000-4000-8000-000000000002".
Definition uuid3 : string := "FFFF0003-0000-4000-8000-000000000003".
Definition uuid4 : string := "ABCD1234-0000-4000-8000-000000000004".

Definition still (p uuid : string) : exif_rec :=
  {| SourceFile := Some p; ContentIdentifier := Some uuid;
     LivePhotoVideoIndex := Some (JInt 1112377344);
     DateTimeOriginal := Some (JStr "2024:03:01 10:15:22");
     Model := Some (JStr "iPhone 15 Pro") |}.

Definition clip (p uuid : string) : exif_rec :=
  {| SourceFile := Some p; ContentIdentifier := Some uuid;
     LivePhotoVideoIndex := None; DateTimeOriginal := None;
     Model := Some (JStr "iPhone 15 Pro") |}.

(** A photo that carries an identifier but no video-index marker. *)
Definition plain (p uuid : string) : exif_rec :=
  {| SourceFile := Some p; ContentIdentifier := Some uuid;
     LivePhotoVideoIndex := None;
     DateTimeOriginal := Some (JStr "2024:03:02 08:00:00");
     Model := Some (JStr "iPhone 15 Pro") |}.

(** What exiftool knows: folder [/A] holds a Live Photo pair, a plain photo
    and a lone clip; folder [/B] holds a second copy of the pair and another
    pair taken in the same second with the same first eight identifier
    digits. *)
Definition table : list exif_rec :=
  [ still "/A/IMG_0001.HEIC" uuid1; clip "/A/IMG_0001.MOV" uuid1;
    plain "/A/IMG_0002.JPG" uuid2; clip "/A/clip.mov" uuid3;
    still "/B/IMG_0001.HEIC" uuid1; clip "/B/IMG_0001.MOV" uuid1;
    still "/B/IMG_0004.HEIC" uuid4; clip "/B/IMG_0004.MOV" uuid4 ].

Definition listing (folder : string) : option (list (string * bool)) :=
  if String.eqb folder "/A" then
    Some [("/A/IMG_0001.HEIC", true); ("/A/IMG_0001.MOV", true);
          ("/A/IMG_0002.JPG", true); ("/A/clip.mov", true);
          ("/A/notes.txt", true)]
  else if String.eqb folder "/B" then
    Some [("/B/IMG_0001.HEIC", true); ("/B/IMG_0001.MOV", true);
          ("/B/IMG_0004.HEIC", true); ("/B/IMG_0004.MOV", true)]
  else None.

Definition env : Env :=
  {| sha256 := checksum;
     json_dumps := λ m,
       String.list_byte_of_string (Str.of_nat (List.length (pairs m)));
     batch_exiftool := λ paths,
       List.filter (λ r, bool_decide (path_of r ∈ paths)) table;
     rglob := listing;
     strftime_pads_year := false |}.

Definition tree : gmap string (list Byte.byte) :=
  {[ "/A/IMG_0001.HEIC" := [Byte.x01; Byte.x10];
     "/A/IMG_0001.MOV" := [Byte.x02; Byte.x20];
     "/A/IMG_0002.JPG" := [Byte.x03];
     "/A/clip.mov" := [Byte.x04];
     "/A/notes.txt" := [Byte.x05];
     "/B/IMG_0001.HEIC" := [Byte.x01; Byte.x10];
     "/B/IMG_0001.MOV" := [Byte.x02; Byte.x20];
     "/B/IMG_0004.HEIC" := [Byte.x07];
     "/B/IMG_0004.MOV" := [Byte.x08] ]}.

(** The sources are there, the destination is not. *)
Definition world0 : world :=
  {| files := tree; dirs := {[ "/A"; "/B" ]}; faults := [];
     stop_in := None; clock := "2026-02-15T09:00:00"; log := [] |}.

(** The same, with the destination directory made. *)
Definition world1 : world := with_dirs {[ "/A"; "/B"; "/dest" ]} world0.

Definition base1 : string :=
  "2024-03-01_101522_LivePhoto_iPhone15Pro_ABCD1234".

(** A record whose model name has a TAB in it. *)
Definition tabbed : exif_rec :=
  {| SourceFile := Some "/A/IMG_0009.HEIC"; ContentIdentifier := Some uuid1;
     LivePhotoVideoIndex := Some (JInt 1);
     DateTimeOriginal := Some (JStr "2024:03:01 10:15:22");
     Model := Some (JStr ("iPhone" +:+ String "009" "15")) |}.

(** Scanning the two folders and moving the pairs to [/dest]. *)
Definition scan_and_move (dry_run : bool) : M manifest :=
  all ← scan_sources (H:=env) ["/A"; "/B"] (∅, ∅);
  move_pairs (H:=env) all.1 all.2 "/dest" dry_run.

(** The destination as an earlier run left it, with the [.heic] of [base1]
    in place and no [.mov]. *)
Definition world2 : world :=
  with_files (<[path_join "/dest" (base1 +:+ ".heic") := []]> tree) world1.

End Demo.

(* ================================================================== *)
(** * Further notions *)
(* ================================================================== *)

(** The slices [candidates[start : start + size]] that the batch loop of
    [scan_folder] hands to exiftool, in order. *)
Definition batches (candidates : list string) : list (list string) :=
  List.map
    (λ batch_start, take EXIFTOOL_BATCH_SIZE (drop batch_start candidates))
    (range_step (List.length candidates) EXIFTOOL_BATCH_SIZE).

(** A digest that tells any two contents apart: the content itself. *)
Definition literal_env : Env :=
  {| sha256 := String.string_of_list_byte;
     json_dumps := json_dumps (Env:=Demo.env);
     batch_exiftool := batch_exiftool (Env:=Demo.env);
     rglob := rglob (Env:=Demo.env);
     strftime_pads_year := true |}.

(** [p] is the source or the destination of a half of one of the entries. *)
Definition touched (p : string) (es : list entry) : Prop :=
  ∃ e, e ∈ es ∧
    p ∈ [source (e_image e); dest (e_image e);
         source (e_video e); dest (e_video e)].

(** Both halves of the entry were moved. *)
Definition both_ok (e : entry) : bool :=
  success (e_image e) && success (e_video e).

(** The entry is the one the pair loop makes for its identifier: the
    sources are the indexed paths, the base name is built from the image
    record, and each destination is one of the names [safe_dest_path] tries
    for that base in the destination directory. *)
Definition well_placed `{Env} (all_images all_videos : index)
    (dest_dir : string) (e : entry) : Prop :=
  ∃ img_meta vid_meta n m,
    all_images !! e_uuid e = Some (source (e_image e), img_meta)
    ∧ all_videos !! e_uuid e = Some (source (e_video e), vid_meta)
    ∧ e_base_name e = rich_base_name img_meta (e_uuid e)
    ∧ dest (e_image e)
      = candidate dest_dir (e_base_name e)
          (Str.lower (suffix (source (e_image e)))) n
    ∧ dest (e_video e) = candidate dest_dir (e_base_name e) ".mov" m.

(** The date and time as one number, [YYYYMMDDHHMMSS]. *)
Definition stamp (t : datetime) : nat :=
  ((((year t * 100 + month t) * 100 + day t) * 100 + hour t) * 100
   + minute t) * 100 + second t.

(** A Live Photo still whose model name has a slash in it. *)
Definition slashed : exif_rec :=
  {| SourceFile := Some "/A/IMG_0001.HEIC";
     ContentIdentifier := Some Demo.uuid1;
     LivePhotoVideoIndex := Some (JInt 1);
     DateTimeOriginal := Some (JStr "2024:03:01 10:15:22");
     Model := Some (JStr "AC/DC Cam") |}.

(* ================================================================== *)
(** * Properties *)
(* ================================================================== *)

#[local] Arguments String.append !_ _ / : simpl nomatch.

(** ** The monad and the primitives *)

Lemma bind_run {A B} (m : M A) (f : A → M B) (w : world) :
  (m ≫= f) w =
  match m w with
  | (Ok a, w1) => f a w1
  | (Raised e, w1) => (Raised e, w1)
  end.
Proof. reflexivity. Qed.

Lemma same_tree_refl w : same_tree w w.
Proof. by split. Qed.

Lemma same_tree_trans w1 w2 w3 :
  same_tree w1 w2 → same_tree w2 w3 → same_tree w1 w3.
Proof. intros [? ?] [? ?]; split; congruence. Qed.

Lemma next_fault_run w :
  ∃ f w', next_fault w = (Ok f, w') ∧ same_tree w w' ∧ log w' = log w
          ∧ stop_in w' = stop_in w ∧ faults w' = tail (faults w)
          ∧ f = default NoFault (head (faults w)).
Proof.
  by eexists _, _.
Qed.

Lemma log_at_run l m w :
  ∃ w', log_at l m w = (Ok tt, w') ∧ same_tree w w'
        ∧ log w' = log w ++ [(l, m)] ∧ stop_in w' = stop_in w
        ∧ faults w' = faults w.
Proof. eexists; split; [reflexivity|]. by repeat split. Qed.

Lemma read_running_run w :
  ∃ b w', read_running w = (Ok b, w') ∧ same_tree w w' ∧ log w' = log w
          ∧ faults w' = faults w.
Proof.
  unfold read_running. destruct (stop_in w) as [[|n]|]; do 2 eexists;
    (split; [reflexivity|]); by repeat split.
Qed.

Lemma copy2_run (src dst : string) (w : world) :
  let target := copy_target w src dst in
  let f := default NoFault (head (faults w)) in
  ∃ r w', copy2 src dst w = (r, w') ∧ quiet w w' ∧
    match r with
    | Ok _ =>
        ∃ data copy, files w !! src = Some data ∧ src ≠ target
          ∧ (src ∉ dirs w) ∧ (target ∉ dirs w)
          ∧ files w' = <[target := copy]> (files w)
          ∧ ((f = NoFault ∧ copy = data) ∨ f = WritesWrong copy)
    | Raised e =>
        files w' = files w
        ∨ ∃ part, f = WritesThenFails part ∧ e = OSError ∧ src ≠ target
            ∧ is_Some (files w !! src) ∧ (src ∉ dirs w) ∧ (target ∉ dirs w)
            ∧ files w' = <[target := part]> (files w)
    end.
Proof.
  intros target f. unfold copy2. rewrite bind_run.
  destruct (next_fault_run w) as (f' & w1 & -> & [Hf Hd] & Hl & Hs & Hfs & ->).
  fold f. unfold get_world. rewrite bind_run.
  assert (copy_target w1 src dst = target) as ->
    by (unfold target, copy_target; by rewrite Hd).
  rewrite Hd, Hf.
  assert (Hq : quiet w w1) by done.
  case_bool_decide as Hst; [by eexists _, _; split; [done|]; split; [|left]|].
  case_bool_decide as Hsd; [by eexists _, _; split; [done|]; split; [|left]|].
  destruct (files w !! src) as [data|] eqn:Hsrc;
    [|by eexists _, _; split; [done|]; split; [|left]].
  case_bool_decide as Htd; [by eexists _, _; split; [done|]; split; [|left]|].
  destruct (negb (parent_exists w1 target));
    [by eexists _, _; split; [done|]; split; [|left]|].
  destruct f as [| |part|other] eqn:Ef.
  - eexists _, _; split; [done|]; split; [done|]. exists data, data.
    cbn. rewrite Hf. auto 10.
  - by eexists _, _; split; [done|]; split; [|left].
  - eexists _, _; split; [done|]; split; [done|]. right. exists part.
    cbn. rewrite Hf. auto 10.
  - eexists _, _; split; [done|]; split; [done|]. exists data, other.
    cbn. rewrite Hf. auto 10.
Qed.

Section Primitives.
Context `{Env}.

Lemma sha256_file_run (p : string) (w : world) :
  let f := default NoFault (head (faults w)) in
  ∃ r w', sha256_file p w = (r, w') ∧ quiet w w' ∧ files w' = files w ∧
    match r with
    | Ok h => (p ∉ dirs w) ∧ ∃ data, files w !! p = Some data ∧ h = sha256 data
    | Raised e => True
    end.
Proof.
  intros f. unfold sha256_file. rewrite bind_run.
  destruct (next_fault_run w) as (f' & w1 & -> & [Hf Hd] & Hl & Hs & Hfs & ->).
  fold f. unfold get_world. rewrite bind_run, Hd, Hf.
  assert (Hq : quiet w w1) by done.
  case_bool_decide as Hpd; [by eexists _, _|].
  destruct (files w !! p) as [data|] eqn:Hp; [|by eexists _, _].
  destruct f; eexists _, _; (split; [done|]); eauto 10.
Qed.

End Primitives.

Lemma unlink_run (missing_ok : bool) (p : string) (w : world) :
  ∃ r w', unlink missing_ok p w = (r, w') ∧ quiet w w' ∧
    match r with
    | Ok _ => (p ∉ dirs w) ∧ files w' = delete p (files w)
              ∧ (missing_ok = false → is_Some (files w !! p))
    | Raised e => files w' = files w
    end.
Proof.
  unfold unlink. rewrite bind_run.
  destruct (next_fault_run w) as (f' & w1 & -> & [Hf Hd] & Hl & Hs & Hfs & ->).
  unfold get_world. rewrite bind_run, Hd, Hf.
  assert (Hq : quiet w w1) by done.
  case_bool_decide as Hpd; [by eexists _, _|].
  destruct (files w !! p) as [data|] eqn:Hp.
  - destruct (default NoFault (head (faults w))); eexists _, _;
      (split; [done|]); (split; [done|]); cbn; rewrite ?Hf; eauto.
  - destruct missing_ok; eexists _, _; (split; [done|]); (split; [done|]);
      [|done].
    split; [done|]. split; [|done]. by rewrite Hf, delete_id.
Qed.

Section Relocator.
Context `{Env}.

(** Every way the [try:] block of [safe_move] can end.  When it raises,
    the files are as the copy step left them. *)
Lemma safe_move_body_run (src dst : string) (w : world) :
  ∃ r w1 r0 w0, safe_move_body src dst w = (r, w1)
    ∧ copy2 src dst w = (r0, w0)
    ∧ dirs w1 = dirs w ∧ stop_in w1 = stop_in w ∧
    match r with
    | Ok true =>
        ∃ data copy, files w !! src = Some data ∧ src ≠ dst
          ∧ (dst ∉ dirs w) ∧ (src ∉ dirs w)
          ∧ sha256 data = sha256 copy
          ∧ files w0 = <[dst := copy]> (files w)
          ∧ files w1 = delete src (<[dst := copy]> (files w))
          ∧ log w1 = log w
    | Ok false =>
        ∃ data copy, files w !! src = Some data ∧ src ≠ dst
          ∧ (dst ∉ dirs w) ∧ (src ∉ dirs w)
          ∧ sha256 data ≠ sha256 copy
          ∧ files w0 = <[dst := copy]> (files w)
          ∧ files w1 = delete dst (<[dst := copy]> (files w))
          ∧ log w1 = log w ++
              [(ERROR, MsgHashMismatch src dst
                         (Str.take 12 (sha256 data))
                         (Str.take 12 (sha256 copy)))]
    | Raised e =>
        files w1 = files w0
        ∧ ((files w1 = files w ∧ log w1 = log w)
           ∨ ∃ copy, copy_target w src dst ≠ src
               ∧ files w1 = <[copy_target w src dst := copy]> (files w)
               ∧ (log w1 = log w
                  ∨ ∃ h1 h2, log w1 = log w ++
                      [(ERROR, MsgHashMismatch src dst h1 h2)]))
    end.
Proof.
  unfold safe_move_body. rewrite bind_run.
  destruct (copy2_run src dst w) as (r0 & w0 & Hcopy & (Hd0 & Hl0 & Hs0 & _) & Hc).
  rewrite Hcopy.
  destruct r0 as [[]|e].
  2:{ eexists _, _, _, _. split; [done|]. split; [done|]. repeat split; [done..|].
      destruct Hc as [?|(?&?&?&?&?&?&?&?)]; eauto 10. }
  destruct Hc as (data & copy & Hsrc & Hne & Hsd & Htd & Hf0 & _).
  rewrite bind_run.
  destruct (sha256_file_run src w0) as (r1 & w1 & -> & (Hd1 & Hl1 & Hs1 & _) & Hf1 & Hh1).
  destruct r1 as [hs|e].
  2:{ eexists _, _, _, _. split; [done|]. split; [done|].
      repeat split; [congruence..|]. right; exists copy.
      repeat split; [congruence..|left; congruence]. }
  destruct Hh1 as (_ & data' & Hsrc' & ->).
  rewrite Hf0, lookup_insert_ne in Hsrc' by done.
  assert (data' = data) as -> by congruence.
  rewrite bind_run.
  destruct (sha256_file_run dst w1) as (r2 & w2 & -> & (Hd2 & Hl2 & Hs2 & _) & Hf2 & Hh2).
  destruct r2 as [hd|e].
  2:{ eexists _, _, _, _. split; [done|]. split; [done|].
      repeat split; [congruence..|]. right; exists copy.
      repeat split; [congruence..|left; congruence]. }
  destruct Hh2 as (Hdd & copy' & Hdst' & ->).
  rewrite Hd1, Hd0 in Hdd.
  assert (Ht : copy_target w src dst = dst)
    by (unfold copy_target; by rewrite bool_decide_eq_false_2).
  rewrite Ht in *.
  rewrite Hf1, Hf0, lookup_insert_eq in Hdst'.
  assert (copy' = copy) as -> by congruence.
  destruct (String.eqb_spec (sha256 data) (sha256 copy)) as [Heq|Hneq].
  - rewrite bind_run.
    destruct (unlink_run false src w2) as (r3 & w3 & -> & (Hd3 & Hl3 & Hs3 & _) & Hu).
    destruct r3 as [[]|e].
    + destruct Hu as (_ & Hf3 & _). eexists _, _, _, _. split; [done|].
      split; [done|]. split; [congruence|]. split; [congruence|].
      exists data, copy. repeat split; try done; congruence.
    + eexists _, _, _, _. split; [done|]. split; [done|].
      split; [congruence|]. split; [congruence|]. split; [congruence|].
      right. exists copy. repeat split; [done|congruence|left; congruence].
  - rewrite bind_run.
    destruct (log_at_run ERROR
                (MsgHashMismatch src dst (Str.take 12 (sha256 data))
                   (Str.take 12 (sha256 copy))) w2)
      as (w3 & Hrun & [Hf3 Hd3] & Hl3 & Hs3 & _).
    unfold log_error. rewrite Hrun, bind_run. clear Hrun.
    destruct (unlink_run true dst w3) as (r4 & w4 & -> & (Hd4 & Hl4 & Hs4 & _) & Hu).
    destruct r4 as [[]|e].
    + destruct Hu as (_ & Hf4 & _). eexists _, _, _, _. split; [done|].
      split; [done|]. split; [congruence|]. split; [congruence|].
      exists data, copy. repeat split; try done; congruence.
    + eexists _, _, _, _. split; [done|]. split; [done|].
      split; [congruence|]. split; [congruence|]. split; [congruence|].
      right. exists copy. repeat split; [done|congruence|].
      right. eexists _, _. by rewrite Hl4, Hl3, Hl2, Hl1, Hl0.
Qed.

End Relocator.

(** ** Strings and decimal numerals *)

Lemma str_length_app (s1 s2 : string) :
  String.length (s1 +:+ s2) = String.length s1 + String.length s2.
Proof.
  induction s1 as [|c s1 IH]; cbn [String.length String.append]; [done|lia].
Qed.

Lemma str_app_assoc (s1 s2 s3 : string) :
  (s1 +:+ s2) +:+ s3 = s1 +:+ (s2 +:+ s3).
Proof.
  induction s1 as [|c s1 IH]; cbn [String.length String.append];
    [done|congruence].
Qed.

Lemma str_app_inj_r (s1 s2 e : string) : s1 +:+ e = s2 +:+ e → s1 = s2.
Proof.
  revert s2. induction s1 as [|c s1 IH]; intros [|c2 s2] Heq;
    cbn [String.append] in *.
  - done.
  - apply (f_equal String.length) in Heq. cbn [String.length] in Heq.
    rewrite str_length_app in Heq. lia.
  - apply (f_equal String.length) in Heq. cbn [String.length] in Heq.
    rewrite str_length_app in Heq. lia.
  - injection Heq as -> Heq. f_equal. by apply IH.
Qed.

Lemma str_app_inj_l (p s1 s2 : string) : p +:+ s1 = p +:+ s2 → s1 = s2.
Proof.
  induction p as [|c p IH]; cbn [String.append]; [done|]. intros [=]. auto.
Qed.

Lemma digit_val_char (d : nat) : d < 10 → Str.digit_val (Str.digit_char d) = d.
Proof.
  intros Hd. unfold Str.digit_val, Str.digit_char, Str.code.
  rewrite nat_ascii_embedding by lia. lia.
Qed.

Lemma to_nat_acc_digits (fuel n : nat) (acc : string) :
  n < fuel →
  Str.to_nat_acc 0 (Str.digits_acc fuel n acc) = Str.to_nat_acc n acc.
Proof.
  revert n acc. induction fuel as [|f IH]; intros n acc Hn; [lia|].
  cbn [Str.digits_acc]. destruct (Nat.ltb_spec n 10) as [Hlt|Hge].
  - cbn [Str.to_nat_acc]. rewrite digit_val_char, Nat.mod_small by
      (try apply Nat.mod_upper_bound; lia). f_equal.
  - assert (n / 10 < n) by (apply Nat.div_lt; lia).
    rewrite IH by lia. cbn [Str.to_nat_acc].
    rewrite digit_val_char by (apply Nat.mod_upper_bound; lia).
    f_equal. rewrite (Nat.div_mod_eq n 10) at 3. lia.
Qed.

Lemma to_nat_of_nat (n : nat) : Str.to_nat (Str.of_nat n) = n.
Proof. unfold Str.to_nat, Str.of_nat. by rewrite to_nat_acc_digits by lia. Qed.

Lemma to_nat_acc_zeros (k : nat) (s : string) :
  Str.to_nat_acc 0 (Str.repeat "0" k +:+ s) = Str.to_nat_acc 0 s.
Proof.
  induction k as [|k IH]; cbn [Str.repeat String.append Str.to_nat_acc];
    [done|apply IH].
Qed.

Lemma to_nat_zfill (w n : nat) : Str.to_nat (Str.zfill w (Str.of_nat n)) = n.
Proof.
  unfold Str.zfill, Str.to_nat. rewrite to_nat_acc_zeros. apply to_nat_of_nat.
Qed.

Lemma zfill_of_nat_inj (w i j : nat) :
  Str.zfill w (Str.of_nat i) = Str.zfill w (Str.of_nat j) → i = j.
Proof.
  intros Heq. apply (f_equal Str.to_nat) in Heq. by rewrite !to_nat_zfill in Heq.
Qed.

(** ** Collision avoidance *)

Lemma candidate_inj (d b e : string) (i j : nat) :
  candidate d b e i = candidate d b e j → i = j.
Proof.
  unfold candidate, path_join.
  destruct i as [|i], j as [|j]; intros Heq; [done| | |].
  - do 3 apply str_app_inj_l in Heq.
    apply (f_equal String.length) in Heq.
    cbn [String.length String.append] in Heq.
    rewrite str_length_app in Heq. lia.
  - do 3 apply str_app_inj_l in Heq.
    apply (f_equal String.length) in Heq.
    cbn [String.length String.append] in Heq.
    rewrite str_length_app in Heq. lia.
  - do 4 apply str_app_inj_l in Heq.
    apply str_app_inj_r in Heq. by apply zfill_of_nat_inj in Heq.
Qed.

Lemma path_exists_true (w : world) (p : string) :
  path_exists w p = true ↔ p ∈ dom (files w) ∪ dirs w.
Proof.
  unfold path_exists. rewrite orb_true_iff, !bool_decide_eq_true.
  rewrite elem_of_union, elem_of_dom. done.
Qed.

Lemma path_exists_false (w : world) (p : string) :
  path_exists w p = false ↔ files w !! p = None ∧ p ∉ dirs w.
Proof.
  unfold path_exists. rewrite orb_false_iff, !bool_decide_eq_false.
  by rewrite <-eq_None_not_Some.
Qed.

(** At most as many of the candidates exist as there are paths. *)
Lemma candidates_bounded (w : world) (d b e : string) (k : nat) :
  (∀ j, j < k → path_exists w (candidate d b e j) = true) →
  k ≤ size (files w) + size (dirs w).
Proof.
  intros Hall.
  set (l := candidate d b e <$> seq 0 k).
  assert (Hnd : NoDup l).
  { apply NoDup_fmap_2; [|apply NoDup_seq]. intros i j. apply candidate_inj. }
  assert (Hsub : (list_to_set l : gset string) ⊆ dom (files w) ∪ dirs w).
  { intros p [j [-> Hj]]%elem_of_list_to_set%list_elem_of_fmap.
    apply path_exists_true, Hall. apply elem_of_seq in Hj. lia. }
  apply subseteq_size in Hsub.
  rewrite size_list_to_set in Hsub by done.
  unfold l in Hsub. rewrite length_fmap, length_seq in Hsub.
  rewrite size_union_alt, size_dom in Hsub.
  assert (size (dirs w ∖ dom (files w)) ≤ size (dirs w))
    by (apply subseteq_size; set_solver).
  lia.
Qed.

Lemma safe_dest_loop_finds (w : world) (d b e : string) (fuel k : nat) :
  (∀ j, j < k → path_exists w (candidate d b e j) = true) →
  size (files w) + size (dirs w) ≤ fuel + k →
  ∃ n, k ≤ n
    ∧ safe_dest_loop w d b e fuel (S k) (candidate d b e k)
      = Some (candidate d b e n)
    ∧ path_exists w (candidate d b e n) = false
    ∧ ∀ j, j < n → path_exists w (candidate d b e j) = true.
Proof.
  revert k. induction fuel as [|fuel IH]; intros k Hall Hfuel.
  - cbn [safe_dest_loop].
    destruct (path_exists w (candidate d b e k)) eqn:Hk; [|by exists k].
    assert (S k ≤ size (files w) + size (dirs w)); [|lia].
    apply (candidates_bounded w d b e). intros j Hj.
    destruct (decide (j = k)) as [->|]; [done|apply Hall; lia].
  - cbn [safe_dest_loop].
    destruct (path_exists w (candidate d b e k)) eqn:Hk; [|by exists k].
    destruct (IH (S k)) as (n & Hn & Hrun & Hfree & Hbelow).
    + intros j Hj. destruct (decide (j = k)) as [->|]; [done|apply Hall; lia].
    + lia.
    + exists n. split; [lia|]. by split.
Qed.

(** [safe_dest_path] always returns, touches nothing, and returns the first
    candidate that does not exist. *)
Lemma safe_dest_path_run (d b e : string) (w : world) :
  ∃ n, safe_dest_path d b e w = (Ok (candidate d b e n), w)
    ∧ path_exists w (candidate d b e n) = false
    ∧ ∀ j, j < n → path_exists w (candidate d b e j) = true.
Proof.
  destruct (safe_dest_loop_finds w d b e (size (files w) + size (dirs w)) 0)
    as (n & _ & Hrun & Hfree & Hbelow); [lia|lia|].
  exists n. unfold safe_dest_path.
  change (path_join d (b +:+ e)) with (candidate d b e 0).
  by rewrite Hrun.
Qed.

(** An image name and a [.mov] name are never the same path. *)
Lemma str_drop_app (p e : string) (k : nat) :
  Str.drop (String.length p + k) (p +:+ e) = Str.drop k e.
Proof. induction p as [|c p IH]; [done|]. cbn. apply IH. Qed.

Lemma image_ext_not_mov (p1 p2 e : string) :
  e ∈ IMAGE_EXTS → p1 +:+ e ≠ p2 +:+ ".mov".
Proof.
  intros He Heq.
  assert (Hlen : String.length p1 + String.length e = String.length p2 + 4).
  { apply (f_equal String.length) in Heq. by rewrite !str_length_app in Heq. }
  assert (Hcase : (String.length e = 4 ∧ e ≠ ".mov")
                  ∨ (String.length e = 5 ∧ Str.drop 1 e ≠ ".mov")).
  { unfold IMAGE_EXTS in He.
    repeat (apply elem_of_cons in He as [->|He]; [by auto|]).
    by apply elem_of_nil in He. }
  destruct Hcase as [[Hl Hne]|[Hl Hne]]; apply Hne.
  - apply (f_equal (Str.drop (String.length p1 + 0))) in Heq.
    rewrite str_drop_app in Heq.
    replace (String.length p1 + 0) with (String.length p2 + 0) in Heq by lia.
    by rewrite str_drop_app in Heq.
  - apply (f_equal (Str.drop (String.length p1 + 1))) in Heq.
    rewrite str_drop_app in Heq.
    replace (String.length p1 + 1) with (String.length p2 + 0) in Heq by lia.
    by rewrite str_drop_app in Heq.
Qed.

Lemma candidate_ends_with (d b e : string) (n : nat) :
  ∃ p, candidate d b e n = p +:+ e.
Proof.
  destruct n as [|n]; unfold candidate, path_join.
  - exists (d +:+ "/" +:+ b). by rewrite !str_app_assoc.
  - exists (d +:+ "/" +:+ b +:+ "_" +:+ Str.zfill 2 (Str.of_nat (S n))).
    by rewrite !str_app_assoc.
Qed.

(** ** The relocator *)

Section Relocator.
Context `{Env}.

(** [safe_move] never raises, and ends in one of three ways. *)
Lemma safe_move_run (src dst : string) (w : world) :
  ∃ b w', safe_move src dst w = (Ok b, w')
    ∧ dirs w' = dirs w ∧ stop_in w' = stop_in w ∧
    if b then
      ∃ data copy, files w !! src = Some data ∧ src ≠ dst
        ∧ (dst ∉ dirs w) ∧ (src ∉ dirs w)
        ∧ sha256 data = sha256 copy
        ∧ files w' = delete src (<[dst := copy]> (files w))
        ∧ log w' = log w
    else
      files w' = files w
      ∨ (∃ copy, copy_target w src dst ≠ src
           ∧ files w' = <[copy_target w src dst := copy]> (files w))
      ∨ (∃ data copy, files w !! src = Some data ∧ src ≠ dst
           ∧ (dst ∉ dirs w) ∧ sha256 data ≠ sha256 copy
           ∧ files w' = delete dst (<[dst := copy]> (files w))).
Proof.
  unfold safe_move, try_except.
  destruct (safe_move_body_run src dst w)
    as (r & w1 & r0 & w0 & -> & _ & Hd & Hs & Hr).
  destruct r as [[|]|e].
  - exists true, w1. repeat split; [done..|].
    destruct Hr as (data & copy & ? & ? & ? & ? & ? & ? & ? & ?).
    by exists data, copy.
  - exists false, w1. repeat split; [done..|].
    destruct Hr as (data & copy & ? & ? & ? & ? & ? & ? & ? & ?).
    right; right. by exists data, copy.
  - eexists false, _. split; [reflexivity|]. repeat split; [done..|].
    cbn. destruct Hr as [_ [[? _]|(copy & ? & ? & _)]]; [by left|].
    right; left. by exists copy.
Qed.

(** A path that was a file and is gone was the verified source, or the
    destination of a copy that failed verification. *)
Lemma safe_move_gone (src dst : string) (w w' : world) (b : bool) (p : string) :
  safe_move src dst w = (Ok b, w') →
  is_Some (files w !! p) → files w' !! p = None →
  (p = src ∧ b = true) ∨ (p = dst ∧ b = false).
Proof.
  intros Hrun [x Hp] Hgone.
  destruct (safe_move_run src dst w) as (b' & w'' & Hrun' & _ & _ & Hcase).
  rewrite Hrun in Hrun'. injection Hrun' as <- <-.
  destruct b.
  - destruct Hcase as (data & copy & _ & _ & _ & _ & _ & Hf & _).
    rewrite Hf in Hgone. left. split; [|done].
    destruct (decide (p = src)) as [|Hne]; [done|].
    rewrite lookup_delete_ne in Hgone by done.
    destruct (decide (p = dst)) as [->|Hne'].
    + by rewrite lookup_insert_eq in Hgone.
    + rewrite lookup_insert_ne in Hgone by done. congruence.
  - right. split; [|done].
    destruct Hcase as [Hf|[(copy & _ & Hf)|(data & copy & _ & _ & _ & _ & Hf)]];
      rewrite Hf in Hgone.
    + congruence.
    + destruct (decide (copy_target w src dst = p)) as [<-|Hne].
      * by rewrite lookup_insert_eq in Hgone.
      * rewrite lookup_insert_ne in Hgone by done. congruence.
    + destruct (decide (p = dst)) as [|Hne]; [done|].
      rewrite lookup_delete_ne, lookup_insert_ne in Hgone by done. congruence.
Qed.

Lemma safe_move_frame (src dst : string) (w w' : world) (b : bool) :
  safe_move src dst w = (Ok b, w') →
  dirs w' = dirs w ∧ stop_in w' = stop_in w.
Proof.
  intros Hrun.
  destruct (safe_move_run src dst w) as (b' & w'' & Hrun' & ? & ? & _).
  rewrite Hrun in Hrun'. by injection Hrun' as <- <-.
Qed.

(** A failed move leaves the source as it was. *)
Lemma safe_move_false_source (src dst : string) (w w' : world) :
  safe_move src dst w = (Ok false, w') → files w' !! src = files w !! src.
Proof.
  intros Hrun.
  destruct (safe_move_run src dst w) as (b' & w'' & Hrun' & _ & _ & Hcase).
  rewrite Hrun in Hrun'. injection Hrun' as <- <-.
  destruct Hcase as [Hf|[(copy & ? & Hf)|(data & copy & _ & ? & _ & _ & Hf)]];
    rewrite Hf; [done| |].
  - by rewrite lookup_insert_ne.
  - by rewrite lookup_delete_ne, lookup_insert_ne.
Qed.

End Relocator.

(** ** The pair loop *)

Lemma bind_log_run {A} (l : level) (m : msg) (k : unit → M A) (w : world) :
  (log_at l m ≫= k) w = k tt (with_log (log w ++ [(l, m)]) w).
Proof. reflexivity. Qed.

Lemma getitem_run (idx : index) (uuid : string) (v : string * exif_rec)
    (w : world) :
  idx !! uuid = Some v → getitem idx uuid w = (Ok v, w).
Proof. intros Hv. unfold getitem. by rewrite Hv. Qed.

Section Run.
Context `{Env}.

Lemma move_pair_run (all_images all_videos : index) (dest_dir : string)
    (i total : nat) (uuid : string) (acc : tally) (w : world)
    (img_path vid_path : string) (img_meta vid_meta : exif_rec) :
  all_images !! uuid = Some (img_path, img_meta) →
  all_videos !! uuid = Some (vid_path, vid_meta) →
  let base := rich_base_name img_meta uuid in
  ∃ n m img_ok vid_ok w1 w2 w3 w' t,
    let dest_img := candidate dest_dir base (Str.lower (suffix img_path)) n in
    let dest_vid := candidate dest_dir base ".mov" m in
    move_pair all_images all_videos dest_dir i total uuid acc w = (Ok t, w')
    ∧ t_pairs t = t_pairs acc ++
        [{| e_uuid := uuid; e_base_name := base;
            e_image := {| source := img_path; dest := dest_img;
                          success := img_ok |};
            e_video := {| source := vid_path; dest := dest_vid;
                          success := vid_ok |} |}]
    ∧ success_count t
      = success_count acc + (if img_ok && vid_ok then 1 else 0)
    ∧ fail_count t = fail_count acc + (if img_ok && vid_ok then 0 else 1)
    ∧ path_exists w dest_img = false
    ∧ (∀ j, j < n → path_exists w
         (candidate dest_dir base (Str.lower (suffix img_path)) j) = true)
    ∧ path_exists w dest_vid = false
    ∧ (∀ j, j < m → path_exists w (candidate dest_dir base ".mov" j) = true)
    ∧ same_tree w w1 ∧ stop_in w1 = stop_in w ∧ faults w1 = faults w
    ∧ safe_move img_path dest_img w1 = (Ok img_ok, w2)
    ∧ safe_move vid_path dest_vid w2 = (Ok vid_ok, w3)
    ∧ same_tree w3 w' ∧ stop_in w' = stop_in w3.
Proof.
  intros Hi Hv base. unfold move_pair.
  rewrite bind_run, (getitem_run _ _ _ _ Hi).
  rewrite bind_run, (getitem_run _ _ _ _ Hv). fold base.
  destruct (safe_dest_path_run dest_dir base (Str.lower (suffix img_path)) w)
    as (n & Hn & Hnfree & Hnmin).
  destruct (safe_dest_path_run dest_dir base ".mov" w)
    as (m & Hm & Hmfree & Hmmin).
  rewrite bind_run, Hn, bind_run, Hm.
  unfold log_info. rewrite !bind_log_run.
  set (w1 := with_log _ (with_log _ (with_log _ w))).
  rewrite bind_run.
  destruct (safe_move_run img_path
              (candidate dest_dir base (Str.lower (suffix img_path)) n) w1)
    as (img_ok & w2 & Himg & _).
  rewrite Himg, bind_run.
  destruct (safe_move_run vid_path (candidate dest_dir base ".mov" m) w2)
    as (vid_ok & w3 & Hvid & _).
  rewrite Hvid.
  exists n, m, img_ok, vid_ok, w1, w2, w3.
  destruct img_ok, vid_ok; cbn; eexists _, _;
    (split; [reflexivity|]); cbn; by repeat split.
Qed.

End Run.

Lemma sorted_elem_of (s : gset string) (u : string) : u ∈ sorted s ↔ u ∈ s.
Proof.
  unfold sorted. rewrite (merge_sort_Permutation String.le (elements s)).
  apply elem_of_elements.
Qed.

Lemma sorted_StronglySorted (s : gset string) :
  StronglySorted String.le (sorted s).
Proof. apply (StronglySorted_merge_sort String.le); apply _. Qed.

Lemma sorted_NoDup (s : gset string) : NoDup (sorted s).
Proof.
  unfold sorted. rewrite (merge_sort_Permutation String.le (elements s)).
  apply NoDup_elements.
Qed.

Lemma sorted_length (s : gset string) : List.length (sorted s) = size s.
Proof.
  unfold sorted. by rewrite (merge_sort_Permutation String.le (elements s)).
Qed.

Lemma orphan_loop_run (kind : string → string → msg) (idx : index)
    (uuids : list string) (acc : list orphan) (w : world) :
  (∀ u, u ∈ uuids → is_Some (idx !! u)) →
  ∃ w', orphan_loop kind idx uuids acc w
        = (Ok (acc ++ (orphan_of idx <$> uuids)), w')
    ∧ same_tree w w' ∧ stop_in w' = stop_in w.
Proof.
  revert acc w. induction uuids as [|u uuids IH]; intros acc w Hin.
  - exists w. cbn. rewrite app_nil_r. by repeat split.
  - cbn [orphan_loop]. destruct (Hin u) as [[p meta] Hu]; [by left|].
    rewrite bind_run, (getitem_run _ _ _ _ Hu).
    unfold log_warning. rewrite bind_log_run.
    destruct (IH (acc ++ [{| o_uuid := u; o_path := p |}])
                (with_log (log w ++ [(WARNING, kind p (Str.take 8 u))]) w))
      as (w' & Hrun & [Hf Hd] & Hs).
    { intros u' Hu'. apply Hin. by right. }
    exists w'. rewrite Hrun. split; [|by repeat split].
    f_equal. f_equal. rewrite <-app_assoc. cbn. unfold orphan_of at 2.
    by rewrite Hu.
Qed.

Lemma for_each_run {A} (body : A → M unit) (xs : list A) (w : world) :
  (∀ x w1, x ∈ xs → ∃ w2, body x w1 = (Ok tt, w2) ∧ same_tree w1 w2
                          ∧ stop_in w2 = stop_in w1) →
  ∃ w', for_each body xs w = (Ok tt, w') ∧ same_tree w w'
        ∧ stop_in w' = stop_in w.
Proof.
  revert w. induction xs as [|x xs IH]; intros w Hbody.
  - exists w. by repeat split.
  - cbn [for_each]. rewrite bind_run.
    destruct (Hbody x w) as (w1 & -> & Ht1 & Hs1); [by left|].
    destruct (IH w1) as (w' & -> & Ht & Hs).
    { intros x' w2 Hx'. apply Hbody. by right. }
    exists w'. split; [done|]. split; [by eapply same_tree_trans|congruence].
Qed.

Section Run.
Context `{Env}.

(** Within one pair, a file that was there and is gone is a source whose
    move succeeded. *)
Lemma move_pair_gone (all_images all_videos : index) (dest_dir : string)
    (i total : nat) (uuid : string) (acc t : tally) (w w' : world)
    (p : string) :
  is_Some (all_images !! uuid) → is_Some (all_videos !! uuid) →
  move_pair all_images all_videos dest_dir i total uuid acc w = (Ok t, w') →
  is_Some (files w !! p) → files w' !! p = None →
  ∃ e, t_pairs t = t_pairs acc ++ [e] ∧ moved_source p [e].
Proof.
  intros [[ip im] Hi] [[vp vm] Hv] Hrun Hp Hgone.
  destruct (move_pair_run all_images all_videos dest_dir i total uuid acc w
              ip vp im vm Hi Hv)
    as (n & m & img_ok & vid_ok & w1 & w2 & w3 & w'' & t' & Hrun' & Hpairs
        & _ & _ & Hnfree & _ & Hmfree & _ & [Hf1 Hd1] & _ & _ & Himg & Hvid
        & [Hf3 Hd3] & _).
  rewrite Hrun in Hrun'. injection Hrun' as <- <-.
  eexists. split; [exact Hpairs|].
  eexists. split; [by left|]. cbn.
  apply path_exists_false in Hnfree as [Hnf _].
  apply path_exists_false in Hmfree as [Hmf _].
  rewrite Hf3 in Hgone. rewrite <-Hf1 in Hp.
  destruct (files w2 !! p) as [x|] eqn:Hp2.
  - destruct (safe_move_gone _ _ _ _ _ p Hvid) as [[-> ->]|[-> _]];
      [by eexists|done|by right|].
    rewrite Hf1, Hmf in Hp. by destruct Hp.
  - destruct (safe_move_gone _ _ _ _ _ p Himg) as [[-> ->]|[-> _]];
      [done|done|by left|].
    rewrite Hf1, Hnf in Hp. by destruct Hp.
Qed.

Lemma move_pair_frame (all_images all_videos : index) (dest_dir : string)
    (i total : nat) (uuid : string) (acc t : tally) (w w' : world) :
  is_Some (all_images !! uuid) → is_Some (all_videos !! uuid) →
  move_pair all_images all_videos dest_dir i total uuid acc w = (Ok t, w') →
  dirs w' = dirs w ∧ stop_in w' = stop_in w.
Proof.
  intros [[ip im] Hi] [[vp vm] Hv] Hrun.
  destruct (move_pair_run all_images all_videos dest_dir i total uuid acc w
              ip vp im vm Hi Hv)
    as (n & m & img_ok & vid_ok & w1 & w2 & w3 & w'' & t' & Hrun' & _
        & _ & _ & _ & _ & _ & _ & [Hf1 Hd1] & Hs1 & _ & Himg & Hvid
        & [Hf3 Hd3] & Hs3).
  rewrite Hrun in Hrun'. injection Hrun' as <- <-.
  destruct (safe_move_frame _ _ _ _ _ Himg) as [Hdi Hsi].
  destruct (safe_move_frame _ _ _ _ _ Hvid) as [Hdv Hsv].
  split; congruence.
Qed.

(** The pair loop: it never raises, it makes one entry per identifier in
    order until it is interrupted, and what it removes are moved sources. *)
Lemma move_loop_run (all_images all_videos : index) (dest_dir : string)
    (total : nat) (uuids : list string) (i : nat) (acc : tally) (w : world) :
  (∀ u, u ∈ uuids → is_Some (all_images !! u) ∧ is_Some (all_videos !! u)) →
  ∃ t w' es,
    move_loop all_images all_videos dest_dir i total uuids acc w = (Ok t, w')
    ∧ t_pairs t = t_pairs acc ++ es
    ∧ (e_uuid <$> es) `prefix_of` uuids
    ∧ (stop_in w = None → e_uuid <$> es = uuids)
    ∧ dirs w' = dirs w
    ∧ (∀ p, is_Some (files w !! p) → files w' !! p = None →
            moved_source p es).
Proof.
  revert i acc w. induction uuids as [|u uuids IH]; intros i acc w Hin.
  - exists acc, w, []. cbn. rewrite app_nil_r. repeat split; try done.
    intros p [x Hx] Hn. congruence.
  - cbn [move_loop]. rewrite bind_run. unfold read_running.
    destruct (Hin u) as [Hiu Hvu]; [by left|].
    assert (Hstep : ∀ w0, same_tree w w0 →
      (stop_in w = None → stop_in w0 = None) →
      ∃ t w' es,
        (acc' ← move_pair all_images all_videos dest_dir i total u acc;
         move_loop all_images all_videos dest_dir (S i) total uuids acc') w0
        = (Ok t, w')
        ∧ t_pairs t = t_pairs acc ++ es
        ∧ (e_uuid <$> es) `prefix_of` (u :: uuids)
        ∧ (stop_in w = None → e_uuid <$> es = u :: uuids)
        ∧ dirs w' = dirs w
        ∧ (∀ p, is_Some (files w !! p) → files w' !! p = None →
                moved_source p es)).
    { intros w0 [Hf0 Hd0] Hs0. rewrite bind_run.
      destruct Hiu as [[ip im] Hi], Hvu as [[vp vm] Hv].
      destruct (move_pair_run all_images all_videos dest_dir i total u acc
                  w0 ip vp im vm Hi Hv)
        as (n & m & img_ok & vid_ok & w1 & w2 & w3 & w4 & t1 & Hrun1 & Hpairs
            & _).
      rewrite Hrun1.
      destruct (move_pair_frame _ _ _ _ _ _ _ _ _ _
                  (ex_intro _ _ Hi) (ex_intro _ _ Hv) Hrun1) as [Hd4 Hs4].
      destruct (IH (S i) t1 w4) as (t & w' & es & Hrun & Hp & Hpre & Hall
                                    & Hd & Hgone).
      { intros u' Hu'. apply Hin. by right. }
      exists t, w'. eexists (_ :: es). split; [done|].
      split; [by rewrite Hp, Hpairs, <-app_assoc|].
      split; [cbn; by apply prefix_cons|].
      split; [intros Hnone; cbn; f_equal; apply Hall; rewrite Hs4; auto|].
      split; [congruence|].
      intros p Hp0 Hgone'. rewrite <-Hf0 in Hp0.
      destruct (files w4 !! p) as [x|] eqn:Hp4.
      - destruct (Hgone p) as (e & He & Hcase); [by eexists|done|].
        exists e. split; [by right|done].
      - destruct (move_pair_gone _ _ _ _ _ _ _ _ _ _ p
                    (ex_intro _ _ Hi) (ex_intro _ _ Hv) Hrun1 Hp0 Hp4)
          as (e & He & (e' & ->%list_elem_of_singleton & Hcase)).
        rewrite Hpairs in He. apply app_inv_head in He.
        injection He as <-. eexists. split; [by left|done]. }
    destruct (stop_in w) as [[|k]|] eqn:Hstop.
    + exists acc. eexists _, []. unfold log_warning. cbn.
      rewrite app_nil_r. repeat split; try done.
      * apply prefix_nil.
      * intros p [x Hx] Hn. cbn in Hn. congruence.
    + cbn [negb]. apply Hstep; [done|done].
    + cbn [negb]. apply Hstep; [apply same_tree_refl|done].
Qed.

End Run.

(** ** [move_pairs] as a whole *)

Lemma mkdir_p_run (d : string) (w : world) :
  ∃ r w', mkdir_p d w = (r, w') ∧ files w' = files w
    ∧ stop_in w' = stop_in w ∧ log w' = log w ∧ clock w' = clock w ∧
    match r with
    | Ok _ => dirs w' = dirs w ∪ list_to_set (parents d) ∪ {[d]}
    | Raised _ =>
        dirs w ⊆ dirs w' ∧ dirs w' ⊆ dirs w ∪ list_to_set (parents d)
    end.
Proof.
  unfold mkdir_p, next_fault, get_world. rewrite !bind_run. cbn.
  case_bool_decide;
    [eexists _, _; (split; [reflexivity|]); cbn; repeat split; set_solver|].
  destruct (existsb _ _);
    [eexists _, _; (split; [reflexivity|]); cbn; repeat split; set_solver|].
  destruct (default NoFault (head (faults w))); eexists _, _;
    (split; [reflexivity|]); cbn; repeat split; try done; try set_solver.
  intros x [Hx|Hx%elem_of_list_to_set]%elem_of_union; [set_solver|].
  apply elem_of_union_r, elem_of_list_to_set.
  apply elem_of_take in Hx as (i & Hi & _). by eapply list_elem_of_lookup_2.
Qed.

Lemma matched_in_both (all_images all_videos : index) (u : string) :
  u ∈ sorted (matched_uuids all_images all_videos) →
  is_Some (all_images !! u) ∧ is_Some (all_videos !! u).
Proof.
  rewrite sorted_elem_of. unfold matched_uuids.
  rewrite elem_of_intersection, !elem_of_dom. done.
Qed.

Lemma orphan_img_in (all_images all_videos : index) (u : string) :
  u ∈ sorted (orphan_img_uuids all_images all_videos) →
  is_Some (all_images !! u).
Proof.
  rewrite sorted_elem_of. unfold orphan_img_uuids.
  rewrite elem_of_difference, elem_of_dom. tauto.
Qed.

Lemma orphan_vid_in (all_images all_videos : index) (u : string) :
  u ∈ sorted (orphan_vid_uuids all_images all_videos) →
  is_Some (all_videos !! u).
Proof.
  rewrite sorted_elem_of. unfold orphan_vid_uuids.
  rewrite elem_of_difference, elem_of_dom. tauto.
Qed.

Lemma dry_run_report_run `{Env} (all_images all_videos : index) (w : world) :
  ∃ w', dry_run_report all_images all_videos w = (Ok tt, w')
    ∧ same_tree w w' ∧ stop_in w' = stop_in w.
Proof.
  unfold dry_run_report. rewrite bind_run.
  match goal with |- context [for_each ?b ?xs w] =>
    destruct (for_each_run b xs w) as (w1 & -> & Ht1 & Hs1) end.
  { intros u w0 [[[ip im] Hi] [[vp vm] Hv]]%matched_in_both.
    rewrite bind_run, (getitem_run _ _ _ _ Hi).
    rewrite bind_run, (getitem_run _ _ _ _ Hv).
    eexists. split; [reflexivity|]. by repeat split. }
  rewrite bind_run.
  match goal with |- context [for_each ?b ?xs w1] =>
    destruct (for_each_run b xs w1) as (w2 & -> & Ht2 & Hs2) end.
  { intros u w0 [[ip im] Hi]%orphan_img_in.
    rewrite bind_run, (getitem_run _ _ _ _ Hi).
    eexists. split; [reflexivity|]. by repeat split. }
  match goal with |- context [for_each ?b ?xs w2] =>
    destruct (for_each_run b xs w2) as (w3 & -> & Ht3 & Hs3) end.
  { intros u w0 [[ip im] Hi]%orphan_vid_in.
    rewrite bind_run, (getitem_run _ _ _ _ Hi).
    eexists. split; [reflexivity|]. by repeat split. }
  exists w3. split; [done|].
  split; [eauto using same_tree_trans|congruence].
Qed.

Section Run.
Context `{Env}.

(** A dry run: only [mkdir] can raise or change the tree. *)
Lemma move_pairs_dry_run (all_images all_videos : index) (dest_dir : string)
    (w : world) :
  ∃ r w1 w', mkdir_p dest_dir w = (r, w1)
    ∧ move_pairs all_images all_videos dest_dir true w
      = (match r with
         | Ok _ => Ok {| generated := clock w; m_dest_dir := dest_dir;
                         version := "1.1.0"; pairs := [];
                         orphan_images := []; orphan_videos := [] |}
         | Raised e => Raised e
         end, w')
    ∧ same_tree w1 w'.
Proof.
  unfold move_pairs. rewrite bind_run.
  destruct (mkdir_p_run dest_dir w) as (r & w1 & Hmk & _ & _ & _ & Hc & _).
  rewrite Hmk. destruct r as [[]|e];
    [|exists (Raised e), w1, w1; by repeat split].
  unfold get_world, log_info. rewrite bind_run, !bind_log_run.
  set (w2 := with_log _ (with_log _ (with_log _ w1))).
  rewrite bind_run.
  destruct (dry_run_report_run all_images all_videos w2)
    as (w' & -> & [Hf Hd] & _).
  exists (Ok tt), w1, w'. split; [done|]. split; [|by split].
  cbn. by rewrite Hc.
Qed.

(** A real run. *)
Lemma move_pairs_run (all_images all_videos : index) (dest_dir : string)
    (w : world) :
  ∃ r w1 w', mkdir_p dest_dir w = (r, w1)
    ∧ dirs w' = dirs w1 ∧
    match r with
    | Raised e =>
        move_pairs all_images all_videos dest_dir false w = (Raised e, w')
        ∧ files w' = files w
    | Ok _ =>
        ∃ m, move_pairs all_images all_videos dest_dir false w = (Ok m, w')
          ∧ m_dest_dir m = dest_dir
          ∧ (e_uuid <$> pairs m)
              `prefix_of` sorted (matched_uuids all_images all_videos)
          ∧ (stop_in w = None →
             e_uuid <$> pairs m
             = sorted (matched_uuids all_images all_videos))
          ∧ orphan_images m
            = orphan_of all_images
                <$> sorted (orphan_img_uuids all_images all_videos)
          ∧ orphan_videos m
            = orphan_of all_videos
                <$> sorted (orphan_vid_uuids all_images all_videos)
          ∧ (∀ p, is_Some (files w !! p) → files w' !! p = None →
                  moved_source p (pairs m))
    end.
Proof.
  unfold move_pairs. rewrite bind_run.
  destruct (mkdir_p_run dest_dir w) as (r & w1 & Hmk & Hf1 & Hs1 & _).
  rewrite Hmk. destruct r as [[]|e];
    [|exists (Raised e), w1, w1; by repeat split].
  unfold get_world, log_info. rewrite bind_run, !bind_log_run.
  set (w2 := with_log _ (with_log _ (with_log _ w1))).
  rewrite bind_run.
  destruct (move_loop_run all_images all_videos dest_dir
              (size (matched_uuids all_images all_videos))
              (sorted (matched_uuids all_images all_videos)) 0
              {| t_pairs := []; success_count := 0; fail_count := 0 |} w2)
    as (t & w3 & es & -> & Hp & Hpre & Hall & Hd3 & Hgone).
  { apply matched_in_both. }
  rewrite bind_run.
  destruct (orphan_loop_run MsgOrphanImg all_images
              (sorted (orphan_img_uuids all_images all_videos)) [] w3)
    as (w4 & -> & [Hf4 Hd4] & _); [apply orphan_img_in|].
  rewrite bind_run.
  destruct (orphan_loop_run MsgOrphanMov all_videos
              (sorted (orphan_vid_uuids all_images all_videos)) [] w4)
    as (w5 & -> & [Hf5 Hd5] & _); [apply orphan_vid_in|].
  rewrite !bind_log_run.
  set (w6 := with_log _ (with_log _ (with_log _ w5))).
  exists (Ok tt), w1, w6. split; [done|].
  split; [cbn; by rewrite Hd5, Hd4, Hd3|].
  eexists. split; [reflexivity|]. cbn in *. subst es.
  repeat split; try done.
  - intros Hnone. apply Hall. by rewrite Hs1.
  - intros p Hp0 Hgone'. apply Hgone; [by rewrite Hf1|congruence].
Qed.

End Run.

(** ** Classification and merge *)

Lemma scan_record_role (images videos : index) (rec : exif_rec) :
  scan_record (images, videos) rec =
  match role_of rec with
  | Some (ImageRole, u) => (insert_first u (path_of rec, rec) images, videos)
  | Some (VideoRole, u) => (images, insert_first u (path_of rec, rec) videos)
  | None => (images, videos)
  end.
Proof.
  unfold scan_record, role_of, has_source_path, identifier, has_marker,
    lower_ext, path_of, insert_first.
  destruct (Str.truthy (default "" (SourceFile rec))); cbn [negb]; [|done].
  destruct (ContentIdentifier rec) as [u|]; [|done].
  destruct (Str.truthy u); cbn [negb]; [|done].
  destruct (in_exts _ IMAGE_EXTS); cbn [andb].
  - destruct (LivePhotoVideoIndex rec) as [[]|]; cbn;
      try (by destruct (images !! u));
      destruct (in_exts _ VIDEO_EXTS); try done; by destruct (videos !! u).
  - destruct (in_exts _ VIDEO_EXTS); [|done]. by destruct (videos !! u).
Qed.

Lemma insert_first_lookup (u u' : string) (v : string * exif_rec) (idx : index) :
  insert_first u v idx !! u' =
  match idx !! u' with
  | Some x => Some x
  | None => if decide (u = u') then Some v else None
  end.
Proof.
  unfold insert_first. destruct (idx !! u) as [x|] eqn:Hu.
  - destruct (idx !! u') eqn:Hu'; [done|]. case_decide; congruence.
  - rewrite lookup_insert. case_decide as Heq.
    + subst. by rewrite Hu.
    + by destruct (idx !! u').
Qed.

(** Once an identifier is in an index, scanning more records keeps it. *)
Lemma scan_records_keeps (records : list exif_rec) (images videos : index)
    (u : string) :
  (∀ x, images !! u = Some x →
        (scan_records records (images, videos)).1 !! u = Some x)
  ∧ (∀ x, videos !! u = Some x →
        (scan_records records (images, videos)).2 !! u = Some x).
Proof.
  revert images videos. unfold scan_records.
  induction records as [|rec records IH]; intros images videos; [done|].
  cbn [fold_left]. rewrite scan_record_role.
  destruct (role_of rec) as [[[] u']|]; [| |apply IH].
  - split; intros x Hx; apply IH; [|done].
    by rewrite insert_first_lookup, Hx.
  - split; intros x Hx; apply IH; [done|].
    by rewrite insert_first_lookup, Hx.
Qed.

(** The first record of a role under an identifier is the one indexed. *)
Lemma scan_records_first (before after : list exif_rec) (rec : exif_rec)
    (images videos : index) (r : role) (u : string) :
  role_of rec = Some (r, u) →
  (∀ rec', rec' ∈ before → role_of rec' ≠ Some (r, u)) →
  match r with
  | ImageRole =>
      images !! u = None →
      (scan_records (before ++ rec :: after) (images, videos)).1 !! u
      = Some (path_of rec, rec)
  | VideoRole =>
      videos !! u = None →
      (scan_records (before ++ rec :: after) (images, videos)).2 !! u
      = Some (path_of rec, rec)
  end.
Proof.
  intros Hrole. revert images videos.
  induction before as [|rec' before IH]; intros images videos Hnone.
  - unfold scan_records. cbn [app fold_left]. rewrite scan_record_role, Hrole.
    destruct r; intros Hu;
      apply (scan_records_keeps after); by rewrite insert_first_lookup, Hu,
        decide_True.
  - unfold scan_records. cbn [app fold_left]. rewrite scan_record_role.
    assert (Hrec' : role_of rec' ≠ Some (r, u)) by (apply Hnone; by left).
    assert (Hrest : ∀ rec'', rec'' ∈ before → role_of rec'' ≠ Some (r, u))
      by (intros ? ?; apply Hnone; by right).
    specialize (IH).
    destruct (role_of rec') as [[[] u']|]; destruct r; intros Hu;
      try (by apply (IH _ _ Hrest));
      apply (IH _ _ Hrest); rewrite insert_first_lookup, Hu;
      case_decide; congruence.
Qed.

(** The merge of one scanned index into the global one. *)
Lemma merge_into_lookup (all scanned : index) (u : string) :
  (merge_into all scanned).1 !! u =
  match all !! u with
  | Some x => Some x
  | None => scanned !! u
  end.
Proof.
  unfold merge_into.
  apply (map_fold_weak_ind
    (λ (r : index * nat) (m : index),
       r.1 !! u = match all !! u with Some x => Some x | None => m !! u end)).
  - cbn. by destruct (all !! u).
  - intros k v m [acc n] Hk IH. cbn in IH.
    destruct (acc !! k) as [y|] eqn:Hacc; cbn.
    + rewrite IH. destruct (all !! u) eqn:Hall; [done|].
      destruct (decide (k = u)) as [->|Hne];
        [congruence|by rewrite lookup_insert_ne].
    + rewrite lookup_insert. case_decide as Heq.
      * subst k. rewrite IH in Hacc.
        destruct (all !! u); [done|by rewrite lookup_insert_eq].
      * rewrite IH. destruct (all !! u); [done|by rewrite lookup_insert_ne].
Qed.

(** ** Scanning and [main] *)

Section Scan.
Context `{Env}.

Lemma collect_candidate_files_run (folder : string) (w : world) :
  ∃ l w', collect_candidate_files folder w = (Ok l, w') ∧ same_tree w w'
    ∧ stop_in w' = stop_in w ∧ faults w' = faults w.
Proof.
  unfold collect_candidate_files. destruct (rglob folder); by eexists _, _.
Qed.

Lemma scan_batches_run (starts : list nat) (candidates : list string)
    (acc : index * index) (w : world) :
  ∃ acc' w', scan_batches starts candidates acc w = (Ok acc', w')
    ∧ same_tree w w' ∧ faults w' = faults w.
Proof.
  revert acc w. induction starts as [|s starts IH]; intros acc w.
  - by exists acc, w.
  - cbn [scan_batches]. rewrite bind_run. unfold read_running, log_info.
    destruct (stop_in w) as [[|k]|]; cbn [negb].
    + by eexists _, _.
    + rewrite bind_log_run.
      match goal with |- context [scan_batches _ _ ?a ?w0] =>
        destruct (IH a w0) as (acc' & w' & -> & [Hf Hd] & Hfl) end.
      by exists acc', w'.
    + rewrite bind_log_run.
      match goal with |- context [scan_batches _ _ ?a ?w0] =>
        destruct (IH a w0) as (acc' & w' & -> & [Hf Hd] & Hfl) end.
      by exists acc', w'.
Qed.

(** Scanning a folder raises nothing and changes no file. *)
Lemma scan_folder_run (folder : string) (w : world) :
  ∃ scanned w', scan_folder folder w = (Ok scanned, w') ∧ same_tree w w'
    ∧ faults w' = faults w.
Proof.
  unfold scan_folder. rewrite bind_run.
  destruct (collect_candidate_files_run folder w)
    as (l & w1 & -> & [Hf1 Hd1] & _ & Hfl1).
  destruct l as [|c l]; [by eexists _, _|].
  unfold log_info. rewrite bind_log_run, bind_run.
  match goal with |- context [scan_batches ?s ?c ?a ?w0] =>
    destruct (scan_batches_run s c a w0)
      as ([images videos] & w2 & -> & [Hf2 Hd2] & Hfl2) end.
  rewrite bind_log_run. eexists _, _. split; [reflexivity|].
  cbn in *. repeat split; cbn; congruence.
Qed.

Lemma merge_scan_run (src : string) (acc scanned : index * index) (w : world) :
  ∃ w', merge_scan src acc scanned w = (Ok (merge_pair acc scanned), w')
    ∧ same_tree w w' ∧ faults w' = faults w.
Proof.
  unfold merge_scan, merge_pair. destruct acc as [ai av], scanned as [si sv].
  cbn [fst snd].
  destruct (merge_into ai si) as [ai' ni], (merge_into av sv) as [av' nv].
  by eexists.
Qed.

Lemma scan_sources_run (sources : list string) (acc : index * index)
    (w : world) :
  ∃ all w', scan_sources sources acc w = (Ok all, w') ∧ same_tree w w'
    ∧ faults w' = faults w
    ∧ (∀ u x, acc.1 !! u = Some x → all.1 !! u = Some x)
    ∧ (∀ u x, acc.2 !! u = Some x → all.2 !! u = Some x).
Proof.
  revert acc w. induction sources as [|src sources IH]; intros acc w.
  - by exists acc, w.
  - cbn [scan_sources]. rewrite bind_run.
    destruct (scan_folder_run src w) as (scanned & w1 & -> & Ht1 & Hfl1).
    rewrite bind_run.
    destruct (merge_scan_run src acc scanned w1) as (w2 & -> & Ht2 & Hfl2).
    destruct (IH (merge_pair acc scanned) w2)
      as (all & w' & -> & Ht & Hfl & Hi & Hv).
    exists all, w'. split; [done|].
    split; [eauto using same_tree_trans|]. split; [congruence|].
    split; intros u x Hx; [apply Hi|apply Hv]; unfold merge_pair; cbn;
      by rewrite merge_into_lookup, Hx.
Qed.

End Scan.

Lemma open_write_run (p : string) (data : list Byte.byte) (w : world) :
  ∃ r w', open_write p data w = (r, w') ∧ dirs w' = dirs w
    ∧ (files w' = files w ∨ ∃ d, files w' = <[p := d]> (files w)).
Proof.
  unfold open_write, next_fault, get_world. rewrite !bind_run. cbn.
  case_bool_decide;
    [eexists _, _; split; [reflexivity|]; split; [done|]; by left|].
  destruct (negb _);
    [eexists _, _; split; [reflexivity|]; split; [done|]; by left|].
  destruct (default NoFault (head (faults w))); eexists _, _;
    (split; [reflexivity|]); cbn; eauto.
Qed.

Section Main.
Context `{Env}.

(** [main] is a scan, then [move_pairs], then at most the writing of the
    manifest. *)
Lemma main_run (dry_run : bool) (sources : list string) (dest : string)
    (w : world) :
  ∃ all w1 r w2 w',
    scan_sources sources (∅, ∅) w = (Ok all, w1) ∧ same_tree w w1
    ∧ faults w1 = faults w
    ∧ move_pairs all.1 all.2 dest dry_run
        (with_log (log w1 ++ [(INFO, MsgGrandTotal (size all.1) (size all.2))])
           w1) = (r, w2)
    ∧ main dry_run sources dest w
      = (match r with Ok _ => Ok tt | Raised e => Raised e end, w')
    ∧ dirs w' = dirs w2
    ∧ (if dry_run then files w' = files w2
       else match r with
            | Ok _ => files w' = files w2
                ∨ ∃ d, files w' = <[manifest_path dest := d]> (files w2)
            | Raised _ => files w' = files w2
            end).
Proof.
  unfold main. rewrite bind_run.
  destruct (scan_sources_run sources (∅, ∅) w)
    as ([ai av] & w1 & -> & Ht1 & Hfl1 & _).
  unfold log_info. rewrite bind_log_run, bind_run. cbn [fst snd].
  set (w1' := with_log _ w1).
  destruct (move_pairs ai av dest dry_run w1') as [[m|e] w2] eqn:Hmp.
  - destruct dry_run; cbn [negb].
    + by exists (ai, av), w1, (Ok m), w2, w2.
    + unfold try_except. rewrite bind_run.
      destruct (open_write_run (manifest_path dest) (json_dumps m) w2)
        as (r & w3 & -> & Hd3 & Hf3).
      destruct r as [[]|e]; eexists (ai, av), w1, (Ok m), w2, _;
        (split; [done|]); (split; [done|]); (split; [done|]);
        (split; [done|]); (split; [reflexivity|]); cbn; split; try done;
        destruct Hf3 as [->|[d ->]]; eauto.
  - exists (ai, av), w1, (Raised e), w2, w2.
    split; [done|]. split; [done|]. split; [done|]. split; [done|].
    split; [done|]. split; [done|]. by destruct dry_run.
Qed.

End Main.

(** ** Exact runs of the primitives when nothing fails *)

Lemma calm_S (n : nat) (w : world) :
  calm (S n) w = true →
  benign (default NoFault (head (faults w))) = true
  ∧ calm n (with_faults (tail (faults w)) w) = true.
Proof.
  unfold calm. cbn. destruct (faults w) as [|f fs]; cbn.
  - by rewrite take_nil.
  - by intros [? ?]%andb_prop.
Qed.

Section Exact.
Context `{Env}.

Lemma sha256_file_ok (p : string) (w : world) (data : list Byte.byte) :
  p ∉ dirs w → files w !! p = Some data →
  benign (default NoFault (head (faults w))) = true →
  sha256_file p w = (Ok (sha256 data), with_faults (tail (faults w)) w).
Proof.
  intros Hd Hp Hb. unfold sha256_file, next_fault, get_world.
  rewrite !bind_run. cbn. rewrite bool_decide_eq_false_2, Hp by done.
  by destruct (default NoFault (head (faults w))).
Qed.

End Exact.

Lemma unlink_ok (missing_ok : bool) (p : string) (w : world)
    (data : list Byte.byte) :
  p ∉ dirs w → files w !! p = Some data →
  benign (default NoFault (head (faults w))) = true →
  unlink missing_ok p w
  = (Ok tt, with_files (delete p (files w)) (with_faults (tail (faults w)) w)).
Proof.
  intros Hd Hp Hb. unfold unlink, next_fault, get_world.
  rewrite !bind_run. cbn. rewrite bool_decide_eq_false_2, Hp by done.
  by destruct (default NoFault (head (faults w))).
Qed.

(** The copy step when nothing stands in its way: it writes what the
    operating system makes of the source's bytes. *)
Lemma copy2_writes (src dst : string) (w : world) (data copy : list Byte.byte) :
  files w !! src = Some data → src ≠ dst → src ∉ dirs w → dst ∉ dirs w →
  parent_exists w dst = true →
  (default NoFault (head (faults w)) = NoFault ∧ copy = data)
  ∨ default NoFault (head (faults w)) = WritesWrong copy →
  copy2 src dst w
  = (Ok tt, with_files (<[dst := copy]> (files w))
              (with_faults (tail (faults w)) w)).
Proof.
  intros Hsrc Hne Hsd Hdd Hpar Hf.
  unfold copy2, next_fault, get_world, copy_target, write_file, modify.
  rewrite !bind_run. cbn [files dirs with_faults].
  rewrite (bool_decide_eq_false_2 (dst ∈ dirs w)) by done. cbn [negb].
  rewrite (bool_decide_eq_false_2 (src = dst)) by done.
  rewrite (bool_decide_eq_false_2 (src ∈ dirs w)) by done.
  rewrite Hsrc, (bool_decide_eq_false_2 (dst ∈ dirs w)) by done.
  replace (parent_exists (with_faults (tail (faults w)) w) dst) with true
    by (by rewrite <-Hpar).
  cbn [negb]. by destruct Hf as [[-> ->]| ->].
Qed.

Section Claims.
Context `{Env}.

(** What a hash mismatch does: the copy is removed, the source stays, the
    call reports failure and logs the two twelve-character prefixes. *)
Lemma safe_move_mismatch (src dst : string) (w w0 : world)
    (data copy : list Byte.byte) :
  copy2 src dst w = (Ok tt, w0) →
  files w0 !! src = Some data → files w0 !! dst = Some copy →
  dst ∉ dirs w →
  sha256 data ≠ sha256 copy →
  calm 3 w0 = true →
  ∃ w', safe_move src dst w = (Ok false, w')
    ∧ files w' = delete dst (files w0)
    ∧ files w' !! dst = None
    ∧ files w' !! src = Some data
    ∧ log w' = log w ++
        [(ERROR, MsgHashMismatch src dst (Str.take 12 (sha256 data))
                   (Str.take 12 (sha256 copy)))].
Proof.
  intros Hcopy Hsrc Hdst Hdd Hneq Hcalm.
  destruct (copy2_run src dst w) as (r & w0' & Hcopy' & (Hd0 & Hl0 & _) & Hc).
  rewrite Hcopy in Hcopy'. injection Hcopy' as <- <-.
  destruct Hc as (data0 & copy0 & _ & Hne & Hsd & _ & Hf0 & _).
  assert (Ht : copy_target w src dst = dst)
    by (unfold copy_target; by rewrite bool_decide_eq_false_2).
  rewrite Ht in Hne, Hf0.
  apply calm_S in Hcalm as [Hb1 Hcalm]. apply calm_S in Hcalm as [Hb2 Hcalm].
  apply calm_S in Hcalm as [Hb3 _].
  unfold safe_move, try_except, safe_move_body.
  rewrite bind_run, Hcopy, bind_run.
  rewrite (sha256_file_ok src w0 data) by (rewrite ?Hd0; done).
  rewrite bind_run.
  rewrite (sha256_file_ok dst _ copy) by (cbn; rewrite ?Hd0; done).
  destruct (String.eqb_spec (sha256 data) (sha256 copy)) as [|_]; [done|].
  unfold log_error. rewrite bind_log_run, bind_run.
  rewrite (unlink_ok true dst _ copy) by (cbn; rewrite ?Hd0; done).
  eexists. split; [reflexivity|]. cbn.
  split; [done|]. split; [by rewrite lookup_delete_eq|].
  split; [by rewrite lookup_delete_ne|]. by rewrite Hl0.
Qed.

(** A move that nothing disturbs. *)
Lemma safe_move_ok (src dst : string) (w : world) (data : list Byte.byte) :
  files w !! src = Some data → src ≠ dst → src ∉ dirs w → dst ∉ dirs w →
  parent_exists w dst = true →
  default NoFault (head (faults w)) = NoFault →
  calm 3 (with_faults (tail (faults w)) w) = true →
  ∃ w', safe_move src dst w = (Ok true, w')
    ∧ files w' = delete src (<[dst := data]> (files w))
    ∧ dirs w' = dirs w ∧ log w' = log w ∧ stop_in w' = stop_in w
    ∧ faults w' = tail (tail (tail (tail (faults w)))).
Proof.
  intros Hsrc Hne Hsd Hdd Hpar Hf Hcalm.
  apply calm_S in Hcalm as [Hb1 Hcalm]. apply calm_S in Hcalm as [Hb2 Hcalm].
  apply calm_S in Hcalm as [Hb3 _].
  unfold safe_move, try_except, safe_move_body.
  rewrite bind_run, (copy2_writes src dst w data data) by auto.
  rewrite bind_run.
  rewrite (sha256_file_ok src _ data)
    by (cbn; rewrite ?lookup_insert_ne; done).
  rewrite bind_run.
  rewrite (sha256_file_ok dst _ data)
    by (cbn; rewrite ?lookup_insert_eq; done).
  rewrite String.eqb_refl, bind_run.
  rewrite (unlink_ok false src _ data)
    by (cbn; rewrite ?lookup_insert_ne; done).
  eexists. split; [reflexivity|]. by cbn.
Qed.

(** One pair, the image moved cleanly and the copy of the video silently
    corrupted. *)
Lemma move_pair_video_mismatch (all_images all_videos : index)
    (dest_dir : string) (i total : nat) (uuid : string) (acc : tally)
    (w : world) (img_path vid_path dest_img dest_vid : string)
    (img_meta vid_meta : exif_rec) (img_data vid_data bad : list Byte.byte)
    (f2 f3 f4 f6 f7 f8 : fault) (rest : list fault) :
  all_images !! uuid = Some (img_path, img_meta) →
  all_videos !! uuid = Some (vid_path, vid_meta) →
  Str.lower (suffix img_path) ∈ IMAGE_EXTS →
  files w !! img_path = Some img_data → files w !! vid_path = Some vid_data →
  img_path ∉ dirs w → vid_path ∉ dirs w → img_path ≠ vid_path →
  safe_dest_path dest_dir (rich_base_name img_meta uuid)
    (Str.lower (suffix img_path)) w = (Ok dest_img, w) →
  safe_dest_path dest_dir (rich_base_name img_meta uuid) ".mov" w
  = (Ok dest_vid, w) →
  parent_exists w dest_img = true → parent_exists w dest_vid = true →
  faults w = NoFault :: f2 :: f3 :: f4 :: WritesWrong bad :: f6 :: f7 :: f8
             :: rest →
  benign f2 = true → benign f3 = true → benign f4 = true →
  benign f6 = true → benign f7 = true → benign f8 = true →
  sha256 vid_data ≠ sha256 bad →
  ∃ t w',
    move_pair all_images all_videos dest_dir i total uuid acc w = (Ok t, w')
    ∧ t_pairs t = t_pairs acc ++
        [{| e_uuid := uuid; e_base_name := rich_base_name img_meta uuid;
            e_image := {| source := img_path; dest := dest_img;
                          success := true |};
            e_video := {| source := vid_path; dest := dest_vid;
                          success := false |} |}]
    ∧ success_count t = success_count acc
    ∧ fail_count t = fail_count acc + 1
    ∧ files w' !! img_path = None
    ∧ files w' !! dest_img = Some img_data
    ∧ files w' !! vid_path = Some vid_data
    ∧ files w' !! dest_vid = None
    ∧ (∀ p, p ∉ [img_path; dest_img; dest_vid] →
            files w' !! p = files w !! p)
    ∧ stop_in w' = stop_in w
    ∧ log w' = log w ++
        [(INFO, MsgMovingPair (i + 1) total (rich_base_name img_meta uuid));
         (INFO, MsgImg (path_name img_path) (path_name dest_img));
         (INFO, MsgMov (path_name vid_path) (path_name dest_vid));
         (ERROR, MsgHashMismatch vid_path dest_vid
                   (Str.take 12 (sha256 vid_data))
                   (Str.take 12 (sha256 bad)));
         (ERROR, MsgVideoFailed vid_path)].
Proof.
  intros Hi Hv Hext Hidata Hvdata Hid Hvd Hne Hdi Hdv Hpi Hpv Hfl
    Hb2 Hb3 Hb4 Hb6 Hb7 Hb8 Hsha.
  set (base := rich_base_name img_meta uuid) in *.
  destruct (safe_dest_path_run dest_dir base (Str.lower (suffix img_path)) w)
    as (n & Hn & [Hnf Hnd]%path_exists_false & _).
  destruct (safe_dest_path_run dest_dir base ".mov" w)
    as (m & Hm & [Hmf Hmd]%path_exists_false & _).
  rewrite Hdi in Hn. injection Hn as Hn. rewrite Hdv in Hm. injection Hm as Hm.
  rewrite <-Hn in Hnf, Hnd. rewrite <-Hm in Hmf, Hmd.
  assert (Hdd : dest_img ≠ dest_vid).
  { rewrite Hn, Hm.
    destruct (candidate_ends_with dest_dir base
                (Str.lower (suffix img_path)) n) as [p1 ->].
    destruct (candidate_ends_with dest_dir base ".mov" m) as [p2 ->].
    by apply image_ext_not_mov. }
  assert (img_path ≠ dest_img) by congruence.
  assert (img_path ≠ dest_vid) by congruence.
  assert (vid_path ≠ dest_img) by congruence.
  assert (vid_path ≠ dest_vid) by congruence.
  unfold move_pair.
  rewrite bind_run, (getitem_run _ _ _ _ Hi).
  rewrite bind_run, (getitem_run _ _ _ _ Hv). fold base.
  rewrite bind_run, Hdi, bind_run, Hdv.
  unfold log_info. rewrite !bind_log_run.
  set (w1 := with_log _ (with_log _ (with_log _ w))).
  rewrite bind_run.
  destruct (safe_move_ok img_path dest_img w1 img_data)
    as (w2 & -> & Hf2 & Hd2 & Hl2 & Hs2 & Hfl2); try done.
  { cbn. by rewrite Hfl. }
  { unfold calm. cbn. rewrite Hfl. cbn. by rewrite Hb2, Hb3, Hb4. }
  rewrite bind_run.
  assert (Hcopy : copy2 vid_path dest_vid w2
            = (Ok tt, with_files (<[dest_vid := bad]> (files w2))
                        (with_faults (tail (faults w2)) w2))).
  { apply (copy2_writes vid_path dest_vid w2 vid_data bad); try done.
    - by rewrite Hf2, lookup_delete_ne, lookup_insert_ne.
    - by rewrite Hd2.
    - by rewrite Hd2.
    - unfold parent_exists in *. by rewrite Hd2.
    - right. rewrite Hfl2. cbn. by rewrite Hfl. }
  destruct (safe_move_mismatch vid_path dest_vid w2 _ vid_data bad Hcopy)
    as (w3 & Hrun3 & Hf3 & _ & _ & Hl3).
  { cbn. by rewrite lookup_insert_ne, Hf2, lookup_delete_ne, lookup_insert_ne. }
  { cbn. by rewrite lookup_insert_eq. }
  { by rewrite Hd2. }
  { done. }
  { unfold calm. cbn. rewrite Hfl2. cbn. rewrite Hfl. cbn.
    by rewrite Hb6, Hb7, Hb8. }
  destruct (safe_move_frame _ _ _ _ _ Hrun3) as [_ Hs3].
  rewrite Hrun3.
  cbn [andb negb]. unfold log_error. rewrite bind_run. cbn [mret M_ret].
  rewrite bind_log_run.
  eexists _, _. split; [reflexivity|]. cbn.
  split; [done|]. split; [done|]. split; [done|].
  rewrite Hf3. cbn. rewrite Hf2.
  split. { by rewrite lookup_delete_ne, lookup_insert_ne, lookup_delete_eq. }
  split. { by rewrite lookup_delete_ne, lookup_insert_ne, lookup_delete_ne,
             lookup_insert_eq. }
  split. { by rewrite lookup_delete_ne, lookup_insert_ne, lookup_delete_ne,
             lookup_insert_ne. }
  split. { by rewrite lookup_delete_eq. }
  split. { intros p Hp.
           rewrite lookup_delete_ne, lookup_insert_ne, lookup_delete_ne,
             lookup_insert_ne by set_solver. done. }
  split. { by rewrite Hs3, Hs2. }
  rewrite Hl3, Hl2. subst w1. cbn. by rewrite <-!app_assoc.
Qed.

End Claims.

(* ================================================================== *)
(** * The relocator: deletion, mismatch, exceptions *)
(* ================================================================== *)

Section RelocatorClaims.
Context `{Env}.

(** C1.  [safe_move] always returns; when it returns [False] the source is
    as it was; when it returns [True] the source held [data], the
    destination now holds a copy with the same SHA-256 digest, and only then
    is the source gone.  Over a whole run of [move_pairs], and of [main], a
    file that was there before and is gone afterwards is the source of a
    half whose [safe_move] returned [True]; a dry run removes nothing. *)
Theorem source_deleted_only_after_verification :
  (∀ src dst w, ∃ b w', safe_move src dst w = (Ok b, w')
     ∧ (b = false → files w' !! src = files w !! src)
     ∧ (b = true → ∃ data copy,
          files w !! src = Some data ∧ files w' !! dst = Some copy
          ∧ sha256 data = sha256 copy ∧ files w' !! src = None))
  ∧ (∀ all_images all_videos dest_dir dry_run w r w' p,
       move_pairs all_images all_videos dest_dir dry_run w = (r, w') →
       is_Some (files w !! p) → files w' !! p = None →
       dry_run = false ∧ ∃ m, r = Ok m ∧ moved_source p (pairs m))
  ∧ (∀ dry_run sources dest w r w' p,
       main dry_run sources dest w = (r, w') →
       is_Some (files w !! p) → files w' !! p = None →
       dry_run = false ∧ ∃ all_images all_videos w1 m w2,
         same_tree w w1
         ∧ move_pairs all_images all_videos dest false w1 = (Ok m, w2)
         ∧ moved_source p (pairs m)).
Proof.
  split; [|split].
  - intros src dst w.
    destruct (safe_move_run src dst w) as (b & w' & Hrun & _ & _ & Hcase).
    exists b, w'. split; [done|]. split.
    + intros ->. by apply (safe_move_false_source src dst).
    + intros ->. destruct Hcase as (data & copy & ? & ? & _ & _ & ? & Hf & _).
      exists data, copy. rewrite Hf.
      by rewrite lookup_delete_eq, lookup_delete_ne, lookup_insert_eq.
  - intros ai av d dry w r w' p Hrun Hp Hgone. destruct dry.
    + destruct (move_pairs_dry_run ai av d w)
        as (r0 & w1 & w2 & Hmk & Hrun' & [Hf2 _]).
      rewrite Hrun in Hrun'. injection Hrun' as -> ->.
      destruct (mkdir_p_run d w) as (r1 & w1' & Hmk' & Hf1 & _).
      rewrite Hmk in Hmk'. injection Hmk' as <- <-.
      rewrite Hf2, Hf1 in Hgone. destruct Hp as [x Hx]. congruence.
    + split; [done|].
      destruct (move_pairs_run ai av d w) as (r0 & w1 & w2 & Hmk & _ & Hcase).
      destruct r0 as [[]|e].
      * destruct Hcase as (m & Hrun' & _ & _ & _ & _ & _ & Hgone').
        rewrite Hrun in Hrun'. injection Hrun' as -> ->.
        exists m. split; [done|]. by apply Hgone'.
      * destruct Hcase as [Hrun' Hf]. rewrite Hrun in Hrun'.
        injection Hrun' as -> ->. rewrite Hf in Hgone.
        destruct Hp as [x Hx]. congruence.
  - intros dry sources dest w r w' p Hrun Hp Hgone.
    destruct (main_run dry sources dest w)
      as (all & w1 & r1 & w2 & w3 & _ & Ht1 & _ & Hmp & Hrun' & _ & Hfiles).
    rewrite Hrun in Hrun'. injection Hrun' as -> ->.
    assert (Hgone2 : files w2 !! p = None).
    { destruct dry; [by rewrite <-Hfiles|].
      destruct r1 as [m|e]; [|by rewrite <-Hfiles].
      destruct Hfiles as [Hf|[d0 Hf]]; rewrite Hf in Hgone; [done|].
      destruct (decide (manifest_path dest = p)) as [<-|Hne].
      - by rewrite lookup_insert_eq in Hgone.
      - by rewrite lookup_insert_ne in Hgone. }
    set (w1' := with_log _ w1) in Hmp.
    assert (Hp1 : is_Some (files w1' !! p)).
    { destruct Ht1 as [Hf1 _]. cbn. by rewrite Hf1. }
    destruct dry.
    + destruct (move_pairs_dry_run all.1 all.2 dest w1')
        as (r0 & wa & wb & Hmk & Hrun' & [Hfb _]).
      rewrite Hmp in Hrun'. injection Hrun' as -> ->.
      destruct (mkdir_p_run dest w1') as (ra & wa' & Hmk' & Hfa & _).
      rewrite Hmk in Hmk'. injection Hmk' as <- <-.
      rewrite Hfb, Hfa in Hgone2. destruct Hp1 as [x Hx]. congruence.
    + split; [done|].
      destruct (move_pairs_run all.1 all.2 dest w1')
        as (r0 & wa & wb & Hmk & _ & Hcase).
      destruct r0 as [[]|e].
      * destruct Hcase as (m & Hrun' & _ & _ & _ & _ & _ & Hgone').
        rewrite Hmp in Hrun'. injection Hrun' as -> ->.
        exists all.1, all.2, w1', m, wb.
        split; [by destruct Ht1|]. split; [done|]. by apply Hgone'.
      * destruct Hcase as [Hrun' Hf]. rewrite Hmp in Hrun'.
        injection Hrun' as -> ->. rewrite Hf in Hgone2.
        destruct Hp1 as [x Hx]. congruence.
Qed.

(** C10.  When the [try:] block of [safe_move] raises, the call returns
    [False] after logging the exception, and the files are exactly as the
    copy step left them: the source is untouched and nothing is removed, so
    whatever the copy wrote at the destination stays.  The destination is
    changed after the copy step only on the branch that logged a hash
    mismatch. *)
Theorem exception_leaves_destination :
  (∀ src dst w e w1 r0 w0,
     safe_move_body src dst w = (Raised e, w1) →
     copy2 src dst w = (r0, w0) →
     ∃ w', safe_move src dst w = (Ok false, w')
       ∧ log w' = log w1 ++ [(ERROR, MsgSafeMoveFailed src dst e)]
       ∧ files w' = files w0
       ∧ files w' !! src = files w !! src
       ∧ (∀ p, is_Some (files w !! p) → is_Some (files w' !! p)))
  ∧ (∀ src dst w b w' r0 w0,
       safe_move src dst w = (Ok b, w') →
       copy2 src dst w = (r0, w0) →
       files w' !! dst ≠ files w0 !! dst →
       b = false ∧ ∃ data copy, files w0 !! dst = Some copy
         ∧ files w !! src = Some data ∧ sha256 data ≠ sha256 copy
         ∧ log w' = log w ++
             [(ERROR, MsgHashMismatch src dst (Str.take 12 (sha256 data))
                        (Str.take 12 (sha256 copy)))]).
Proof.
  split.
  - intros src dst w e w1 r0 w0 Hbody Hcopy.
    destruct (safe_move_body_run src dst w)
      as (r & w1' & r0' & w0' & Hbody' & Hcopy' & _ & _ & Hcase).
    rewrite Hbody in Hbody'. injection Hbody' as <- <-.
    rewrite Hcopy in Hcopy'. injection Hcopy' as <- <-.
    destruct Hcase as [Hf10 Hcase].
    unfold safe_move, try_except. rewrite Hbody.
    eexists. split; [reflexivity|]. cbn. split; [done|]. split; [done|].
    destruct Hcase as [[Hf _]|(copy & Hne & Hf & _)]; rewrite Hf.
    + done.
    + split; [by rewrite lookup_insert_ne|].
      intros p Hp. rewrite lookup_insert. case_decide; eauto.
  - intros src dst w b w' r0 w0 Hrun Hcopy Hdiff.
    destruct (safe_move_body_run src dst w)
      as (r & w1 & r0' & w0' & Hbody & Hcopy' & _ & _ & Hcase).
    rewrite Hcopy in Hcopy'. injection Hcopy' as <- <-.
    unfold safe_move, try_except in Hrun. rewrite Hbody in Hrun.
    destruct r as [[|]|e].
    + injection Hrun as <- <-.
      destruct Hcase as (data & copy & _ & Hne & _ & _ & _ & Hf0 & Hf1 & _).
      exfalso. apply Hdiff. by rewrite Hf1, Hf0, lookup_delete_ne.
    + injection Hrun as <- <-. split; [done|].
      destruct Hcase as (data & copy & ? & _ & _ & _ & ? & Hf0 & _ & ?).
      exists data, copy. rewrite Hf0, lookup_insert_eq. done.
    + cbn in Hrun. injection Hrun as <- <-. cbn in Hdiff.
      destruct Hcase as [Hf _]. by rewrite Hf in Hdiff.
Qed.

(** C7.  When the digests of source and copy differ (and the operating
    system fails neither the two reads nor the unlink), the copy is deleted,
    the source keeps its bytes, [safe_move] returns [False] and the log gains
    the mismatch line with the two twelve-character prefixes.  The halves of
    a pair are moved by two separate calls.  When the image is copied
    faithfully and the copy of the video comes out with another digest, the
    pair's entry records the image as moved and the video as failed, the
    image is at its destination and gone from its source, the video is
    still at its source and nothing is left at its destination, every
    other file is as it was, the log has the mismatch line and the
    video-failed line, and the stop flag is untouched, so that the loop
    goes on.  Whatever makes an entry say moved/failed, the image source is
    then gone and the video source as it was.  A run that is not
    interrupted makes an entry for every matched identifier, whatever
    failed. *)
Theorem mismatch_and_independent_halves :
  (∀ src dst w w0 data copy,
     copy2 src dst w = (Ok tt, w0) →
     files w0 !! src = Some data → files w0 !! dst = Some copy →
     dst ∉ dirs w →
     sha256 data ≠ sha256 copy →
     calm 3 w0 = true →
     ∃ w', safe_move src dst w = (Ok false, w')
       ∧ files w' = delete dst (files w0)
       ∧ files w' !! dst = None
       ∧ files w' !! src = Some data
       ∧ log w' = log w ++
           [(ERROR, MsgHashMismatch src dst (Str.take 12 (sha256 data))
                      (Str.take 12 (sha256 copy)))])
  ∧ (∀ all_images all_videos dest_dir i total uuid acc w
       img_path img_meta vid_path vid_meta dest_img dest_vid
       img_data vid_data bad f2 f3 f4 f6 f7 f8 rest,
       all_images !! uuid = Some (img_path, img_meta) →
       all_videos !! uuid = Some (vid_path, vid_meta) →
       Str.lower (suffix img_path) ∈ IMAGE_EXTS →
       files w !! img_path = Some img_data →
       files w !! vid_path = Some vid_data →
       (img_path ∉ dirs w) → (vid_path ∉ dirs w) → img_path ≠ vid_path →
       safe_dest_path dest_dir (rich_base_name img_meta uuid)
         (Str.lower (suffix img_path)) w = (Ok dest_img, w) →
       safe_dest_path dest_dir (rich_base_name img_meta uuid) ".mov" w
       = (Ok dest_vid, w) →
       parent_exists w dest_img = true → parent_exists w dest_vid = true →
       faults w = NoFault :: f2 :: f3 :: f4 :: WritesWrong bad
                  :: f6 :: f7 :: f8 :: rest →
       benign f2 = true → benign f3 = true → benign f4 = true →
       benign f6 = true → benign f7 = true → benign f8 = true →
       sha256 vid_data ≠ sha256 bad →
       ∃ t w',
         move_pair all_images all_videos dest_dir i total uuid acc w
         = (Ok t, w')
         ∧ t_pairs t = t_pairs acc ++
             [{| e_uuid := uuid;
                 e_base_name := rich_base_name img_meta uuid;
                 e_image := {| source := img_path; dest := dest_img;
                               success := true |};
                 e_video := {| source := vid_path; dest := dest_vid;
                               success := false |} |}]
         ∧ success_count t = success_count acc
         ∧ fail_count t = fail_count acc + 1
         ∧ files w' !! img_path = None
         ∧ files w' !! dest_img = Some img_data
         ∧ files w' !! vid_path = Some vid_data
         ∧ files w' !! dest_vid = None
         ∧ (∀ p, p ∉ [img_path; dest_img; dest_vid] →
                 files w' !! p = files w !! p)
         ∧ stop_in w' = stop_in w
         ∧ log w' = log w ++
             [(INFO, MsgMovingPair (i + 1) total
                       (rich_base_name img_meta uuid));
              (INFO, MsgImg (path_name img_path) (path_name dest_img));
              (INFO, MsgMov (path_name vid_path) (path_name dest_vid));
              (ERROR, MsgHashMismatch vid_path dest_vid
                        (Str.take 12 (sha256 vid_data))
                        (Str.take 12 (sha256 bad)));
              (ERROR, MsgVideoFailed vid_path)])
  ∧ (∀ all_images all_videos dest_dir i total uuid acc w
       img_path img_meta vid_path vid_meta,
       all_images !! uuid = Some (img_path, img_meta) →
       all_videos !! uuid = Some (vid_path, vid_meta) →
       ∃ t w' e,
         move_pair all_images all_videos dest_dir i total uuid acc w
         = (Ok t, w')
         ∧ t_pairs t = t_pairs acc ++ [e]
         ∧ e_uuid e = uuid
         ∧ source (e_image e) = img_path ∧ source (e_video e) = vid_path
         ∧ (success (e_image e) = true → success (e_video e) = false →
            img_path ≠ vid_path → is_Some (files w !! vid_path) →
            files w' !! img_path = None
            ∧ files w' !! vid_path = files w !! vid_path))
  ∧ (∀ all_images all_videos dest_dir w m w',
       move_pairs all_images all_videos dest_dir false w = (Ok m, w') →
       stop_in w = None →
       e_uuid <$> pairs m = sorted (matched_uuids all_images all_videos)).
Proof.
  split; [|split; [|split]].
  - apply safe_move_mismatch.
  - intros. by eapply move_pair_video_mismatch.
  - intros ai av d i total uuid acc w ip im vp vm Hi Hv.
    destruct (move_pair_run ai av d i total uuid acc w ip vp im vm Hi Hv)
      as (n & m & img_ok & vid_ok & w1 & w2 & w3 & w' & t & Hrun & Hpairs
          & _ & _ & Hnfree & _ & Hmfree & _ & [Hf1 Hd1] & _ & _ & Himg & Hvid
          & [Hf3 Hd3] & _).
    eexists t, w', _. split; [done|]. split; [exact Hpairs|]. cbn.
    split; [done|]. split; [done|]. split; [done|].
    intros -> -> Hne [x Hvp].
    apply path_exists_false in Hnfree as [Hnf Hnd].
    apply path_exists_false in Hmfree as [Hmf Hmd].
    destruct (safe_move_run ip
                (candidate d (rich_base_name im uuid) (Str.lower (suffix ip)) n)
                w1) as (b1 & wa & Hrun1 & Hda & _ & Hc1).
    rewrite Himg in Hrun1; injection Hrun1 as <- <-.
    destruct Hc1 as (data & copy & Hip & Hne1 & _ & _ & _ & Hf2 & _).
    rewrite Hf1 in Hip, Hf2.
    destruct (safe_move_run vp
                (candidate d (rich_base_name im uuid) ".mov" m) w2)
      as (b2 & wb & Hrun2 & _ & _ & Hc2).
    rewrite Hvid in Hrun2; injection Hrun2 as <- <-.
    assert (Hmov : candidate d (rich_base_name im uuid) ".mov" m ≠ ip)
      by (intros Heq; rewrite Heq in Hmf; congruence).
    assert (Himgd :
      candidate d (rich_base_name im uuid) (Str.lower (suffix ip)) n ≠ vp)
      by (intros Heq; rewrite Heq in Hnf; congruence).
    assert (Hmovv : candidate d (rich_base_name im uuid) ".mov" m ≠ vp)
      by (intros Heq; rewrite Heq in Hmf; congruence).
    assert (Ht : copy_target w2 vp
                   (candidate d (rich_base_name im uuid) ".mov" m)
                 = candidate d (rich_base_name im uuid) ".mov" m)
      by (unfold copy_target; rewrite bool_decide_eq_false_2; [done|];
          by rewrite Hda, Hd1).
    rewrite Ht in Hc2. rewrite Hf3.
    destruct Hc2
      as [Hf|[(c2 & _ & Hf)|(d2 & c2 & _ & _ & _ & _ & Hf)]]; rewrite Hf, Hf2;
      split;
      repeat first [ rewrite lookup_delete_eq
                   | rewrite lookup_delete_ne by done
                   | rewrite lookup_insert_ne by done ]; done.
  - intros ai av d w m w' Hrun Hstop.
    destruct (move_pairs_run ai av d w) as (r0 & w1 & w2 & Hmk & _ & Hcase).
    destruct r0 as [[]|e].
    + destruct Hcase as (m' & Hrun' & _ & _ & Hall & _).
      rewrite Hrun in Hrun'. injection Hrun' as <- <-. by apply Hall.
    + destruct Hcase as [Hrun' _]. congruence.
Qed.

End RelocatorClaims.

(** *** Worked examples for the relocator *)

(** A clean move: the copy has the source's digest and the source is gone. *)
Example safe_move_clean :
  ∃ w', safe_move (H:=Demo.env) "/A/IMG_0001.HEIC" "/dest/a.heic" Demo.world1
        = (Ok true, w')
    ∧ files w' !! "/A/IMG_0001.HEIC" = None
    ∧ files w' !! "/dest/a.heic" = Some [Byte.x01; Byte.x10].
Proof. eexists. split; [vm_compute; reflexivity|]. by vm_compute. Qed.

Lemma source_deleted_only_after_verification_witness :
  ∃ b w', safe_move (H:=Demo.env) "/A/IMG_0001.HEIC" "/dest/a.heic" Demo.world1
          = (Ok b, w')
    ∧ (b = false →
       files w' !! "/A/IMG_0001.HEIC" = files Demo.world1 !! "/A/IMG_0001.HEIC")
    ∧ (b = true → ∃ data copy,
         files Demo.world1 !! "/A/IMG_0001.HEIC" = Some data
         ∧ files w' !! "/dest/a.heic" = Some copy
         ∧ sha256 (Env:=Demo.env) data = sha256 (Env:=Demo.env) copy
         ∧ files w' !! "/A/IMG_0001.HEIC" = None).
Proof.
  apply (proj1 (source_deleted_only_after_verification (H:=Demo.env))).
Defined.

(** The copy is silently corrupted: it is removed again, the source stays.
    In a pair whose image is moved cleanly and whose video copy is
    corrupted, the entry says moved/failed. *)
Lemma mismatch_and_independent_halves_witness :
  (∃ w', safe_move (H:=Demo.env) "/A/IMG_0001.MOV" "/dest/a.mov"
           (with_faults [WritesWrong [Byte.xff]] Demo.world1) = (Ok false, w')
     ∧ files w' !! "/dest/a.mov" = None
     ∧ files w' !! "/A/IMG_0001.MOV" = Some [Byte.x02; Byte.x20]
     ∧ log w' =
         [(ERROR, MsgHashMismatch "/A/IMG_0001.MOV" "/dest/a.mov" "812" "472")])
  ∧ (∃ t w',
       move_pair (H:=Demo.env)
         {[ Demo.uuid1 := ("/A/IMG_0001.HEIC",
                           Demo.still "/A/IMG_0001.HEIC" Demo.uuid1) ]}
         {[ Demo.uuid1 := ("/A/IMG_0001.MOV",
                           Demo.clip "/A/IMG_0001.MOV" Demo.uuid1) ]}
         "/dest" 0 1 Demo.uuid1
         {| t_pairs := []; success_count := 0; fail_count := 0 |}
         (with_faults [NoFault; NoFault; NoFault; NoFault;
                       WritesWrong [Byte.xff]; NoFault; NoFault; NoFault]
            Demo.world1)
       = (Ok t, w')
       ∧ List.map (λ e, (success (e_image e), success (e_video e)))
           (t_pairs t) = [(true, false)]
       ∧ fail_count t = 1
       ∧ files w' !! "/A/IMG_0001.HEIC" = None
       ∧ files w' !! path_join "/dest" (Demo.base1 +:+ ".heic")
         = Some [Byte.x01; Byte.x10]
       ∧ files w' !! "/A/IMG_0001.MOV" = Some [Byte.x02; Byte.x20]
       ∧ files w' !! path_join "/dest" (Demo.base1 +:+ ".mov") = None).
Proof.
  split.
  - destruct (proj1 (mismatch_and_independent_halves (H:=Demo.env))
                "/A/IMG_0001.MOV" "/dest/a.mov"
                (with_faults [WritesWrong [Byte.xff]] Demo.world1)
                (copy2 "/A/IMG_0001.MOV" "/dest/a.mov"
                   (with_faults [WritesWrong [Byte.xff]] Demo.world1)).2
                [Byte.x02; Byte.x20] [Byte.xff])
      as (w' & Hrun & _ & Hdst & Hsrc & Hlog).
    + vm_compute. reflexivity.
    + vm_compute. reflexivity.
    + vm_compute. reflexivity.
    + vm_compute. discriminate.
    + vm_compute. discriminate.
    + vm_compute. reflexivity.
    + exists w'. split; [exact Hrun|]. split; [exact Hdst|].
      split; [exact Hsrc|]. exact Hlog.
  - destruct (proj1 (proj2 (mismatch_and_independent_halves (H:=Demo.env)))
                {[ Demo.uuid1 := ("/A/IMG_0001.HEIC",
                                  Demo.still "/A/IMG_0001.HEIC" Demo.uuid1) ]}
                {[ Demo.uuid1 := ("/A/IMG_0001.MOV",
                                  Demo.clip "/A/IMG_0001.MOV" Demo.uuid1) ]}
                "/dest" 0 1 Demo.uuid1
                {| t_pairs := []; success_count := 0; fail_count := 0 |}
                (with_faults [NoFault; NoFault; NoFault; NoFault;
                              WritesWrong [Byte.xff]; NoFault; NoFault; NoFault]
                   Demo.world1)
                "/A/IMG_0001.HEIC" (Demo.still "/A/IMG_0001.HEIC" Demo.uuid1)
                "/A/IMG_0001.MOV" (Demo.clip "/A/IMG_0001.MOV" Demo.uuid1)
                (path_join "/dest" (Demo.base1 +:+ ".heic"))
                (path_join "/dest" (Demo.base1 +:+ ".mov"))
                [Byte.x01; Byte.x10] [Byte.x02; Byte.x20] [Byte.xff]
                NoFault NoFault NoFault NoFault NoFault NoFault [])
      as (t & w' & Hrun & Hpairs & _ & Hfail & Hip & Hdi & Hvp & Hdv & _).
    + vm_compute. reflexivity.
    + vm_compute. reflexivity.
    + apply (bool_decide_unpack _). vm_compute. exact I.
    + vm_compute. reflexivity.
    + vm_compute. reflexivity.
    + apply (bool_decide_unpack _). vm_compute. exact I.
    + apply (bool_decide_unpack _). vm_compute. exact I.
    + discriminate.
    + vm_compute. reflexivity.
    + vm_compute. reflexivity.
    + vm_compute. reflexivity.
    + vm_compute. reflexivity.
    + reflexivity.
    + reflexivity.
    + reflexivity.
    + reflexivity.
    + reflexivity.
    + reflexivity.
    + reflexivity.
    + vm_compute. discriminate.
    + exists t, w'. split; [exact Hrun|].
      split; [rewrite Hpairs; reflexivity|].
      split; [exact Hfail|]. split; [exact Hip|]. split; [exact Hdi|].
      split; [exact Hvp|]. exact Hdv.
Defined.

(** The copy fails half way: the call returns [False] and the partial file
    is still at the destination. *)
Lemma exception_leaves_destination_witness :
  ∃ w', safe_move (H:=Demo.env) "/A/IMG_0001.MOV" "/dest/a.mov"
          (with_faults [WritesThenFails [Byte.x02]] Demo.world1)
        = (Ok false, w')
    ∧ log w' = [(ERROR, MsgSafeMoveFailed "/A/IMG_0001.MOV" "/dest/a.mov" OSError)]
    ∧ files w' !! "/dest/a.mov" = Some [Byte.x02]
    ∧ files w' !! "/A/IMG_0001.MOV" = Some [Byte.x02; Byte.x20].
Proof.
  destruct (proj1 (exception_leaves_destination (H:=Demo.env))
              "/A/IMG_0001.MOV" "/dest/a.mov"
              (with_faults [WritesThenFails [Byte.x02]] Demo.world1)
              OSError
              (safe_move_body (H:=Demo.env) "/A/IMG_0001.MOV" "/dest/a.mov"
                 (with_faults [WritesThenFails [Byte.x02]] Demo.world1)).2
              (Raised OSError)
              (copy2 "/A/IMG_0001.MOV" "/dest/a.mov"
                 (with_faults [WritesThenFails [Byte.x02]] Demo.world1)).2)
    as (w' & Hrun & Hlog & Hfiles & Hsrc & _).
  - vm_compute. reflexivity.
  - vm_compute. reflexivity.
  - exists w'. split; [exact Hrun|]. split; [exact Hlog|].
    split; [by rewrite Hfiles|]. by rewrite Hsrc.
Defined.

(* ================================================================== *)
(** * Naming against the destination *)
(* ================================================================== *)

Lemma zfill2_small (k : nat) :
  k < 10 →
  Str.zfill 2 (Str.of_nat k) = String "0" (String (Str.digit_char k) "").
Proof.
  intros Hk. do 10 (destruct k as [|k]; [reflexivity|]). lia.
Qed.

(** C5 (as amended).  [safe_dest_path] always returns and changes nothing.
    It returns the plain name when that is free, and otherwise the name with
    the least counter from 1 on, printed with at least two digits, whose path
    does not exist: every candidate before the returned one exists, and the
    returned one does not.  The outcome for an extension depends only on which
    candidates of that extension exist.  Hence a path is never handed out
    while a file is there: a later call made while the returned path exists
    returns a different path.  With the plain [.heic] name taken and [_01]
    free, the image gets [_01]. *)
Theorem safe_dest_path_first_free (dest_dir base ext : string) (w : world) :
  ∃ n,
    safe_dest_path dest_dir base ext w
    = (Ok (candidate dest_dir base ext n), w)
    ∧ path_exists w (candidate dest_dir base ext n) = false
    ∧ (∀ j, j < n → path_exists w (candidate dest_dir base ext j) = true)
    ∧ candidate dest_dir base ext 0 = path_join dest_dir (base +:+ ext)
    ∧ (∀ k, 0 < k →
         candidate dest_dir base ext k
         = path_join dest_dir
             (base +:+ "_" +:+ Str.zfill 2 (Str.of_nat k) +:+ ext)
         ∧ (k < 10 → Str.zfill 2 (Str.of_nat k)
                     = String "0" (String (Str.digit_char k) "")))
    ∧ (∀ w2, (∀ j, path_exists w2 (candidate dest_dir base ext j)
                   = path_exists w (candidate dest_dir base ext j)) →
             safe_dest_path dest_dir base ext w2
             = (Ok (candidate dest_dir base ext n), w2))
    ∧ (∀ w2 p2 w3,
         path_exists w2 (candidate dest_dir base ext n) = true →
         safe_dest_path dest_dir base ext w2 = (Ok p2, w3) →
         p2 ≠ candidate dest_dir base ext n)
    ∧ (path_exists w (path_join dest_dir (base +:+ ext)) = true →
       path_exists w (path_join dest_dir (base +:+ "_01" +:+ ext)) = false →
       n = 1).
Proof.
  destruct (safe_dest_path_run dest_dir base ext w) as (n & Hrun & Hfree & Hmin).
  exists n. split; [done|]. split; [done|]. split; [done|]. split; [done|].
  split; [|split; [|split]].
  - intros k Hk. destruct k as [|k]; [lia|]. split; [done|].
    apply zfill2_small.
  - intros w2 Hsame.
    destruct (safe_dest_path_run dest_dir base ext w2) as (n2 & Hrun2 & Hfree2 & Hmin2).
    rewrite Hrun2. do 2 f_equal.
    destruct (Nat.lt_trichotomy n2 n) as [Hlt|[->|Hlt]]; [|done|].
    + apply Hmin in Hlt. rewrite <-Hsame in Hlt. congruence.
    + apply Hmin2 in Hlt. rewrite Hsame in Hlt. congruence.
  - intros w2 p2 w3 Hex Hrun2 ->.
    destruct (safe_dest_path_run dest_dir base ext w2) as (n2 & Hrun2' & Hfree2 & _).
    rewrite Hrun2 in Hrun2'. injection Hrun2' as Heq _.
    rewrite <-Heq in Hfree2. congruence.
  - intros H0 H1.
    destruct n as [|[|n]]; [|done|].
    + change (candidate dest_dir base ext 0)
        with (path_join dest_dir (base +:+ ext)) in Hfree. congruence.
    + specialize (Hmin 1 ltac:(lia)).
      change (candidate dest_dir base ext 1)
        with (path_join dest_dir (base +:+ "_01" +:+ ext)) in Hmin. congruence.
Qed.

(** The destination already holds the [.heic] of that base name. *)
Lemma safe_dest_path_first_free_witness :
  ∃ n, safe_dest_path "/dest" Demo.base1 ".heic" Demo.world2
       = (Ok (path_join "/dest" (Demo.base1 +:+ "_01" +:+ ".heic")), Demo.world2)
    ∧ n = 1.
Proof.
  destruct (safe_dest_path_first_free "/dest" Demo.base1 ".heic" Demo.world2)
    as (n & Hrun & _ & _ & _ & _ & _ & _ & Hone).
  assert (n = 1) as -> by (apply Hone; vm_compute; reflexivity).
  exists 1. split; [exact Hrun|reflexivity].
Defined.

(** A counter past 99 is printed with three digits. *)
Example counter_three_digits :
  candidate "/dest" "b" ".mov" 100 = "/dest/b_100.mov"
  ∧ candidate "/dest" "b" ".mov" 7 = "/dest/b_07.mov".
Proof. split; reflexivity. Qed.

(** C5, the sentence that fails.  In one run over the two folders, with the
    first image copy failed by the operating system, the images of two
    different pairs are given the same destination path: the first copy never
    stayed there, so the name was free again. *)
Lemma same_destination_twice :
  match returned (Demo.scan_and_move false
                    (with_faults [NoFault; Fails] Demo.world0)) with
  | Some m =>
      List.map (λ e, (source (e_image e), dest (e_image e), success (e_image e)))
        (pairs m)
  | None => []
  end
  = [ ("/A/IMG_0001.HEIC", path_join "/dest" (Demo.base1 +:+ ".heic"), false);
      ("/B/IMG_0004.HEIC", path_join "/dest" (Demo.base1 +:+ ".heic"), true) ].
Proof. vm_compute. reflexivity. Qed.

(** C2, evaluated where it fails.  The destination holds the [.heic] of the
    pair's base name from an earlier run, and no [.mov].  The image is moved
    to [<base>_01.heic] and the video to [<base>.mov]: both moves succeed and
    the two files of the pair no longer share a stem. *)
Theorem pair_stems_diverge :
  match returned
          (move_pairs (H:=Demo.env)
             {[ Demo.uuid1 := ("/A/IMG_0001.HEIC",
                               Demo.still "/A/IMG_0001.HEIC" Demo.uuid1) ]}
             {[ Demo.uuid1 := ("/A/IMG_0001.MOV",
                               Demo.clip "/A/IMG_0001.MOV" Demo.uuid1) ]}
             "/dest" false Demo.world2) with
  | Some m =>
      List.map (λ e, (e_base_name e,
                      (dest (e_image e), success (e_image e)),
                      (dest (e_video e), success (e_video e)),
                      (stem (dest (e_image e)), stem (dest (e_video e)))))
        (pairs m)
  | None => []
  end
  = [ (Demo.base1,
       (path_join "/dest" (Demo.base1 +:+ "_01.heic"), true),
       (path_join "/dest" (Demo.base1 +:+ ".mov"), true),
       (Demo.base1 +:+ "_01", Demo.base1)) ].
Proof. vm_compute. reflexivity. Qed.

(** Where the halves do agree: whenever both names are picked at the same
    counter, they are the same base with the two extensions. *)
Lemma pair_names_agree (dest_dir base : string) (n : nat) :
  ∃ name, candidate dest_dir base ".heic" n = path_join dest_dir (name +:+ ".heic")
    ∧ candidate dest_dir base ".mov" n = path_join dest_dir (name +:+ ".mov").
Proof.
  destruct n as [|n].
  - by exists base.
  - exists (base +:+ "_" +:+ Str.zfill 2 (Str.of_nat (S n))). cbn [candidate].
    by rewrite !str_app_assoc.
Qed.

(** C3, evaluated where it fails.  A dry run of [main] over the two folders,
    started with no destination directory: no file is written, removed or
    changed and no manifest appears, but the destination directory has been
    created. *)
Theorem dry_run_makes_destination_directory :
  let out := main (H:=Demo.env) true ["/A"; "/B"] "/dest" Demo.world0 in
  returned out = Some tt
  ∧ path_exists Demo.world0 "/dest" = false
  ∧ files out.2 = files Demo.world0
  ∧ files out.2 !! manifest_path "/dest" = None
  ∧ dirs out.2 = dirs Demo.world0 ∪ {[ "/dest" ]}
  ∧ path_exists out.2 "/dest" = true.
Proof. repeat split; vm_compute; reflexivity. Qed.

(* ================================================================== *)
(** * Classification, merge and matching *)
(* ================================================================== *)

Lemma video_ext_not_image (ext : string) :
  in_exts ext VIDEO_EXTS = true → in_exts ext IMAGE_EXTS = false.
Proof.
  unfold in_exts, VIDEO_EXTS. intros Hv%bool_decide_eq_true.
  apply list_elem_of_singleton in Hv as ->. reflexivity.
Qed.

Lemma role_of_identifier (rec : exif_rec) (r : role) (u : string) :
  role_of rec = Some (r, u) → identifier rec = Some u.
Proof.
  unfold role_of. destruct (has_source_path rec); [|done]. cbn [negb].
  destruct (identifier rec) as [u'|]; [|done].
  repeat case_match; congruence.
Qed.

Lemma role_of_no_marker (rec : exif_rec) :
  in_exts (lower_ext rec) IMAGE_EXTS = true → has_marker rec = false →
  role_of rec = None.
Proof.
  intros Hi Hm. unfold role_of. rewrite Hi, Hm. cbn [andb].
  destruct (in_exts (lower_ext rec) VIDEO_EXTS) eqn:Hv.
  - apply video_ext_not_image in Hv. congruence.
  - destruct (has_source_path rec); [|done]. by destruct (identifier rec).
Qed.

(** An identifier that no record is indexed under stays out of both indices. *)
Lemma scan_records_absent (records : list exif_rec) (images videos : index)
    (u : string) :
  (∀ rec r, rec ∈ records → role_of rec ≠ Some (r, u)) →
  images !! u = None → videos !! u = None →
  (scan_records records (images, videos)).1 !! u = None
  ∧ (scan_records records (images, videos)).2 !! u = None.
Proof.
  unfold scan_records. revert images videos.
  induction records as [|rec records IH]; intros images videos Hno Hi Hv;
    [done|].
  cbn [fold_left]. rewrite scan_record_role.
  assert (Hrest : ∀ rec' r, rec' ∈ records → role_of rec' ≠ Some (r, u))
    by (intros ? ? ?; apply Hno; by right).
  destruct (role_of rec) as [[[] u']|] eqn:Hr; [| |by apply IH].
  - apply IH; [done| |done]. rewrite insert_first_lookup, Hi.
    case_decide; [|done]. subst. by destruct (Hno rec ImageRole); [left|].
  - apply IH; [done|done|]. rewrite insert_first_lookup, Hv.
    case_decide; [|done]. subst. by destruct (Hno rec VideoRole); [left|].
Qed.

(** C6.  What [scan_folder] does with one record.  A record without a source
    path or without an identifier changes nothing.  The images-index changes
    at an identifier only for a record whose lowercase extension is an image
    extension and whose video-index marker is present; such a record is
    inserted unless the identifier is taken.  A record with the video
    extension is inserted into the videos-index, marker or not, unless the
    identifier is taken.  Every other record changes nothing: in particular
    an image with an identifier and no marker, so that an identifier seen
    only on such images is in neither index after a scan, and so neither
    matched nor an orphan. *)
Theorem scan_record_classifies (images videos : index) (rec : exif_rec) :
  let out := scan_record (images, videos) rec in
  (has_source_path rec = false ∨ identifier rec = None →
   out = (images, videos))
  ∧ (∀ u, out.1 !! u ≠ images !! u →
       has_source_path rec = true ∧ identifier rec = Some u
       ∧ in_exts (lower_ext rec) IMAGE_EXTS = true ∧ has_marker rec = true
       ∧ images !! u = None ∧ out.1 !! u = Some (path_of rec, rec))
  ∧ (∀ u, has_source_path rec = true → identifier rec = Some u →
       in_exts (lower_ext rec) IMAGE_EXTS = true → has_marker rec = true →
       out = (insert_first u (path_of rec, rec) images, videos))
  ∧ (∀ u, has_source_path rec = true → identifier rec = Some u →
       in_exts (lower_ext rec) VIDEO_EXTS = true →
       out = (images, insert_first u (path_of rec, rec) videos))
  ∧ (in_exts (lower_ext rec) IMAGE_EXTS = true → has_marker rec = false →
     out = (images, videos))
  ∧ (in_exts (lower_ext rec) IMAGE_EXTS = false →
     in_exts (lower_ext rec) VIDEO_EXTS = false →
     out = (images, videos))
  ∧ (∀ records u,
       (∀ r, r ∈ records → identifier r = Some u →
             in_exts (lower_ext r) IMAGE_EXTS = true ∧ has_marker r = false) →
       let scanned := scan_records records (∅, ∅) in
       scanned.1 !! u = None ∧ scanned.2 !! u = None
       ∧ (u ∉ matched_uuids scanned.1 scanned.2)
       ∧ (u ∉ orphan_img_uuids scanned.1 scanned.2)
       ∧ (u ∉ orphan_vid_uuids scanned.1 scanned.2)).
Proof.
  intros out. subst out. rewrite scan_record_role. unfold role_of.
  split; [|split; [|split; [|split; [|split; [|split]]]]].
  - intros [->| ->]; [done|]. by destruct (has_source_path rec).
  - intros u. destruct (has_source_path rec); cbn [negb]; [|done].
    destruct (identifier rec) as [u'|]; [|done].
    destruct (in_exts (lower_ext rec) IMAGE_EXTS); cbn [andb].
    + destruct (has_marker rec).
      * cbn [fst]. rewrite insert_first_lookup.
        destruct (images !! u) eqn:Hu; [done|].
        case_decide; [by subst|done].
      * by destruct (in_exts (lower_ext rec) VIDEO_EXTS).
    + by destruct (in_exts (lower_ext rec) VIDEO_EXTS).
  - by intros u -> -> -> ->.
  - intros u -> -> Hv. by rewrite (video_ext_not_image _ Hv), Hv.
  - intros Hi ->. rewrite Hi.
    destruct (in_exts (lower_ext rec) VIDEO_EXTS) eqn:Hv.
    + apply video_ext_not_image in Hv. congruence.
    + destruct (has_source_path rec); [|done]. by destruct (identifier rec).
  - intros -> ->. destruct (has_source_path rec); [|done].
    by destruct (identifier rec).
  - intros records u Hrec.
    assert (Hno : ∀ r ro, r ∈ records → role_of r ≠ Some (ro, u)).
    { intros r ro Hin Hro.
      destruct (Hrec r Hin (role_of_identifier _ _ _ Hro)) as [Hext Hmark].
      rewrite (role_of_no_marker r Hext Hmark) in Hro. done. }
    destruct (scan_records_absent records ∅ ∅ u Hno) as [H1 H2]; [done..|].
    split; [done|]. split; [done|].
    unfold matched_uuids, orphan_img_uuids, orphan_vid_uuids.
    apply not_elem_of_dom in H1, H2. set_solver.
Qed.

Example plain_photo_dropped :
  scan_records [Demo.plain "/A/IMG_0002.JPG" Demo.uuid2] (∅, ∅) = (∅, ∅)
  ∧ identifier (Demo.plain "/A/IMG_0002.JPG" Demo.uuid2) = Some Demo.uuid2
  ∧ role_of (Demo.clip "/A/clip.mov" Demo.uuid3) = Some (VideoRole, Demo.uuid3).
Proof. repeat split; vm_compute; reflexivity. Qed.

Section MergeClaims.
Context `{Env}.

(** C8.  First seen wins.  Within a scan, an identifier that is in an index
    keeps its record whatever is scanned later, and the first record of a
    role under an identifier is the one indexed.  Merging a scanned index into
    the global one keeps every global record and takes the scanned record only
    for an identifier the global index lacks.  So with the sources [A; B] the
    global indices hold A's record for every identifier A has, and B's only
    for the identifiers A lacks; and whatever is in the global indices before
    further sources are scanned is still there afterwards. *)
Theorem first_seen_wins :
  (∀ records images videos u x,
     (images !! u = Some x →
      (scan_records records (images, videos)).1 !! u = Some x)
     ∧ (videos !! u = Some x →
        (scan_records records (images, videos)).2 !! u = Some x))
  ∧ (∀ before rec after images videos u,
       (∀ rec', rec' ∈ before → role_of rec' ≠ Some (ImageRole, u)) →
       role_of rec = Some (ImageRole, u) → images !! u = None →
       (scan_records (before ++ rec :: after) (images, videos)).1 !! u
       = Some (path_of rec, rec))
  ∧ (∀ before rec after images videos u,
       (∀ rec', rec' ∈ before → role_of rec' ≠ Some (VideoRole, u)) →
       role_of rec = Some (VideoRole, u) → videos !! u = None →
       (scan_records (before ++ rec :: after) (images, videos)).2 !! u
       = Some (path_of rec, rec))
  ∧ (∀ all scanned u,
       (merge_into all scanned).1 !! u
       = match all !! u with
         | Some x => Some x
         | None => scanned !! u
         end)
  ∧ (∀ A B w, ∃ sa wa wa' sb wb all w',
       scan_folder A w = (Ok sa, wa)
       ∧ merge_scan A (∅, ∅) sa wa = (Ok (merge_pair (∅, ∅) sa), wa')
       ∧ scan_folder B wa' = (Ok sb, wb)
       ∧ scan_sources [A; B] (∅, ∅) w = (Ok all, w')
       ∧ ∀ u,
           all.1 !! u = match sa.1 !! u with
                        | Some x => Some x
                        | None => sb.1 !! u
                        end
           ∧ all.2 !! u = match sa.2 !! u with
                          | Some x => Some x
                          | None => sb.2 !! u
                          end)
  ∧ (∀ sources acc w all w' u x,
       scan_sources sources acc w = (Ok all, w') →
       (acc.1 !! u = Some x → all.1 !! u = Some x)
       ∧ (acc.2 !! u = Some x → all.2 !! u = Some x)).
Proof.
  split; [|split; [|split; [|split; [|split]]]].
  - intros records images videos u x.
    destruct (scan_records_keeps records images videos u) as [Hi Hv].
    split; [apply Hi|apply Hv].
  - intros before rec after images videos u Hbefore Hrole.
    apply (scan_records_first before after rec images videos ImageRole u Hrole
             Hbefore).
  - intros before rec after images videos u Hbefore Hrole.
    apply (scan_records_first before after rec images videos VideoRole u Hrole
             Hbefore).
  - apply merge_into_lookup.
  - intros A B w.
    destruct (scan_folder_run A w) as (sa & wa & HA & _).
    destruct (merge_scan_run A (∅, ∅) sa wa) as (wa' & HmA & _).
    destruct (scan_folder_run B wa') as (sb & wb & HB & _).
    destruct (merge_scan_run B (merge_pair (∅, ∅) sa) sb wb) as (wb' & HmB & _).
    exists sa, wa, wa', sb, wb, (merge_pair (merge_pair (∅, ∅) sa) sb), wb'.
    split; [done|]. split; [done|]. split; [done|]. split.
    + cbn [scan_sources]. rewrite bind_run, HA, bind_run, HmA.
      rewrite bind_run, HB, bind_run, HmB. done.
    + intros u. unfold merge_pair. cbn [fst snd].
      rewrite !merge_into_lookup, !lookup_empty. done.
  - intros sources acc w all w' u x Hrun.
    destruct (scan_sources_run sources acc w) as (all' & w'' & Hrun' & _ & _ & Hi & Hv).
    rewrite Hrun in Hrun'. injection Hrun' as <- <-.
    split; [apply Hi|apply Hv].
Qed.

(** C9.  The matcher.  The matched set is the intersection of the key sets of
    the two indices and each orphan set is one key set minus the matched set,
    which is that key set minus the other; matched and orphans partition each
    key set.  [sorted] of a set lists exactly its elements, once each, in
    [String.le] order (code point by code point, a proper prefix first), and
    is the only such list.  In a real run the manifest's pairs follow the
    sorted matched identifiers (a prefix of them when the run is interrupted)
    and the two orphan lists are the sorted orphan identifiers. *)
Theorem matching_is_set_algebra (all_images all_videos : index) :
  let matched := matched_uuids all_images all_videos in
  let orphan_img := orphan_img_uuids all_images all_videos in
  let orphan_vid := orphan_vid_uuids all_images all_videos in
  matched = dom all_images ∩ dom all_videos
  ∧ orphan_img = dom all_images ∖ matched
  ∧ orphan_vid = dom all_videos ∖ matched
  ∧ (∀ u, u ∈ orphan_img ↔ u ∈ dom all_images ∧ u ∉ dom all_videos)
  ∧ (∀ u, u ∈ orphan_vid ↔ u ∈ dom all_videos ∧ u ∉ dom all_images)
  ∧ matched ∪ orphan_img = dom all_images ∧ matched ## orphan_img
  ∧ matched ∪ orphan_vid = dom all_videos ∧ matched ## orphan_vid
  ∧ (∀ s : gset string,
       StronglySorted String.le (sorted s) ∧ NoDup (sorted s)
       ∧ (∀ u, u ∈ sorted s ↔ u ∈ s)
       ∧ (∀ l, StronglySorted String.le l → l ≡ₚ elements s → l = sorted s))
  ∧ (∀ dest_dir w m w',
       move_pairs all_images all_videos dest_dir false w = (Ok m, w') →
       (e_uuid <$> pairs m) `prefix_of` sorted matched
       ∧ (stop_in w = None → e_uuid <$> pairs m = sorted matched)
       ∧ o_uuid <$> orphan_images m = sorted orphan_img
       ∧ o_uuid <$> orphan_videos m = sorted orphan_vid
       ∧ (∀ o, o ∈ orphan_images m →
               ∃ meta, all_images !! o_uuid o = Some (o_path o, meta))
       ∧ (∀ o, o ∈ orphan_videos m →
               ∃ meta, all_videos !! o_uuid o = Some (o_path o, meta))).
Proof.
  intros matched orphan_img orphan_vid.
  subst matched orphan_img orphan_vid.
  unfold orphan_img_uuids, orphan_vid_uuids, matched_uuids.
  split; [done|]. split; [done|]. split; [done|].
  split; [set_solver|]. split; [set_solver|].
  split; [apply set_eq; intros u; destruct (decide (u ∈ dom all_videos)); set_solver|].
  split; [set_solver|].
  split; [apply set_eq; intros u; destruct (decide (u ∈ dom all_images)); set_solver|].
  split; [set_solver|].
  split.
  - intros s. split; [apply sorted_StronglySorted|]. split; [apply sorted_NoDup|].
    split; [apply sorted_elem_of|].
    intros l Hl Hperm.
    apply (StronglySorted_unique String.le); [done|apply sorted_StronglySorted|].
    unfold sorted. by rewrite (merge_sort_Permutation String.le (elements s)).
  - intros d w m w' Hrun.
    destruct (move_pairs_run all_images all_videos d w)
      as (r0 & w1 & w2 & Hmk & _ & Hcase).
    destruct r0 as [[]|e]; [|destruct Hcase as [Hrun' _]; congruence].
    destruct Hcase as (m' & Hrun' & _ & Hpre & Hall & Hoi & Hov & _).
    rewrite Hrun in Hrun'. injection Hrun' as <- <-.
    fold (matched_uuids all_images all_videos) in *.
    fold (orphan_img_uuids all_images all_videos) in *.
    fold (orphan_vid_uuids all_images all_videos) in *.
    split; [done|]. split; [done|].
    assert (Hid : ∀ idx (l : list string),
              o_uuid <$> (orphan_of idx <$> l) = l).
    { intros idx l. rewrite <-list_fmap_compose. apply list_fmap_id. }
    split; [by rewrite Hoi, Hid|]. split; [by rewrite Hov, Hid|].
    split.
    + intros o Ho. rewrite Hoi in Ho.
      apply list_elem_of_fmap in Ho as (u & -> & Hu).
      apply orphan_img_in in Hu as [[p meta] Hu]. exists meta.
      unfold orphan_of. cbn. by rewrite Hu.
    + intros o Ho. rewrite Hov in Ho.
      apply list_elem_of_fmap in Ho as (u & -> & Hu).
      apply orphan_vid_in in Hu as [[p meta] Hu]. exists meta.
      unfold orphan_of. cbn. by rewrite Hu.
Qed.

End MergeClaims.

(** Folder [/A] is scanned before [/B]: the pair is taken from [/A]. *)
Lemma first_seen_wins_witness :
  match returned (scan_sources (H:=Demo.env) ["/A"; "/B"] (∅, ∅) Demo.world0) with
  | Some all => (fst <$> all.1 !! Demo.uuid1, fst <$> all.2 !! Demo.uuid1,
                 fst <$> all.1 !! Demo.uuid4, fst <$> all.1 !! Demo.uuid2)
  | None => (None, None, None, None)
  end
  = (Some "/A/IMG_0001.HEIC", Some "/A/IMG_0001.MOV",
     Some "/B/IMG_0004.HEIC", None)
  ∧ ∀ u, (merge_into ∅ ∅).1 !! u = None.
Proof.
  split; [vm_compute; reflexivity|].
  intros u.
  rewrite (proj1 (proj2 (proj2 (proj2 (first_seen_wins (H:=Demo.env)))))).
  by rewrite lookup_empty.
Defined.

(* ================================================================== *)
(** * The base name *)
(* ================================================================== *)

(** ** Decimal numerals, continued *)

Lemma is_digit_digit_char (d : nat) :
  d < 10 → Str.is_digit (Str.digit_char d) = true.
Proof. intros Hd. do 10 (destruct d as [|d]; [reflexivity|]). lia. Qed.

Lemma all_app (p : ascii → bool) (s1 s2 : string) :
  Str.all p (s1 +:+ s2) = Str.all p s1 && Str.all p s2.
Proof.
  induction s1 as [|c s1 IH]; cbn [String.append Str.all]; [done|].
  by rewrite IH, andb_assoc.
Qed.

Lemma all_repeat (p : ascii → bool) (c : ascii) (n : nat) :
  p c = true → Str.all p (Str.repeat c n) = true.
Proof. intros Hc. induction n as [|n IH]; cbn; [done|]. by rewrite Hc, IH. Qed.

Lemma length_repeat (c : ascii) (n : nat) : String.length (Str.repeat c n) = n.
Proof. induction n as [|n IH]; cbn; [done|]. by rewrite IH. Qed.

Lemma digits_acc_all (fuel n : nat) (acc : string) :
  Str.all Str.is_digit acc = true →
  Str.all Str.is_digit (Str.digits_acc fuel n acc) = true.
Proof.
  revert n acc. induction fuel as [|f IH]; intros n acc Hacc; [done|].
  cbn [Str.digits_acc].
  assert (Hd : Str.all Str.is_digit (String (Str.digit_char (n mod 10)) acc) = true).
  { cbn [Str.all]. rewrite is_digit_digit_char, Hacc; [done|].
    apply Nat.mod_upper_bound. lia. }
  destruct (n <? 10); [done|]. by apply IH.
Qed.

Lemma digits_acc_length (fuel n k : nat) (acc : string) :
  0 < k → n < 10 ^ k → 0 < fuel →
  1 + String.length acc ≤ String.length (Str.digits_acc fuel n acc)
  ∧ String.length (Str.digits_acc fuel n acc) ≤ k + String.length acc.
Proof.
  revert n k acc. induction fuel as [|f IH]; intros n k acc Hk Hn Hf; [lia|].
  cbn [Str.digits_acc]. destruct (Nat.ltb_spec n 10) as [Hlt|Hge].
  - cbn [String.length]. lia.
  - destruct k as [|k]; [lia|].
    destruct k as [|k]; [cbn in Hn; lia|].
    destruct f as [|f].
    + cbn [Str.digits_acc String.length]. lia.
    + destruct (IH (n / 10) (S k)
                  (String (Str.digit_char (n mod 10)) acc)) as [Hlo Hhi];
        [lia| |lia|].
      * apply Nat.Div0.div_lt_upper_bound.
        replace (10 * 10 ^ S k) with (10 ^ S (S k)) by (cbn; lia). done.
      * cbn [String.length] in Hlo, Hhi. lia.
Qed.

Lemma of_nat_digits (n k : nat) :
  0 < k → n < 10 ^ k →
  Str.all Str.is_digit (Str.of_nat n) = true
  ∧ 1 ≤ String.length (Str.of_nat n) ≤ k.
Proof.
  intros Hk Hn. unfold Str.of_nat. split; [by apply digits_acc_all|].
  destruct (digits_acc_length (S n) n k "" Hk Hn) as [Hlo Hhi]; [lia|].
  cbn [String.length] in Hlo, Hhi. lia.
Qed.

(** A number below [10 ^ w], zero-filled to [w], is [w] decimal digits. *)
Lemma zfill_width (w n : nat) :
  0 < w → n < 10 ^ w → digits_of_width w (Str.zfill w (Str.of_nat n)).
Proof.
  intros Hw Hn. destruct (of_nat_digits n w Hw Hn) as [Hall Hlen].
  unfold digits_of_width, Str.zfill. split.
  - rewrite str_length_app, length_repeat. lia.
  - by rewrite all_app, all_repeat, Hall.
Qed.

(** ** The regular expression on a well-formed timestamp *)

Lemma str_app_nil_r (s : string) : s +:+ "" = s.
Proof. induction s as [|c s IH]; cbn [String.append]; [done|by rewrite IH]. Qed.

Lemma andthen_head {A B} (p : Re.pat A) (k : A → Re.pat B) (s rest : string)
    (a : A) (junk : list (A * string)) (x : B * string) :
  p s = (a, rest) :: junk → (∃ xs, k a rest = x :: xs) →
  ∃ ys, Re.andthen p k s = x :: ys.
Proof.
  intros Hp [xs Hk]. unfold Re.andthen. rewrite Hp. cbn. rewrite Hk.
  by eexists.
Qed.

Lemma re_lit (c : ascii) (rest : string) :
  Re.lit c (String c rest) = [(tt, rest)].
Proof. unfold Re.lit. by rewrite Ascii.eqb_refl. Qed.

Lemma re_Y (s rest : string) :
  digits_of_width 4 s → Re.Y (s +:+ rest) = [(Str.to_nat s, rest)].
Proof.
  intros [Hlen Hall].
  destruct s as [|a [|b [|c [|d [|e s]]]]]; try discriminate Hlen.
  cbn [Str.all] in Hall.
  apply andb_prop in Hall as [Ha Hall]. apply andb_prop in Hall as [Hb Hall].
  apply andb_prop in Hall as [Hc Hall]. apply andb_prop in Hall as [Hd _].
  unfold Re.Y, Re.d2, Re.andthen, Re.d1, Re.digit, Re.pure.
  cbn [String.append]. rewrite Ha. cbn [List.map List.concat app].
  rewrite Hb. cbn [List.map List.concat app]. rewrite Hc.
  cbn [List.map List.concat app]. rewrite Hd. cbn [List.map List.concat app].
  unfold Str.to_nat. cbn [Str.to_nat_acc]. do 2 f_equal. lia.
Qed.

Lemma re_m (v : nat) (rest : string) :
  1 ≤ v ≤ 12 →
  ∃ junk, Re.m (Str.zfill 2 (Str.of_nat v) +:+ rest) = (v, rest) :: junk.
Proof.
  intros Hv. do 13 (destruct v as [|v]; [try lia; by eexists|]). lia.
Qed.

Lemma re_d (v : nat) (rest : string) :
  1 ≤ v ≤ 31 →
  ∃ junk, Re.d (Str.zfill 2 (Str.of_nat v) +:+ rest) = (v, rest) :: junk.
Proof.
  intros Hv. do 32 (destruct v as [|v]; [try lia; by eexists|]). lia.
Qed.

Lemma re_spaces (v : nat) (rest : string) :
  v ≤ 23 →
  Re.spaces1 (" " +:+ Str.zfill 2 (Str.of_nat v) +:+ rest)
  = [(tt, Str.zfill 2 (Str.of_nat v) +:+ rest)].
Proof.
  intros Hv. do 24 (destruct v as [|v]; [reflexivity|]). lia.
Qed.

Lemma re_H (v : nat) (rest : string) :
  v ≤ 23 →
  ∃ junk, Re.H (Str.zfill 2 (Str.of_nat v) +:+ rest) = (v, rest) :: junk.
Proof.
  intros Hv. do 24 (destruct v as [|v]; [by eexists|]). lia.
Qed.

Lemma re_M (v : nat) (rest : string) :
  v ≤ 59 →
  ∃ junk, Re.M (Str.zfill 2 (Str.of_nat v) +:+ rest) = (v, rest) :: junk.
Proof.
  intros Hv. do 60 (destruct v as [|v]; [by eexists|]). lia.
Qed.

Lemma re_S (v : nat) (rest : string) :
  v ≤ 59 →
  ∃ junk, Re.S (Str.zfill 2 (Str.of_nat v) +:+ rest) = (v, rest) :: junk.
Proof.
  intros Hv. do 60 (destruct v as [|v]; [by eexists|]). lia.
Qed.

Lemma days_in_month_le (y m : nat) : days_in_month y m ≤ 31.
Proof.
  unfold days_in_month.
  do 12 (destruct m as [|m]; [try destruct (is_leap y); lia|]). lia.
Qed.

Lemma datetime_ok_bounds (t : datetime) :
  datetime_ok t = true →
  1 ≤ year t < 10 * 1000 ∧ 1 ≤ month t ≤ 12
  ∧ 1 ≤ day t ≤ days_in_month (year t) (month t)
  ∧ hour t ≤ 23 ∧ minute t ≤ 59 ∧ second t ≤ 59.
Proof.
  unfold datetime_ok. rewrite !andb_true_iff, !Nat.leb_le, Nat.ltb_lt. lia.
Qed.

(** A valid date and time, printed as exiftool prints it, is read back. *)
Lemma strptime_exif_timestamp (t : datetime) :
  datetime_ok t = true → strptime (exif_timestamp t) = Some t.
Proof.
  intros Hok.
  destruct (datetime_ok_bounds t Hok) as (Hy & Hmo & Hd & Hh & Hmi & Hs).
  pose proof (days_in_month_le (year t) (month t)) as Hdm.
  assert (Hhead : ∃ junk, Re.format_regex (exif_timestamp t) = (t, "") :: junk).
  { unfold Re.format_regex, exif_timestamp.
    rewrite <-(str_app_nil_r (Str.zfill 2 (Str.of_nat (second t)))).
    destruct (re_m (month t)
                (":" +:+ Str.zfill 2 (Str.of_nat (day t)) +:+ " " +:+
                 Str.zfill 2 (Str.of_nat (hour t)) +:+ ":" +:+
                 Str.zfill 2 (Str.of_nat (minute t)) +:+ ":" +:+
                 Str.zfill 2 (Str.of_nat (second t)) +:+ "") Hmo) as [j1 H1].
    destruct (re_d (day t)
                (" " +:+ Str.zfill 2 (Str.of_nat (hour t)) +:+ ":" +:+
                 Str.zfill 2 (Str.of_nat (minute t)) +:+ ":" +:+
                 Str.zfill 2 (Str.of_nat (second t)) +:+ "")) as [j2 H2]; [lia|].
    destruct (re_H (hour t)
                (":" +:+ Str.zfill 2 (Str.of_nat (minute t)) +:+ ":" +:+
                 Str.zfill 2 (Str.of_nat (second t)) +:+ "") Hh) as [j3 H3].
    destruct (re_M (minute t)
                (":" +:+ Str.zfill 2 (Str.of_nat (second t)) +:+ "") Hmi)
      as [j4 H4].
    destruct (re_S (second t) "" Hs) as [j5 H5].
    eapply andthen_head.
    { apply re_Y, zfill_width; [lia|]. cbn. lia. }
    eapply andthen_head; [apply re_lit|].
    eapply andthen_head; [exact H1|].
    eapply andthen_head; [apply re_lit|].
    eapply andthen_head; [exact H2|].
    eapply andthen_head; [by apply re_spaces|].
    eapply andthen_head; [exact H3|].
    eapply andthen_head; [apply re_lit|].
    eapply andthen_head; [exact H4|].
    eapply andthen_head; [apply re_lit|].
    eapply andthen_head; [exact H5|].
    unfold Re.pure. rewrite to_nat_zfill. exists []. by destruct t. }
  destruct Hhead as [junk Hhead]. unfold strptime. by rewrite Hhead, Hok.
Qed.

(* ================================================================== *)
(** * The base name *)
(* ================================================================== *)

Lemma remove_remove_strip (s : string) :
  Str.remove "," (Str.remove " " s) = strip_spaces_and_commas s.
Proof.
  induction s as [|c s IH]; [done|].
  cbn [Str.remove strip_spaces_and_commas].
  destruct (Ascii.eqb c " ") eqn:Hsp; cbn [orb]; [done|].
  cbn [Str.remove]. destruct (Ascii.eqb c ","); [done|]. by rewrite IH.
Qed.

Lemma strip_no_space_no_comma (s : string) :
  Str.mem " " (strip_spaces_and_commas s) = false
  ∧ Str.mem "," (strip_spaces_and_commas s) = false.
Proof.
  induction s as [|c s [IH1 IH2]]; [done|]. cbn [strip_spaces_and_commas].
  destruct (Ascii.eqb c " ") eqn:Hsp, (Ascii.eqb c ",") eqn:Hco;
    cbn [orb Str.mem]; rewrite ?Hsp, ?Hco; done.
Qed.

Lemma strip_whitespace_plain (s : string) :
  only_plain_spaces s = true →
  strip_whitespace_and_commas s = strip_spaces_and_commas s.
Proof.
  unfold only_plain_spaces. induction s as [|c s IH]; [done|].
  cbn [Str.all strip_whitespace_and_commas strip_spaces_and_commas].
  intros [Hc Hs]%andb_true_iff. rewrite (IH Hs).
  destruct (Ascii.eqb c " ") eqn:Hsp.
  - apply Ascii.eqb_eq in Hsp as ->. done.
  - rewrite orb_false_r in Hc. apply negb_true_iff in Hc. by rewrite Hc.
Qed.

Lemma upper_char_dash (a : ascii) :
  Ascii.eqb (Str.upper_char a) "-" = Ascii.eqb a "-".
Proof. by destruct a as [[] [] [] [] [] [] [] []]. Qed.

Lemma mem_upper_dash (s : string) : Str.mem "-" (Str.upper s) = Str.mem "-" s.
Proof.
  induction s as [|c s IH]; [done|]. unfold Str.upper in *.
  cbn [Str.map Str.mem]. by rewrite upper_char_dash, IH.
Qed.

Lemma mem_remove (c : ascii) (s : string) : Str.mem c (Str.remove c s) = false.
Proof.
  induction s as [|a s IH]; [done|]. cbn [Str.remove].
  destruct (Ascii.eqb a c) eqn:Ha; [done|]. cbn [Str.mem]. by rewrite Ha.
Qed.

Lemma mem_take (c : ascii) (n : nat) (s : string) :
  Str.mem c s = false → Str.mem c (Str.take n s) = false.
Proof.
  revert s. induction n as [|n IH]; intros [|a s]; try done.
  cbn [Str.mem Str.take]. intros [Ha Hs]%orb_false_iff. by rewrite Ha, IH.
Qed.

Lemma length_take (n : nat) (s : string) : String.length (Str.take n s) ≤ n.
Proof.
  revert s. induction n as [|n IH]; intros [|a s]; cbn; try lia.
  specialize (IH s). lia.
Qed.

Lemma length_map (f : ascii → ascii) (s : string) :
  String.length (Str.map f s) = String.length s.
Proof. induction s as [|a s IH]; cbn; [done|]. by rewrite IH. Qed.

Lemma take_remove_prefix (c : ascii) (h rest : string) :
  Str.mem c h = false →
  Str.take (String.length h) (Str.remove c (h +:+ rest)) = h.
Proof.
  induction h as [|a h IH]; cbn [Str.mem String.length String.append].
  - intros _. by destruct (Str.remove c rest).
  - intros [Ha Hh]%orb_false_iff. cbn [Str.remove]. rewrite Ha.
    cbn [Str.take]. by rewrite IH.
Qed.

Lemma strptime_ok (s : string) (t : datetime) :
  strptime s = Some t → datetime_ok t = true.
Proof.
  unfold strptime. destruct (Re.format_regex s) as [|[t' [|]] ?]; try done.
  destruct (datetime_ok t') eqn:Hok; [|done]. by intros [= <-].
Qed.

Lemma digits_acc_length_lower (fuel n k : nat) (acc : string) :
  10 ^ k ≤ n → n < fuel →
  k + 1 + String.length acc ≤ String.length (Str.digits_acc fuel n acc).
Proof.
  revert n k acc. induction fuel as [|f IH]; intros n k acc Hk Hn; [lia|].
  cbn [Str.digits_acc]. destruct (Nat.ltb_spec n 10) as [Hlt|Hge].
  - destruct k as [|k]; [cbn [String.length]; lia|].
    rewrite Nat.pow_succ_r' in Hk. pose proof (Nat.pow_nonzero 10 k). lia.
  - assert (Hdiv : n / 10 < f).
    { apply Nat.Div0.div_lt_upper_bound. lia. }
    destruct k as [|k].
    + specialize (IH (n / 10) 0 (String (Str.digit_char (n mod 10)) acc)).
      cbn [String.length Nat.pow] in IH.
      assert (1 ≤ n / 10) by (apply Nat.div_le_lower_bound; lia). lia.
    + specialize (IH (n / 10) k (String (Str.digit_char (n mod 10)) acc)).
      cbn [String.length] in IH. rewrite Nat.pow_succ_r' in Hk.
      assert (10 ^ k ≤ n / 10) by (apply Nat.div_le_lower_bound; lia). lia.
Qed.

(** A year of four digits is printed the same way filled or not. *)
Lemma zfill_four_digits (n : nat) :
  1000 ≤ n → n < 10 * 1000 → Str.zfill 4 (Str.of_nat n) = Str.of_nat n.
Proof.
  intros Hlo Hhi.
  destruct (of_nat_digits n 4) as [_ [_ Hle]]; [lia|cbn; lia|].
  assert (Hge : 4 ≤ String.length (Str.of_nat n)).
  { assert (H3 : 10 ^ 3 ≤ n) by (cbn; lia).
    pose proof (digits_acc_length_lower (S n) n 3 "" H3 (Nat.lt_succ_diag_r n))
      as Hm.
    unfold Str.of_nat. cbn [String.length] in Hm. lia. }
  unfold Str.zfill.
  by replace (4 - String.length (Str.of_nat n)) with 0 by lia.
Qed.

Section BaseName.
Context `{Env}.

Lemma strftime_year_shape (y : nat) :
  y < 10 * 1000 →
  Str.all Str.is_digit (strftime_year y) = true
  ∧ 1 ≤ String.length (strftime_year y) ≤ 4
  ∧ (strftime_pads_year = true ∨ 1000 ≤ y →
     strftime_year y = Str.zfill 4 (Str.of_nat y)
     ∧ digits_of_width 4 (strftime_year y)).
Proof.
  intros Hy. destruct (of_nat_digits y 4) as [Hd Hl]; [lia|cbn; lia|].
  destruct (zfill_width 4 y) as [Hzl Hzd]; [lia|cbn; lia|].
  unfold strftime_year. destruct strftime_pads_year.
  - split; [done|]. split; [lia|]. intros _. split; [done|by split].
  - split; [done|]. split; [done|]. intros [Hpad|Hlo]; [discriminate Hpad|].
    rewrite (zfill_four_digits y) in * by done. split; [done|by split].
Qed.

Lemma strftime_shape (t : datetime) :
  datetime_ok t = true →
  digits_of_width 2 (Str.zfill 2 (Str.of_nat (month t)))
  ∧ digits_of_width 2 (Str.zfill 2 (Str.of_nat (day t)))
  ∧ digits_of_width 2 (Str.zfill 2 (Str.of_nat (hour t)))
  ∧ digits_of_width 2 (Str.zfill 2 (Str.of_nat (minute t)))
  ∧ digits_of_width 2 (Str.zfill 2 (Str.of_nat (second t))).
Proof.
  intros Hok.
  destruct (datetime_ok_bounds t Hok) as (Hy & Hmo & Hd & Hh & Hmi & Hs).
  pose proof (days_in_month_le (year t) (month t)) as Hdm.
  repeat split; try (apply zfill_width; [lia|cbn; lia]);
    apply zfill_width; cbn; lia.
Qed.

(** C4 (as the code has it).  The base name is
    [<date>_LivePhoto_<model>_<id8>] where
    - the date part is [y-dd-dd_dddddd] with [y] a year of one to four
      digits; for a capture time that exiftool printed from a valid date
      [t] it is [t] again, the month, day, hour, minute and second filled
      with zeros to two digits and the year as the C library prints [%Y]:
      four digits for every year from 1000 on, and for an earlier year
      four digits where the library fills with zeros and the bare number
      where it does not; it is [0000-00-00_000000] when the field is
      missing, is not a string, or does not parse;
    - the model part is [str(Model)] without its SPACE characters and
      commas (other whitespace is kept), or [iPhone] when nothing is left;
      it holds no SPACE and no comma, and agrees with the specification's
      wording whenever the model holds no whitespace other than SPACE;
    - the identifier part is the upper-cased first eight characters of the
      identifier without its dashes (for ASCII characters, which is where
      [Str.upper] is [str.upper]): at most eight characters, none a dash;
    - an identifier [ABCD1234-...], capture time [2024:03:01 10:15:22] and
      model [iPhone 15 Pro] give
      [2024-03-01_101522_LivePhoto_iPhone15Pro_ABCD1234]. *)
Theorem rich_base_name_form (meta : exif_rec) (uuid : string) :
  let raw := py_str (default (JStr "") (Model meta)) in
  let stripped := strip_spaces_and_commas raw in
  rich_base_name meta uuid =
    date_str meta +:+ "_LivePhoto_" +:+ model_str meta +:+ "_" +:+
    uuid_short uuid
  ∧ (∃ y mo d h mi s,
        date_str meta = y +:+ "-" +:+ mo +:+ "-" +:+ d +:+ "_" +:+ h +:+ mi +:+ s
        ∧ Str.all Str.is_digit y = true ∧ 1 ≤ String.length y ≤ 4
        ∧ (strftime_pads_year = true → String.length y = 4)
        ∧ digits_of_width 2 mo ∧ digits_of_width 2 d
        ∧ digits_of_width 2 h ∧ digits_of_width 2 mi ∧ digits_of_width 2 s)
  ∧ (∀ t, datetime_ok t = true →
        DateTimeOriginal meta = Some (JStr (exif_timestamp t)) →
        let y := if strftime_pads_year then Str.zfill 4 (Str.of_nat (year t))
                 else Str.of_nat (year t) in
        date_str meta =
          y +:+ "-" +:+
          Str.zfill 2 (Str.of_nat (month t)) +:+ "-" +:+
          Str.zfill 2 (Str.of_nat (day t)) +:+ "_" +:+
          Str.zfill 2 (Str.of_nat (hour t)) +:+
          Str.zfill 2 (Str.of_nat (minute t)) +:+
          Str.zfill 2 (Str.of_nat (second t))
        ∧ (strftime_pads_year = true ∨ 1000 ≤ year t →
           y = Str.zfill 4 (Str.of_nat (year t)) ∧ digits_of_width 4 y))
  ∧ (DateTimeOriginal meta = None → date_str meta = "0000-00-00_000000")
  ∧ (∀ s, DateTimeOriginal meta = Some (JStr s) → strptime s = None →
        date_str meta = "0000-00-00_000000")
  ∧ (∀ v, DateTimeOriginal meta = Some v → (∀ s, v ≠ JStr s) →
        date_str meta = "0000-00-00_000000")
  ∧ model_str meta = (if Str.truthy stripped then stripped else "iPhone")
  ∧ Str.mem " " (model_str meta) = false
  ∧ Str.mem "," (model_str meta) = false
  ∧ Str.truthy (model_str meta) = true
  ∧ (only_plain_spaces raw = true → model_str meta = spec_model_str meta)
  ∧ (Str.all Str.is_ascii uuid = true → String.length (uuid_short uuid) ≤ 8)
  ∧ Str.mem "-" (uuid_short uuid) = false
  ∧ (∀ h rest, String.length h = 8 → Str.mem "-" h = false →
        Str.all Str.is_ascii h = true →
        uuid = h +:+ rest → uuid_short uuid = Str.upper h)
  ∧ (∀ rest, DateTimeOriginal meta = Some (JStr "2024:03:01 10:15:22") →
        Model meta = Some (JStr "iPhone 15 Pro") →
        uuid = "ABCD1234-" +:+ rest →
        rich_base_name meta uuid =
          "2024-03-01_101522_LivePhoto_iPhone15Pro_ABCD1234").
Proof.
  intros raw stripped.
  assert (Hmodel :
    model_str meta = (if Str.truthy stripped then stripped else "iPhone")).
  { unfold model_str. fold raw. rewrite remove_remove_strip. fold stripped.
    by destruct (Str.truthy stripped). }
  destruct (strip_no_space_no_comma raw) as [Hsp Hco]. fold stripped in Hsp, Hco.
  assert (Hprefix : ∀ h rest, String.length h = 8 → Str.mem "-" h = false →
            Str.all Str.is_ascii h = true →
            uuid = h +:+ rest → uuid_short uuid = Str.upper h).
  { intros h rest Hlen Hh _ ->. unfold uuid_short.
    by rewrite <-Hlen, take_remove_prefix. }
  split; [done|]. split.
  { unfold date_str.
    destruct (default (JStr "") (DateTimeOriginal meta)) as [s| | |];
      try (exists "0000", "00", "00", "00", "00", "00";
           repeat split; cbn; done || lia).
    destruct (strptime s) as [t|] eqn:Hs;
      [|exists "0000", "00", "00", "00", "00", "00";
        repeat split; cbn; done || lia].
    pose proof (strptime_ok s t Hs) as Hok.
    destruct (strftime_shape t Hok) as (?&?&?&?&?).
    destruct (datetime_ok_bounds t Hok) as (Hy & _).
    destruct (strftime_year_shape (year t)) as (Hyd & Hyl & Hy4); [lia|].
    eexists _, _, _, _, _, _. split; [reflexivity|].
    split; [done|]. split; [done|]. split; [|done].
    intros Hpad. destruct Hy4 as [_ [Hw _]]; [by left|done]. }
  split.
  { intros t Hok Hraw y.
    destruct (datetime_ok_bounds t Hok) as (Hy & _).
    split.
    - unfold date_str. rewrite Hraw. cbn [from_option id].
      by rewrite (strptime_exif_timestamp t Hok).
    - intros Hcase.
      destruct (strftime_year_shape (year t)) as (_ & _ & Hy4); [lia|].
      by apply Hy4. }
  split. { intros Hraw. unfold date_str. by rewrite Hraw. }
  split. { intros s Hraw Hs. unfold date_str. rewrite Hraw. cbn [from_option id].
           by rewrite Hs. }
  split. { intros v Hraw Hv. unfold date_str. rewrite Hraw. cbn [from_option id].
           destruct v as [s| | |]; [by destruct (Hv s)|done..]. }
  split; [done|]. rewrite Hmodel.
  split. { by destruct (Str.truthy stripped). }
  split. { by destruct (Str.truthy stripped). }
  split. { by destruct (Str.truthy stripped) eqn:Ht. }
  split. { intros Hplain. unfold spec_model_str. fold raw.
           rewrite (strip_whitespace_plain raw Hplain). fold stripped.
           by destruct (Str.truthy stripped). }
  split. { intros _. unfold uuid_short, Str.upper. rewrite length_map.
           apply length_take. }
  split. { unfold uuid_short. rewrite mem_upper_dash.
           apply mem_take, mem_remove. }
  split; [done|].
  intros rest Ht Hm Hu. unfold rich_base_name.
  rewrite (Hprefix "ABCD1234" (String "-" rest)) by done.
  unfold date_str, model_str. rewrite Ht, Hm. cbn [from_option id].
  assert (Hp : strptime "2024:03:01 10:15:22"
               = Some {| year := 2024; month := 3; day := 1;
                         hour := 10; minute := 15; second := 22 |})
    by (vm_compute; reflexivity).
  rewrite Hp. unfold strftime, strftime_year. cbn [year month day hour minute second].
  destruct strftime_pads_year; vm_compute; reflexivity.
Qed.

End BaseName.

(** The scenario of the naming section, read off the general statement. *)
Lemma rich_base_name_form_witness :
  rich_base_name (H:=Demo.env) (Demo.still "/A/IMG_0001.HEIC" Demo.uuid1)
    Demo.uuid1
  = Demo.base1.
Proof.
  apply (rich_base_name_form (H:=Demo.env)
           (Demo.still "/A/IMG_0001.HEIC" Demo.uuid1)
           Demo.uuid1) with (rest := "0000-4000-8000-000000000001");
    reflexivity.
Defined.

(** A TAB in the model name stays in the base name, where the
    specification's wording would take it out. *)
Lemma model_keeps_tab :
  rich_base_name (H:=Demo.env) Demo.tabbed Demo.uuid1
  = "2024-03-01_101522_LivePhoto_iPhone" +:+ String "009" "15_ABCD1234"
  ∧ spec_rich_base_name (H:=Demo.env) Demo.tabbed Demo.uuid1
  = "2024-03-01_101522_LivePhoto_iPhone15_ABCD1234".
Proof. split; vm_compute; reflexivity. Qed.

(** A year below 1000: the C library decides.  Where it prints the year as
    it is the date part has three digits before the first dash, where it
    fills with zeros it has four. *)
Example year_below_1000 :
  let meta :=
    {| SourceFile := None; ContentIdentifier := None;
       LivePhotoVideoIndex := None;
       DateTimeOriginal := Some (JStr "0999:01:01 00:00:00");
       Model := None |} in
  date_str (H:=Demo.env) meta = "999-01-01_000000"
  ∧ date_str (H:=literal_env) meta = "0999-01-01_000000".
Proof. split; vm_compute; reflexivity. Qed.

(** A no-break space between date and time is whitespace to [strptime]. *)
Example no_break_space_parses :
  strptime ("2024:03:01" +:+ String "160" "10:15:22")
  = Some {| year := 2024; month := 3; day := 1;
            hour := 10; minute := 15; second := 22 |}.
Proof. vm_compute. reflexivity. Qed.

(* ================================================================== *)
(** * Further properties: scanning *)
(* ================================================================== *)

Section ScanProperties.
Context `{Env}.

(** X1.  Scanning writes nothing.  Whatever [scan_folder] comes to, and
    whatever the scan loop of [main] over any list of sources comes to, every
    file and every directory is afterwards as it was before. *)
Theorem scanning_reads_only (folder : string) (sources : list string)
    (acc : index * index) (w : world) :
  (∀ r w', scan_folder folder w = (r, w') →
     files w' = files w ∧ dirs w' = dirs w)
  ∧ (∀ r w', scan_sources sources acc w = (r, w') →
       files w' = files w ∧ dirs w' = dirs w).
Proof.
  split.
  - intros r w' Hrun.
    destruct (scan_folder_run folder w) as (s & w1 & Hrun1 & Ht & _).
    rewrite Hrun in Hrun1. by injection Hrun1 as -> ->.
  - intros r w' Hrun.
    destruct (scan_sources_run sources acc w) as (all & w1 & Hrun1 & Ht & _).
    rewrite Hrun in Hrun1. by injection Hrun1 as -> ->.
Qed.

(** X2.  [collect_candidate_files].  A folder that does not exist gives the
    empty list and one warning.  A folder that exists gives, in the order of
    the walk and without logging, exactly the entries that are regular files
    and whose suffix, lower-cased, is one of the five media extensions;
    the world is not changed. *)
Theorem collect_candidate_files_filters (folder : string) (w : world) :
  match rglob folder with
  | None =>
      collect_candidate_files folder w
      = (Ok [], with_log (log w ++ [(WARNING, MsgNoFolder folder)]) w)
  | Some found =>
      ∃ l, collect_candidate_files folder w = (Ok l, w)
        ∧ l `sublist_of` (fst <$> found)
        ∧ (∀ p, p ∈ l ↔
             (p, true) ∈ found
             ∧ Str.lower (suffix p) ∈ [".heic"; ".jpg"; ".jpeg"; ".png"; ".mov"])
  end.
Proof.
  unfold collect_candidate_files. destruct (rglob folder) as [found|]; [|done].
  eexists. split; [reflexivity|]. split.
  - induction found as [|[p b] found IH]; [done|]. cbn [List.filter List.map].
    destruct (_ && _); cbn [List.map fmap list_fmap fst].
    + by apply sublist_skip.
    + by apply sublist_cons.
  - intros p. rewrite list_elem_of_In, in_map_iff. split.
    + intros ([p' b] & <- & [Hin Hp]%filter_In). cbn [fst snd] in *.
      apply andb_true_iff in Hp as [-> Hext]. split.
      * by apply list_elem_of_In.
      * unfold in_exts in Hext. apply bool_decide_eq_true in Hext.
        set_solver.
    + intros [Hin Hext]. exists (p, true). split; [done|].
      apply filter_In. split; [by apply list_elem_of_In|]. cbn [fst snd andb].
      unfold in_exts. apply bool_decide_eq_true. set_solver.
Qed.

End ScanProperties.

Lemma concat_slices {A} (step : nat) (l : list A) (m j : nat) :
  List.concat (List.map (λ k, take step (drop (k * step) l)) (seq j m))
  = take (m * step) (drop (j * step) l).
Proof.
  revert j. induction m as [|m IH]; intros j; [done|].
  cbn [seq List.map List.concat]. rewrite IH.
  replace (S j * step) with (j * step + step) by lia.
  rewrite <-drop_drop.
  replace (S m * step) with (step + m * step) by lia.
  by rewrite take_take_drop.
Qed.

(** X3.  The batches of [scan_folder] cut the candidate list into slices of
    500: put end to end they are the list again, none is empty, none is
    longer than 500, and there are as many as the log line announces. *)
Theorem batches_cover (candidates : list string) :
  List.concat (batches candidates) = candidates
  ∧ List.length (batches candidates)
    = (List.length candidates + EXIFTOOL_BATCH_SIZE - 1) / EXIFTOOL_BATCH_SIZE
  ∧ (∀ b, b ∈ batches candidates → 1 ≤ List.length b ≤ EXIFTOOL_BATCH_SIZE).
Proof.
  unfold batches, range_step, EXIFTOOL_BATCH_SIZE.
  set (n := List.length candidates). set (m := (n + 500 - 1) / 500).
  assert (Hm : n ≤ m * 500 ∧ (m - 1) * 500 < n ∨ (n = 0 ∧ m = 0)).
  { subst m. destruct (decide (n = 0)) as [->|Hn]; [by right|left].
    pose proof (Nat.div_mod_eq (n + 500 - 1) 500) as Hdm.
    pose proof (Nat.mod_upper_bound (n + 500 - 1) 500). lia. }
  split; [|split].
  - rewrite List.map_map, (concat_slices 500 candidates m 0).
    rewrite drop_0. apply take_ge. fold n. lia.
  - by rewrite !List.length_map, List.length_seq.
  - intros b Hb. rewrite List.map_map in Hb.
    apply list_elem_of_In, in_map_iff in Hb as (k & <- & Hk).
    apply in_seq in Hk. rewrite List.length_firstn, List.length_skipn. fold n.
    destruct Hm as [Hm|[-> ->]]; [nia|lia].
Qed.

Section ScanComposition.
Context `{Env}.

Lemma scan_batches_uninterrupted (starts : list nat) (candidates : list string)
    (acc : index * index) (w : world) :
  stop_in w = None →
  ∃ w', scan_batches starts candidates acc w
        = (Ok (scan_records
                 (List.concat
                    (List.map
                       (λ s, batch_exiftool
                               (take EXIFTOOL_BATCH_SIZE (drop s candidates)))
                       starts)) acc), w')
    ∧ stop_in w' = None.
Proof.
  revert acc w. induction starts as [|s starts IH]; intros acc w Hstop.
  - by exists w.
  - cbn [scan_batches]. rewrite bind_run. unfold read_running, log_info.
    rewrite Hstop. cbn [negb]. rewrite bind_log_run.
    match goal with |- context [scan_batches _ _ ?a ?w0] =>
      destruct (IH a w0) as (w' & -> & Hstop'); [done|] end.
    exists w'. split; [|done]. cbn [List.map List.concat].
    unfold scan_records. by rewrite fold_left_app.
Qed.

(** X4.  A scan that no signal interrupts indexes the records of all the
    batches, in order: the result of [scan_folder] is the record loop run
    over exiftool's answers for the successive slices of the candidate list,
    starting from two empty indices. *)
Theorem scan_folder_uninterrupted (folder : string) (w : world) :
  stop_in w = None →
  ∃ candidates w1 w',
    collect_candidate_files folder w = (Ok candidates, w1)
    ∧ scan_folder folder w
      = (Ok (scan_records
               (List.concat (List.map batch_exiftool (batches candidates)))
               (∅, ∅)), w')
    ∧ stop_in w' = None.
Proof.
  intros Hstop. unfold scan_folder. rewrite bind_run.
  destruct (collect_candidate_files_run folder w)
    as (l & w1 & Hc & _ & Hs1 & _).
  rewrite Hc. exists l, w1. destruct l as [|c l].
  - eexists. split; [done|]. split; [reflexivity|]. cbn. congruence.
  - unfold log_info. rewrite bind_log_run, bind_run.
    match goal with |- context [scan_batches ?s ?cs ?a ?w0] =>
      destruct (scan_batches_uninterrupted s cs a w0) as (w2 & -> & Hs2);
        [cbn; congruence|] end.
    unfold batches. rewrite List.map_map.
    destruct (scan_records _ _) as [images videos] eqn:Hrec.
    rewrite bind_log_run. eexists. split; [done|]. split; [reflexivity|].
    done.
Qed.

End ScanComposition.

(** Under exiftool's answers of the worked example, folder [/A] gives one
    image and two videos. *)
Lemma scan_folder_uninterrupted_witness :
  ∃ candidates w1 w',
    collect_candidate_files (H:=Demo.env) "/A" Demo.world0 = (Ok candidates, w1)
    ∧ scan_folder (H:=Demo.env) "/A" Demo.world0
      = (Ok (scan_records
               (List.concat
                  (List.map (batch_exiftool (Env:=Demo.env)) (batches candidates)))
               (∅, ∅)), w')
    ∧ stop_in w' = None.
Proof.
  apply (scan_folder_uninterrupted (H:=Demo.env) "/A" Demo.world0).
  reflexivity.
Defined.

Lemma scan_records_invariant (records : list exif_rec) (acc : index * index)
    (P : string → string → exif_rec → Prop) (Q : string → string → exif_rec → Prop) :
  (∀ u p rec, acc.1 !! u = Some (p, rec) → P u p rec) →
  (∀ u p rec, acc.2 !! u = Some (p, rec) → Q u p rec) →
  (∀ u rec, rec ∈ records → role_of rec = Some (ImageRole, u) →
            P u (path_of rec) rec) →
  (∀ u rec, rec ∈ records → role_of rec = Some (VideoRole, u) →
            Q u (path_of rec) rec) →
  (∀ u p rec, (scan_records records acc).1 !! u = Some (p, rec) → P u p rec)
  ∧ (∀ u p rec, (scan_records records acc).2 !! u = Some (p, rec) → Q u p rec).
Proof.
  revert acc. induction records as [|r records IH]; intros [images videos];
    cbn [fst snd]; intros HP HQ HrP HrQ; [done|].
  unfold scan_records in *. cbn [fold_left]. rewrite scan_record_role.
  apply IH.
  - intros u p rec. destruct (role_of r) as [[[] u']|] eqn:Hr; cbn [fst];
      try apply HP.
    rewrite insert_first_lookup. destruct (images !! u) as [x|] eqn:Hu.
    + intros [= ->]. by apply HP.
    + destruct (decide (u' = u)) as [->|]; [|done]. intros [= <- <-].
      apply HrP; [left|done].
  - intros u p rec. destruct (role_of r) as [[[] u']|] eqn:Hr; cbn [snd];
      try apply HQ.
    rewrite insert_first_lookup. destruct (videos !! u) as [x|] eqn:Hu.
    + intros [= ->]. by apply HQ.
    + destruct (decide (u' = u)) as [->|]; [|done]. intros [= <- <-].
      apply HrQ; [left|done].
  - intros u rec Hin. apply HrP. by right.
  - intros u rec Hin. apply HrQ. by right.
Qed.

Lemma role_of_facts (rec : exif_rec) (r : role) (u : string) :
  role_of rec = Some (r, u) →
  ContentIdentifier rec = Some u ∧ path_of rec ≠ "" ∧ u ≠ ""
  ∧ match r with
    | ImageRole =>
        in_exts (lower_ext rec) IMAGE_EXTS = true ∧ has_marker rec = true
    | VideoRole => in_exts (lower_ext rec) VIDEO_EXTS = true
    end.
Proof.
  unfold role_of, has_source_path, identifier.
  destruct (path_of rec) as [|c p] eqn:Hp; [done|]. cbn [Str.truthy negb].
  destruct (ContentIdentifier rec) as [[|c' u']|]; [done| |done].
  cbn [Str.truthy].
  destruct (in_exts (lower_ext rec) IMAGE_EXTS) eqn:Hi,
    (has_marker rec) eqn:Hm; cbn [andb];
    try (intros [= <- <-]; done);
    destruct (in_exts (lower_ext rec) VIDEO_EXTS) eqn:Hv;
    try done; intros [= <- <-]; done.
Qed.

(** The extensions under which a scan files its entries. *)
Lemma scan_index_suffixes (records : list exif_rec) :
  let scanned := scan_records records (∅, ∅) in
  (∀ u p rec, scanned.1 !! u = Some (p, rec) →
     Str.lower (suffix p) ∈ IMAGE_EXTS)
  ∧ (∀ u p rec, scanned.2 !! u = Some (p, rec) →
       Str.lower (suffix p) = ".mov").
Proof.
  apply scan_records_invariant; cbn [fst snd].
  - intros u p rec. by rewrite lookup_empty.
  - intros u p rec. by rewrite lookup_empty.
  - intros u rec _ Hr. destruct (role_of_facts rec _ _ Hr) as (_ & _ & _ & Hi & _).
    unfold in_exts, lower_ext in Hi. by apply bool_decide_eq_true in Hi.
  - intros u rec _ Hr. destruct (role_of_facts rec _ _ Hr) as (_ & _ & _ & Hv).
    unfold in_exts, lower_ext, VIDEO_EXTS in Hv.
    apply bool_decide_eq_true in Hv. set_solver.
Qed.

(** X5.  What a scan puts in its indices.  Every entry of the images index
    is one of the scanned records, filed under its own identifier with its
    own path, and that record has an image extension and the video-index
    marker; every entry of the videos index is a scanned record with the
    [.mov] extension, filed under its own identifier with its own path.  No
    entry has an empty path or an empty identifier. *)
Theorem index_entries_are_scanned_records (records : list exif_rec) :
  let scanned := scan_records records (∅, ∅) in
  (∀ u p rec, scanned.1 !! u = Some (p, rec) →
     rec ∈ records ∧ p = path_of rec ∧ ContentIdentifier rec = Some u
     ∧ p ≠ "" ∧ u ≠ ""
     ∧ Str.lower (suffix p) ∈ [".heic"; ".jpg"; ".jpeg"; ".png"]
     ∧ has_marker rec = true)
  ∧ (∀ u p rec, scanned.2 !! u = Some (p, rec) →
       rec ∈ records ∧ p = path_of rec ∧ ContentIdentifier rec = Some u
       ∧ p ≠ "" ∧ u ≠ "" ∧ Str.lower (suffix p) = ".mov").
Proof.
  apply scan_records_invariant; cbn [fst snd].
  - intros u p rec. by rewrite lookup_empty.
  - intros u p rec. by rewrite lookup_empty.
  - intros u rec Hin Hr.
    destruct (role_of_facts rec _ _ Hr) as (Hu & Hp & Hne & Hi & Hm).
    repeat split; try done. unfold in_exts, lower_ext in Hi.
    by apply bool_decide_eq_true in Hi.
  - intros u rec Hin Hr.
    destruct (role_of_facts rec _ _ Hr) as (Hu & Hp & Hne & Hv).
    repeat split; try done. unfold in_exts, lower_ext, VIDEO_EXTS in Hv.
    apply bool_decide_eq_true in Hv. set_solver.
Qed.

(* ================================================================== *)
(** * Further properties: merging and moving one file *)
(* ================================================================== *)

(** X6.  The count that [main] logs for a merge is the number of new
    identifiers.  Merging a scanned index into the global one gives the union
    of the key sets, counts exactly the scanned identifiers the global index
    did not have, grows the global index by that count, and changes nothing
    when every scanned identifier was already known. *)
Theorem merge_counts_new_identifiers (all scanned : index) :
  let out := merge_into all scanned in
  dom out.1 = dom all ∪ dom scanned
  ∧ out.2 = size (dom scanned ∖ dom all)
  ∧ size out.1 = size all + out.2
  ∧ (dom scanned ⊆ dom all → out = (all, 0)).
Proof.
  intros out.
  assert (Hinv : dom out.1 = dom all ∪ dom scanned
                 ∧ out.2 = size (dom scanned ∖ dom all)).
  { subst out. unfold merge_into.
    apply (map_fold_weak_ind
      (λ (r : index * nat) (m : index),
         dom r.1 = dom all ∪ dom m ∧ r.2 = size (dom m ∖ dom all))).
    - cbn. rewrite dom_empty_L. split; [set_solver|].
      replace (∅ ∖ dom all) with (∅ : gset string) by set_solver.
      by rewrite size_empty.
    - intros k v m [acc n] Hk [IHd IHn]. cbn [fst snd] in IHd, IHn.
      apply not_elem_of_dom in Hk. rewrite dom_insert_L.
      destruct (acc !! k) as [y|] eqn:Hacc; cbn [fst snd].
      + assert (k ∈ dom all).
        { apply elem_of_dom_2 in Hacc. rewrite IHd in Hacc. set_solver. }
        split; [set_solver|]. rewrite IHn. f_equal. set_solver.
      + assert (k ∉ dom all).
        { apply not_elem_of_dom in Hacc. rewrite IHd in Hacc. set_solver. }
        rewrite dom_insert_L. split; [set_solver|].
        replace (({[k]} ∪ dom m) ∖ dom all)
          with ({[k]} ∪ (dom m ∖ dom all)) by set_solver.
        rewrite size_union by set_solver. rewrite size_singleton. lia. }
  destruct Hinv as [Hd Hn]. split; [done|]. split; [done|].
  assert (Hsize : size out.1 = size all + out.2).
  { rewrite <-(size_dom out.1), Hd, size_union_alt, size_dom. lia. }
  split; [done|]. intros Hsub.
  assert (H1 : out.1 = all).
  { apply map_eq. intros u. subst out. rewrite merge_into_lookup.
    destruct (all !! u) eqn:Hu; [done|].
    apply not_elem_of_dom in Hu. apply not_elem_of_dom. set_solver. }
  assert (H2 : out.2 = 0).
  { rewrite Hn. replace (dom scanned ∖ dom all) with (∅ : gset string)
      by set_solver. apply size_empty. }
  destruct out as [o1 o2]. cbn in H1, H2. by subst.
Qed.

Section MoveOne.
Context `{Env}.

(** X7.  What [safe_move] refuses without touching anything.  When the
    source is not there, when source and destination are the same path, when
    the directory of the destination does not exist, or when the operating
    system fails the copy outright, [shutil.copy2] raises; the call returns
    [False] and the only traces are the one used-up call and the logged
    exception: no file and no directory has changed. *)
Theorem safe_move_refuses (src dst : string) (w : world) :
  files w !! src = None ∨ src = dst
  ∨ ((dst ∉ dirs w) ∧ parent_exists w dst = false)
  ∨ head (faults w) = Some Fails →
  ∃ e, copy2 src dst w = (Raised e, with_faults (tail (faults w)) w)
    ∧ safe_move src dst w
      = (Ok false,
         with_log (log w ++ [(ERROR, MsgSafeMoveFailed src dst e)])
           (with_faults (tail (faults w)) w)).
Proof.
  intros Hcase.
  assert (Hcopy : ∃ e, copy2 src dst w
                       = (Raised e, with_faults (tail (faults w)) w)).
  { unfold copy2, next_fault, get_world, copy_target, raise, write_file,
      parent_exists in *.
    rewrite !bind_run. cbn [files dirs with_faults] in *.
    repeat case_bool_decide; try (by exfalso); try (by eexists);
      destruct (files w !! src) eqn:Hs; try (by eexists);
      repeat case_bool_decide; try (by exfalso); try (by eexists);
      destruct Hcase as [Hs'|[->|[[Hd Hp]|Hf]]]; try done;
      try (rewrite Hp; by eexists);
      try (match goal with |- context [Str.rfind ?c ?s] =>
             destruct (Str.rfind c s) as [[|?]|] end;
           cbn [negb]; rewrite ?Hf; try case_bool_decide; cbn [negb];
           by eexists). }
  destruct Hcopy as [e Hcopy]. exists e. split; [done|].
  unfold safe_move, try_except, safe_move_body. rewrite bind_run, Hcopy.
  by unfold log_error; rewrite bind_log_run.
Qed.

(** X8.  When no other content has the digest of the source's bytes, a
    move that reports success is exact: the destination holds the bytes the
    source held, the source is gone, every other file and every directory is
    as before, and nothing was logged. *)
Theorem successful_move_is_faithful (src dst : string) (w w' : world)
    (data : list Byte.byte) :
  files w !! src = Some data →
  (∀ copy, sha256 copy = sha256 data → copy = data) →
  safe_move src dst w = (Ok true, w') →
  src ≠ dst
  ∧ files w' = delete src (<[dst := data]> (files w))
  ∧ files w' !! dst = Some data ∧ files w' !! src = None
  ∧ (∀ p, p ≠ src → p ≠ dst → files w' !! p = files w !! p)
  ∧ dirs w' = dirs w ∧ log w' = log w.
Proof.
  intros Hdata Hinj Hrun.
  destruct (safe_move_run src dst w) as (b & w1 & Hrun1 & Hd & _ & Hb).
  rewrite Hrun in Hrun1. injection Hrun1 as <- <-.
  destruct Hb as (data' & copy & Hsrc & Hne & _ & _ & Hsha & Hfiles & Hlog).
  rewrite Hdata in Hsrc. injection Hsrc as <-.
  symmetry in Hsha. apply Hinj in Hsha as ->. rewrite Hfiles.
  repeat split; try done.
  - by rewrite lookup_delete_ne, lookup_insert_eq.
  - by rewrite lookup_delete_eq.
  - intros p Hps Hpd. by rewrite lookup_delete_ne, lookup_insert_ne.
Qed.

(** What one call leaves alone, when the destination is not a directory. *)
Lemma safe_move_elsewhere (src dst : string) (w w' : world) (b : bool)
    (p : string) :
  safe_move src dst w = (Ok b, w') → dst ∉ dirs w →
  p ≠ src → p ≠ dst → files w' !! p = files w !! p.
Proof.
  intros Hrun Hdst Hps Hpd.
  destruct (safe_move_run src dst w) as (b1 & w1 & Hrun1 & _ & _ & Hb).
  rewrite Hrun in Hrun1. injection Hrun1 as <- <-.
  destruct b.
  - destruct Hb as (data & copy & _ & _ & _ & _ & _ & -> & _).
    by rewrite lookup_delete_ne, lookup_insert_ne.
  - destruct Hb as [->|[(copy & _ & ->)|(data & copy & _ & _ & _ & _ & ->)]];
      [done| |].
    + unfold copy_target. rewrite bool_decide_eq_false_2 by done.
      by rewrite lookup_insert_ne.
    + by rewrite lookup_delete_ne, lookup_insert_ne.
Qed.

End MoveOne.

Lemma safe_move_refuses_witness :
  ∃ e, copy2 "/A/none.heic" "/dest/x.heic" Demo.world1
       = (Raised e, with_faults (tail (faults Demo.world1)) Demo.world1)
    ∧ safe_move (H:=Demo.env) "/A/none.heic" "/dest/x.heic" Demo.world1
      = (Ok false,
         with_log
           (log Demo.world1
            ++ [(ERROR, MsgSafeMoveFailed "/A/none.heic" "/dest/x.heic" e)])
           (with_faults (tail (faults Demo.world1)) Demo.world1)).
Proof.
  apply (safe_move_refuses (H:=Demo.env) "/A/none.heic" "/dest/x.heic"
           Demo.world1).
  left. vm_compute. reflexivity.
Defined.

Lemma literal_digest_inj (a b : list Byte.byte) :
  sha256 (Env:=literal_env) a = sha256 (Env:=literal_env) b → a = b.
Proof.
  cbn. intros Heq. apply (f_equal String.list_byte_of_string) in Heq.
  by rewrite !String.list_byte_of_string_of_list_byte in Heq.
Qed.

Lemma successful_move_is_faithful_witness :
  let src := "/A/IMG_0001.HEIC" in
  let dst := "/dest/x.heic" in
  let data := [Byte.x01; Byte.x10] in
  let w' := (safe_move (H:=literal_env) src dst Demo.world1).2 in
  src ≠ dst
  ∧ files w' = delete src (<[dst := data]> (files Demo.world1))
  ∧ files w' !! dst = Some data ∧ files w' !! src = None
  ∧ (∀ p, p ≠ src → p ≠ dst → files w' !! p = files Demo.world1 !! p)
  ∧ dirs w' = dirs Demo.world1 ∧ log w' = log Demo.world1.
Proof.
  intros src dst data w'.
  apply (successful_move_is_faithful (H:=literal_env) src dst Demo.world1 w'
           data).
  - vm_compute. reflexivity.
  - intros copy. apply literal_digest_inj.
  - vm_compute. reflexivity.
Defined.

(* ================================================================== *)
(** * Further properties: the pair loop *)
(* ================================================================== *)

Lemma length_filter_split {A} (f : A → bool) (l : list A) :
  List.length (List.filter f l)
  + List.length (List.filter (λ x, negb (f x)) l) = List.length l.
Proof.
  induction l as [|a l IH]; [done|]. simpl.
  destruct (f a); simpl; lia.
Qed.

Section PairLoop.
Context `{Env}.

Lemma move_pair_entry (all_images all_videos : index) (dest_dir : string)
    (i total : nat) (u : string) (acc : tally) (w : world) :
  is_Some (all_images !! u) → is_Some (all_videos !! u) →
  ∃ t w' e,
    move_pair all_images all_videos dest_dir i total u acc w = (Ok t, w')
    ∧ t_pairs t = t_pairs acc ++ [e]
    ∧ well_placed all_images all_videos dest_dir e
    ∧ success_count t = success_count acc + (if both_ok e then 1 else 0)
    ∧ fail_count t = fail_count acc + (if both_ok e then 0 else 1)
    ∧ dirs w' = dirs w ∧ stop_in w' = stop_in w
    ∧ (∀ p, p ∉ [source (e_image e); dest (e_image e);
                 source (e_video e); dest (e_video e)] →
            files w' !! p = files w !! p).
Proof.
  intros [[ip im] Hi] [[vp vm] Hv].
  destruct (move_pair_run all_images all_videos dest_dir i total u acc w
              ip vp im vm Hi Hv)
    as (n & m & img_ok & vid_ok & w1 & w2 & w3 & w' & t & Hrun & Hpairs
        & Hsc & Hfc & Hnfree & _ & Hmfree & _ & [Hf1 Hd1] & _ & _
        & Himg & Hvid & [Hf3 Hd3] & _).
  destruct (move_pair_frame _ _ _ _ _ _ _ _ _ _
              (ex_intro _ _ Hi) (ex_intro _ _ Hv) Hrun) as [Hd Hs].
  exists t, w'. eexists. split; [exact Hrun|]. split; [exact Hpairs|].
  split; [by exists im, vm, n, m|]. split; [exact Hsc|]. split; [exact Hfc|].
  split; [done|]. split; [done|].
  cbn [e_image e_video source dest]. intros p Hp.
  apply path_exists_false in Hnfree as [_ Hnd].
  apply path_exists_false in Hmfree as [_ Hmd].
  destruct (safe_move_frame _ _ _ _ _ Himg) as [Hd2 _].
  rewrite Hf3, (safe_move_elsewhere _ _ _ _ _ p Hvid),
    (safe_move_elsewhere _ _ _ _ _ p Himg), Hf1; try done.
  - by rewrite Hd1.
  - set_solver.
  - set_solver.
  - by rewrite Hd2, Hd1.
  - set_solver.
  - set_solver.
Qed.

Lemma move_loop_entries (all_images all_videos : index) (dest_dir : string)
    (total : nat) (uuids : list string) (i : nat) (acc : tally) (w : world) :
  (∀ u, u ∈ uuids → is_Some (all_images !! u) ∧ is_Some (all_videos !! u)) →
  ∃ t w' es,
    move_loop all_images all_videos dest_dir i total uuids acc w = (Ok t, w')
    ∧ t_pairs t = t_pairs acc ++ es
    ∧ Forall (well_placed all_images all_videos dest_dir) es
    ∧ success_count t
      = success_count acc + List.length (List.filter both_ok es)
    ∧ fail_count t
      = fail_count acc
        + List.length (List.filter (λ e, negb (both_ok e)) es)
    ∧ (∀ p, files w' !! p ≠ files w !! p → touched p es).
Proof.
  revert i acc w. induction uuids as [|u uuids IH]; intros i acc w Hin.
  - exists acc, w, []. cbn. rewrite app_nil_r. repeat split; try done; lia.
  - cbn [move_loop]. rewrite bind_run. unfold read_running.
    destruct (Hin u) as [Hiu Hvu]; [by left|].
    assert (Hstep : ∀ w0, files w0 = files w →
      ∃ t w' es,
        (acc' ← move_pair all_images all_videos dest_dir i total u acc;
         move_loop all_images all_videos dest_dir (S i) total uuids acc') w0
        = (Ok t, w')
        ∧ t_pairs t = t_pairs acc ++ es
        ∧ Forall (well_placed all_images all_videos dest_dir) es
        ∧ success_count t
          = success_count acc + List.length (List.filter both_ok es)
        ∧ fail_count t
          = fail_count acc
            + List.length (List.filter (λ e, negb (both_ok e)) es)
        ∧ (∀ p, files w' !! p ≠ files w !! p → touched p es)).
    { intros w0 Hf0. rewrite bind_run.
      destruct (move_pair_entry all_images all_videos dest_dir i total u acc
                  w0 Hiu Hvu)
        as (t1 & w1 & e & -> & Hp1 & Hwp & Hsc1 & Hfc1 & _ & _ & Hch1).
      destruct (IH (S i) t1 w1)
        as (t & w' & es & Hrun & Hp & Hall & Hsc & Hfc & Hch).
      { intros u' Hu'. apply Hin. by right. }
      exists t, w', (e :: es). split; [done|].
      split; [by rewrite Hp, Hp1, <-app_assoc|].
      split; [by constructor|].
      split; [rewrite Hsc, Hsc1; cbn [List.filter];
              destruct (both_ok e); cbn [List.length]; lia|].
      split; [rewrite Hfc, Hfc1; cbn [List.filter];
              destruct (both_ok e); cbn [negb List.length]; lia|].
      intros p Hp0.
      destruct (decide (p ∈ [source (e_image e); dest (e_image e);
                             source (e_video e); dest (e_video e)]))
        as [Hpe|Hpe].
      - exists e. split; [by left|done].
      - destruct (Hch p) as (e' & He' & Hin').
        { by rewrite (Hch1 p Hpe), Hf0. }
        exists e'. split; [by right|done]. }
    destruct (stop_in w) as [[|k]|] eqn:Hstop.
    + exists acc. eexists _, []. unfold log_warning. cbn.
      rewrite app_nil_r. repeat split; try done; lia.
    + cbn [negb]. by apply Hstep.
    + cbn [negb]. by apply Hstep.
Qed.

Lemma move_pairs_entries (all_images all_videos : index) (dest_dir : string)
    (w : world) :
  ∃ r w', move_pairs all_images all_videos dest_dir false w = (r, w') ∧
    match r with
    | Raised e => files w' = files w
    | Ok m =>
        Forall (well_placed all_images all_videos dest_dir) (pairs m)
        ∧ (∀ p, files w' !! p ≠ files w !! p → touched p (pairs m))
        ∧ ∃ pre, log w' = pre ++
            [(INFO, MsgRule 60);
             (INFO, MsgDone
                      (List.length (List.filter both_ok (pairs m)))
                      (List.length
                         (List.filter (λ e, negb (both_ok e)) (pairs m)))
                      (size (orphan_img_uuids all_images all_videos))
                      (size (orphan_vid_uuids all_images all_videos)));
             (INFO, MsgRule 60)]
    end.
Proof.
  unfold move_pairs. rewrite bind_run.
  destruct (mkdir_p_run dest_dir w) as (r & w1 & Hmk & Hf1 & Hs1 & _).
  rewrite Hmk. destruct r as [[]|e]; [|by exists (Raised e), w1].
  unfold get_world, log_info. rewrite bind_run, !bind_log_run.
  set (w2 := with_log _ (with_log _ (with_log _ w1))).
  rewrite bind_run.
  destruct (move_loop_entries all_images all_videos dest_dir
              (size (matched_uuids all_images all_videos))
              (sorted (matched_uuids all_images all_videos)) 0
              {| t_pairs := []; success_count := 0; fail_count := 0 |} w2)
    as (t & w3 & es & -> & Hp & Hall & Hsc & Hfc & Hch).
  { apply matched_in_both. }
  rewrite bind_run.
  destruct (orphan_loop_run MsgOrphanImg all_images
              (sorted (orphan_img_uuids all_images all_videos)) [] w3)
    as (w4 & -> & [Hf4 Hd4] & _); [apply orphan_img_in|].
  rewrite bind_run.
  destruct (orphan_loop_run MsgOrphanMov all_videos
              (sorted (orphan_vid_uuids all_images all_videos)) [] w4)
    as (w5 & -> & [Hf5 Hd5] & _); [apply orphan_vid_in|].
  rewrite !bind_log_run.
  eexists (Ok _), _. split; [reflexivity|]. cbn in Hp, Hsc, Hfc. subst es.
  cbn [pairs]. split; [done|]. split.
  - intros p Hp0. apply Hch. subst w2. cbn [files with_log] in *.
    rewrite Hf5, Hf4 in Hp0. by rewrite Hf1.
  - exists (log w5). cbn [log with_log]. rewrite Hsc, Hfc.
    by rewrite <-!app_assoc.
Qed.

(** X9.  What a run of [move_pairs] can touch.  When a real run returns
    its manifest, every entry is built from the two indexed records of its
    identifier, and its two destinations are names that [safe_dest_path]
    tries for the entry's base name inside the destination directory.  A
    file whose content differs after the run (made, removed or rewritten) is
    the source or the destination of a half of some entry: nothing else is
    touched, in particular no orphan and no file outside the indices. *)
Theorem move_pairs_touches_only_pairs (all_images all_videos : index)
    (dest_dir : string) (w w' : world) (m : manifest) :
  move_pairs all_images all_videos dest_dir false w = (Ok m, w') →
  Forall (well_placed all_images all_videos dest_dir) (pairs m)
  ∧ (∀ p, files w' !! p ≠ files w !! p → touched p (pairs m)).
Proof.
  intros Hrun.
  destruct (move_pairs_entries all_images all_videos dest_dir w)
    as (r & w1 & Hrun1 & Hr).
  rewrite Hrun in Hrun1. injection Hrun1 as <- <-.
  by destruct Hr as (? & ? & _).
Qed.

(** X10.  The closing summary tells the truth.  When [move_pairs] returns,
    its last three log lines are a rule, the [DONE] line and a rule, and the
    numbers in the [DONE] line are: the entries with both halves moved, the
    entries with a failed half, and the sizes of the two orphan sets.  The
    first two add up to the number of entries. *)
Theorem done_line_counts_entries (all_images all_videos : index)
    (dest_dir : string) (w : world) :
  ∃ r w', move_pairs all_images all_videos dest_dir false w = (r, w') ∧
    ∀ m, r = Ok m →
      ∃ pre ok failed,
        log w' = pre ++
          [(INFO, MsgRule 60);
           (INFO, MsgDone ok failed
                    (size (orphan_img_uuids all_images all_videos))
                    (size (orphan_vid_uuids all_images all_videos)));
           (INFO, MsgRule 60)]
        ∧ ok = List.length (List.filter both_ok (pairs m))
        ∧ failed
          = List.length (List.filter (λ e, negb (both_ok e)) (pairs m))
        ∧ ok + failed = List.length (pairs m).
Proof.
  destruct (move_pairs_entries all_images all_videos dest_dir w)
    as (r & w' & Hrun & Hr).
  exists r, w'. split; [done|]. intros m ->.
  destruct Hr as (_ & _ & pre & Hlog).
  eexists pre, _, _. split; [exact Hlog|]. split; [done|]. split; [done|].
  apply length_filter_split.
Qed.

End PairLoop.

Lemma move_pairs_touches_only_pairs_witness :
  let all_images : index :=
    {[ Demo.uuid1 := ("/A/IMG_0001.HEIC",
                      Demo.still "/A/IMG_0001.HEIC" Demo.uuid1) ]} in
  let all_videos : index :=
    {[ Demo.uuid1 := ("/A/IMG_0001.MOV",
                      Demo.clip "/A/IMG_0001.MOV" Demo.uuid1) ]} in
  let out :=
    move_pairs (H:=Demo.env) all_images all_videos "/dest" false Demo.world1 in
  ∃ m, out.1 = Ok m
    ∧ Forall (well_placed (H:=Demo.env) all_images all_videos "/dest")
        (pairs m)
    ∧ (∀ p, files out.2 !! p ≠ files Demo.world1 !! p → touched p (pairs m)).
Proof.
  intros all_images all_videos out.
  assert (Hok : ∃ m, out.1 = Ok m) by (vm_compute; eexists; reflexivity).
  destruct Hok as [m Hm]. exists m. split; [exact Hm|].
  apply (move_pairs_touches_only_pairs (H:=Demo.env) all_images all_videos
           "/dest" Demo.world1 out.2 m).
  rewrite <-Hm. apply surjective_pairing.
Defined.

(* ================================================================== *)
(** * Further properties: whole runs *)
(* ================================================================== *)

Section WholeRuns.
Context `{Env}.

(** X11.  A dry run, in general.  Whatever the indices, a dry run of
    [move_pairs] changes no file, and the manifest it returns lists no pair
    and no orphan although they were reported in the log.  A dry run of
    [main] from any starting state changes no file either; the only thing
    it can add to the tree is directories, and among them only the
    destination and its ancestors. *)
Theorem dry_run_changes_no_file :
  (∀ all_images all_videos dest_dir w,
     ∃ r w', move_pairs all_images all_videos dest_dir true w = (r, w')
       ∧ files w' = files w
       ∧ ∀ m, r = Ok m →
           pairs m = [] ∧ orphan_images m = [] ∧ orphan_videos m = []
           ∧ m_dest_dir m = dest_dir ∧ generated m = clock w)
  ∧ (∀ sources dest w,
       ∃ r w', main true sources dest w = (r, w')
         ∧ files w' = files w
         ∧ dirs w ⊆ dirs w'
         ∧ dirs w' ⊆ dirs w ∪ list_to_set (parents dest) ∪ {[dest]}).
Proof.
  split.
  - intros ai av dest_dir w.
    destruct (move_pairs_dry_run ai av dest_dir w)
      as (r & w1 & w' & Hmk & Hrun & [Hf Hd]).
    destruct (mkdir_p_run dest_dir w) as (r1 & w1' & Hmk' & Hf1 & _).
    rewrite Hmk in Hmk'. injection Hmk' as <- <-.
    eexists _, w'. split; [exact Hrun|]. split; [congruence|].
    intros m Hm. destruct r as [[]|e]; [|done]. by injection Hm as <-.
  - intros sources dest w.
    destruct (main_run true sources dest w)
      as (all & w1 & r & w2 & w' & _ & [Hf1 Hd1] & _ & Hmp & Hmain & Hd & Hf).
    set (w1' := with_log _ w1) in Hmp.
    destruct (move_pairs_dry_run all.1 all.2 dest w1')
      as (r0 & wa & wb & Hmk & Hrun & [Hfb Hdb]).
    rewrite Hmp in Hrun. injection Hrun as -> ->.
    destruct (mkdir_p_run dest w1')
      as (r1 & wa' & Hmk' & Hfa & _ & _ & _ & Hda).
    rewrite Hmk in Hmk'. injection Hmk' as <- <-.
    eexists _, w'. split; [exact Hmain|].
    assert (Hfiles : files w' = files w).
    { rewrite Hf, Hfb, Hfa. subst w1'. cbn. done. }
    assert (Hdirs : dirs w1' = dirs w) by (subst w1'; cbn; done).
    split; [done|]. rewrite Hd, Hdb.
    destruct r0 as [[]|e0]; [rewrite Hda, Hdirs|rewrite <-Hdirs];
      split; set_solver.
Qed.

(** X12.  What [main] adds to [move_pairs].  Take a run of [main] whose
    scan returned the indices and whose [move_pairs] came to some outcome.
    Then [main] leaves the directories as [move_pairs] left them and every
    file other than the manifest as [move_pairs] left it; a dry run, and a
    run whose [move_pairs] raised, change no file at all after it.  In a
    real run the files are then those the attempt to write the manifest
    leaves, and the attempt is logged whichever way it goes: as written
    when the write went through, as failed, with the exception, when it
    raised. *)
Theorem main_writes_at_most_the_manifest (dry_run : bool)
    (sources : list string) (dest : string) (w w1 wm w' : world)
    (all : index * index) (r : result manifest) (r' : result unit) :
  scan_sources sources (∅, ∅) w = (Ok all, w1) →
  move_pairs all.1 all.2 dest dry_run
    (with_log (log w1 ++ [(INFO, MsgGrandTotal (size all.1) (size all.2))])
       w1) = (r, wm) →
  main dry_run sources dest w = (r', w') →
  dirs w' = dirs wm
  ∧ (∀ p, p ≠ manifest_path dest → files w' !! p = files wm !! p)
  ∧ (dry_run = true → files w' = files wm)
  ∧ (∀ e, r = Raised e → files w' = files wm)
  ∧ (∀ m r3 w3, dry_run = false → r = Ok m →
       open_write (manifest_path dest) (json_dumps m) wm = (r3, w3) →
       files w' = files w3
       ∧ match r3 with
         | Ok _ => (INFO, MsgManifestWritten (manifest_path dest)) ∈ log w'
         | Raised e => (ERROR, MsgManifestFailed e) ∈ log w'
         end).
Proof.
  intros Hscan Hmp Hmain. revert Hmain. unfold main.
  rewrite bind_run, Hscan. destruct all as [ai av]. cbn [fst snd] in *.
  unfold log_info. rewrite bind_log_run, bind_run, Hmp.
  destruct r as [m|e].
  - destruct dry_run; cbn [negb].
    + intros [= <- <-]. repeat split; try done.
    + unfold try_except. rewrite bind_run.
      destruct (open_write_run (manifest_path dest) (json_dumps m) wm)
        as (r3 & w3 & Hw & Hd3 & Hf3).
      rewrite Hw. destruct r3 as [[]|e3].
      * unfold log_at, modify. cbv beta iota. intros [= <- <-].
        cbn [dirs files with_log log].
        split; [done|]. split.
        { intros p Hp. destruct Hf3 as [->|[d ->]]; [done|].
          by rewrite lookup_insert_ne. }
        split; [done|]. split; [done|].
        intros m' r3' w3' _ [= <-]. rewrite Hw. intros [= <- <-].
        split; [done|]. apply elem_of_app. right. by apply list_elem_of_singleton.
      * unfold log_error, log_at, modify. cbv beta iota. intros [= <- <-].
        cbn [dirs files with_log log].
        split; [done|]. split.
        { intros p Hp. destruct Hf3 as [->|[d ->]]; [done|].
          by rewrite lookup_insert_ne. }
        split; [done|]. split; [done|].
        intros m' r3' w3' _ [= <-]. rewrite Hw. intros [= <- <-].
        split; [done|]. apply elem_of_app. right. by apply list_elem_of_singleton.
  - intros [= <- <-]. repeat split; try done.
Qed.

Lemma move_loop_stopped (all_images all_videos : index) (dest_dir : string)
    (i total : nat) (uuids : list string) (acc : tally) (w : world) :
  stop_in w = Some 0 →
  ∃ w', move_loop all_images all_videos dest_dir i total uuids acc w
        = (Ok acc, w')
    ∧ files w' = files w ∧ dirs w' = dirs w.
Proof.
  intros Hstop. destruct uuids as [|u uuids]; [by exists w|].
  cbn [move_loop]. rewrite bind_run. unfold read_running. rewrite Hstop.
  cbn [negb]. unfold log_warning. rewrite bind_log_run. by eexists.
Qed.

(** X13.  A run that starts after the stop signal.  With [_running] already
    false, [scan_folder] returns two empty indices without asking exiftool
    about any batch, and [move_pairs] moves nothing: no file changes and the
    manifest has no pair, while the orphans of the indices it was given are
    still listed. *)
Theorem stopped_run_moves_nothing :
  (∀ folder w, stop_in w = Some 0 →
     ∃ w', scan_folder folder w = (Ok (∅, ∅), w') ∧ stop_in w' = Some 0)
  ∧ (∀ all_images all_videos dest_dir w, stop_in w = Some 0 →
       ∃ r w', move_pairs all_images all_videos dest_dir false w = (r, w')
         ∧ files w' = files w
         ∧ ∀ m, r = Ok m →
             pairs m = []
             ∧ orphan_images m
               = orphan_of all_images
                   <$> sorted (orphan_img_uuids all_images all_videos)
             ∧ orphan_videos m
               = orphan_of all_videos
                   <$> sorted (orphan_vid_uuids all_images all_videos)).
Proof.
  split.
  - intros folder w Hstop. unfold scan_folder. rewrite bind_run.
    destruct (collect_candidate_files_run folder w)
      as (l & w1 & -> & _ & Hs1 & _).
    destruct l as [|c l].
    + unfold log_info. rewrite bind_log_run. eexists. split; [done|].
      cbn. congruence.
    + unfold log_info. rewrite bind_log_run, bind_run.
      match goal with |- context [scan_batches ?s ?cs ?a ?w0] =>
        assert (Hb : ∃ w2, scan_batches s cs a w0 = (Ok a, w2)
                           ∧ stop_in w2 = Some 0) end.
      { destruct (range_step _ _) as [|s starts].
        - eexists. split; [done|]. cbn. congruence.
        - cbn [scan_batches]. rewrite bind_run. unfold read_running.
          cbn [stop_in with_log]. rewrite Hs1, Hstop. cbn [negb].
          unfold log_warning. rewrite bind_log_run. eexists.
          split; [done|]. cbn. congruence. }
      destruct Hb as (w2 & -> & Hs2). rewrite bind_log_run.
      eexists. split; [done|]. done.
  - intros ai av dest_dir w Hstop. unfold move_pairs. rewrite bind_run.
    destruct (mkdir_p_run dest_dir w) as (r & w1 & Hmk & Hf1 & Hs1 & _).
    rewrite Hmk. destruct r as [[]|e]; [|by eexists _, _].
    unfold get_world, log_info. rewrite bind_run, !bind_log_run.
    set (w2 := with_log _ (with_log _ (with_log _ w1))).
    rewrite bind_run.
    destruct (move_loop_stopped ai av dest_dir 0 (size (matched_uuids ai av))
                (sorted (matched_uuids ai av))
                {| t_pairs := []; success_count := 0; fail_count := 0 |} w2)
      as (w3 & -> & Hf3 & _).
    { subst w2. cbn. congruence. }
    rewrite bind_run.
    destruct (orphan_loop_run MsgOrphanImg ai
                (sorted (orphan_img_uuids ai av)) [] w3)
      as (w4 & -> & [Hf4 Hd4] & _); [apply orphan_img_in|].
    rewrite bind_run.
    destruct (orphan_loop_run MsgOrphanMov av
                (sorted (orphan_vid_uuids ai av)) [] w4)
      as (w5 & -> & [Hf5 Hd5] & _); [apply orphan_vid_in|].
    rewrite !bind_log_run. eexists _, _. split; [reflexivity|].
    split. { cbn. rewrite Hf5, Hf4, Hf3. subst w2. cbn. done. }
    intros m [= <-]. done.
Qed.

End WholeRuns.

Lemma main_writes_at_most_the_manifest_witness :
  let scan := scan_sources (H:=Demo.env) ["/A"; "/B"] (∅, ∅) Demo.world0 in
  let all := default (∅, ∅) (returned scan) in
  let moved :=
    move_pairs (H:=Demo.env) all.1 all.2 "/dest" false
      (with_log
         (log scan.2 ++ [(INFO, MsgGrandTotal (size all.1) (size all.2))])
         scan.2) in
  let out := main (H:=Demo.env) false ["/A"; "/B"] "/dest" Demo.world0 in
  dirs out.2 = dirs moved.2
  ∧ (∀ p, p ≠ manifest_path "/dest" →
          files out.2 !! p = files moved.2 !! p)
  ∧ (false = true → files out.2 = files moved.2)
  ∧ (∀ e, moved.1 = Raised e → files out.2 = files moved.2)
  ∧ (∀ m r3 w3, false = false → moved.1 = Ok m →
       open_write (manifest_path "/dest") (json_dumps (Env:=Demo.env) m)
         moved.2 = (r3, w3) →
       files out.2 = files w3
       ∧ match r3 with
         | Ok _ =>
             (INFO, MsgManifestWritten (manifest_path "/dest")) ∈ log out.2
         | Raised e => (ERROR, MsgManifestFailed e) ∈ log out.2
         end).
Proof.
  intros scan all moved out.
  apply (main_writes_at_most_the_manifest (H:=Demo.env) false ["/A"; "/B"]
           "/dest" Demo.world0 scan.2 moved.2 out.2 all moved.1 out.1).
  - vm_compute. reflexivity.
  - apply surjective_pairing.
  - apply surjective_pairing.
Defined.

(** X14.  The worked example, end to end.  Folder [/A] holds a Live Photo
    pair, a plain photo that carries an identifier but no marker, a lone
    clip and a text file; folder [/B] holds a second copy of the pair and
    another pair whose base name comes out the same.  A real run returns
    normally; it moves the pair of [/A] under the base name and the other
    pair under the base name with [_01]; the copies in [/B] of the pair
    already seen, the plain photo, the lone clip and the text file stay
    where they are; the moved files keep their bytes; the lone clip is the
    one orphan; and the manifest is written. *)
Theorem worked_example_end_to_end :
  let out := main (H:=Demo.env) false ["/A"; "/B"] "/dest" Demo.world0 in
  returned out = Some tt
  ∧ sorted (dom (files out.2))
    = [ "/A/IMG_0002.JPG"; "/A/clip.mov"; "/A/notes.txt";
        "/B/IMG_0001.HEIC"; "/B/IMG_0001.MOV";
        "/dest/" +:+ Demo.base1 +:+ ".heic";
        "/dest/" +:+ Demo.base1 +:+ ".mov";
        "/dest/" +:+ Demo.base1 +:+ "_01.heic";
        "/dest/" +:+ Demo.base1 +:+ "_01.mov";
        "/dest/live_photo_manifest.json" ]
  ∧ files out.2 !! ("/dest/" +:+ Demo.base1 +:+ ".heic")
    = Demo.tree !! "/A/IMG_0001.HEIC"
  ∧ files out.2 !! ("/dest/" +:+ Demo.base1 +:+ ".mov")
    = Demo.tree !! "/A/IMG_0001.MOV"
  ∧ files out.2 !! ("/dest/" +:+ Demo.base1 +:+ "_01.heic")
    = Demo.tree !! "/B/IMG_0004.HEIC"
  ∧ files out.2 !! ("/dest/" +:+ Demo.base1 +:+ "_01.mov")
    = Demo.tree !! "/B/IMG_0004.MOV"
  ∧ List.filter (λ x, match x.1 with INFO => false | _ => true end)
      (log out.2)
    = [(WARNING, MsgOrphanMov "/A/clip.mov" "FFFF0003")]
  ∧ last (log out.2)
    = Some (INFO, MsgManifestWritten "/dest/live_photo_manifest.json").
Proof. repeat split; vm_compute; reflexivity. Qed.

(* ================================================================== *)
(** * Further properties: names *)
(* ================================================================== *)

Lemma suffix_differs (p q : string) :
  Str.lower (suffix p) ∈ IMAGE_EXTS → Str.lower (suffix q) = ".mov" → p ≠ q.
Proof.
  intros Hp Hq ->. rewrite Hq in Hp. unfold IMAGE_EXTS in Hp.
  repeat (apply elem_of_cons in Hp as [Hp|Hp]; [done|]).
  by apply elem_of_nil in Hp.
Qed.

Section Names.
Context `{Env}.

(** X15.  The two halves of a pair never meet.  For indices that come out
    of a scan, every entry of a real run has an image source different from
    its video source and an image destination different from its video
    destination, whatever counters were picked: the image keeps an image
    extension and the video gets [.mov]. *)
Theorem halves_never_share_a_path (records : list exif_rec)
    (dest_dir : string) (w : world) :
  let scanned := scan_records records (∅, ∅) in
  ∃ r w', move_pairs scanned.1 scanned.2 dest_dir false w = (r, w')
    ∧ ∀ m e, r = Ok m → e ∈ pairs m →
        source (e_image e) ≠ source (e_video e)
        ∧ dest (e_image e) ≠ dest (e_video e).
Proof.
  intros scanned.
  destruct (move_pairs_entries scanned.1 scanned.2 dest_dir w)
    as (r & w' & Hrun & Hr).
  exists r, w'. split; [done|]. intros m e -> He.
  destruct Hr as (Hall & _).
  rewrite Forall_forall in Hall.
  destruct (Hall e He) as (im & vm & n & k & Hi & Hv & _ & Hdi & Hdv).
  destruct (scan_index_suffixes records) as [Himg Hvid].
  pose proof (Himg _ _ _ Hi) as Hext. pose proof (Hvid _ _ _ Hv) as Hmov.
  split; [by apply suffix_differs|].
  rewrite Hdi, Hdv.
  destruct (candidate_ends_with dest_dir (e_base_name e)
              (Str.lower (suffix (source (e_image e)))) n) as [p1 ->].
  destruct (candidate_ends_with dest_dir (e_base_name e) ".mov" k)
    as [p2 ->].
  by apply image_ext_not_mov.
Qed.

End Names.

(** ** The date part sorts by time *)

Lemma to_nat_acc_split (v : nat) (s : string) :
  Str.to_nat_acc v s = v * 10 ^ String.length s + Str.to_nat_acc 0 s.
Proof.
  revert v. induction s as [|c s IH]; intros v; cbn [Str.to_nat_acc String.length].
  - cbn. lia.
  - rewrite (IH (10 * v + _)), (IH (10 * 0 + _)). rewrite Nat.pow_succ_r'. lia.
Qed.

Lemma digit_val_lt (c : ascii) : Str.is_digit c = true → Str.digit_val c < 10.
Proof.
  unfold Str.is_digit, Str.between, Str.digit_val.
  rewrite andb_true_iff, !Nat.leb_le. lia.
Qed.

Lemma to_nat_digits_lt (s : string) :
  Str.all Str.is_digit s = true → Str.to_nat_acc 0 s < 10 ^ String.length s.
Proof.
  induction s as [|c s IH]; cbn [Str.all Str.to_nat_acc String.length].
  - cbn. lia.
  - intros [Hc Hs]%andb_true_iff. apply digit_val_lt in Hc.
    specialize (IH Hs). rewrite to_nat_acc_split, Nat.pow_succ_r'. nia.
Qed.

Lemma compare_digit_chars (c1 c2 : ascii) :
  Str.is_digit c1 = true → Str.is_digit c2 = true →
  Ascii.compare c1 c2 = Nat.compare (Str.digit_val c1) (Str.digit_val c2).
Proof.
  unfold Str.is_digit, Str.between, Str.digit_val, Str.code, Ascii.compare.
  rewrite !andb_true_iff, !Nat.leb_le. unfold nat_of_ascii. intros H1 H2.
  rewrite N2Nat.inj_compare.
  destruct (Nat.compare_spec (N.to_nat (N_of_ascii c1)) (N.to_nat (N_of_ascii c2)));
    symmetry; [apply Nat.compare_eq_iff|apply Nat.compare_lt_iff
              |apply Nat.compare_gt_iff]; lia.
Qed.

Lemma compare_digits (a b : string) :
  Str.all Str.is_digit a = true → Str.all Str.is_digit b = true →
  String.length a = String.length b →
  String.compare a b = Nat.compare (Str.to_nat a) (Str.to_nat b).
Proof.
  unfold Str.to_nat. revert b.
  induction a as [|c1 a IH]; intros [|c2 b]; try done.
  cbn [Str.all String.length String.compare Str.to_nat_acc].
  intros [Hc1 Ha]%andb_true_iff [Hc2 Hb]%andb_true_iff [= Hlen].
  rewrite (to_nat_acc_split (10 * 0 + _) a), (to_nat_acc_split (10 * 0 + _) b).
  rewrite compare_digit_chars, (IH b), Hlen by done.
  pose proof (to_nat_digits_lt a Ha) as Hla.
  pose proof (to_nat_digits_lt b Hb) as Hlb. rewrite Hlen in Hla.
  set (x := Str.to_nat_acc 0 a) in *. set (y := Str.to_nat_acc 0 b) in *.
  set (p := 10 ^ String.length b) in *.
  set (d1 := Str.digit_val c1). set (d2 := Str.digit_val c2).
  destruct (Nat.compare_spec d1 d2) as [->|Hlt|Hgt].
  - destruct (Nat.compare_spec x y); symmetry;
      [apply Nat.compare_eq_iff|apply Nat.compare_lt_iff
      |apply Nat.compare_gt_iff]; nia.
  - symmetry. apply Nat.compare_lt_iff. nia.
  - symmetry. apply Nat.compare_gt_iff. nia.
Qed.

Lemma compare_app (a b r1 r2 : string) :
  String.length a = String.length b →
  String.compare (a +:+ r1) (b +:+ r2)
  = match String.compare a b with
    | Eq => String.compare r1 r2
    | c => c
    end.
Proof.
  revert b. induction a as [|c1 a IH]; intros [|c2 b]; try done.
  cbn [String.length String.append String.compare]. intros [= Hlen].
  destruct (Ascii.compare c1 c2); [by apply IH|done..].
Qed.

Lemma compare_weighted (a1 a2 b1 b2 : nat) :
  b1 < 100 → b2 < 100 →
  Nat.compare (a1 * 100 + b1) (a2 * 100 + b2)
  = match Nat.compare a1 a2 with
    | Eq => Nat.compare b1 b2
    | c => c
    end.
Proof.
  intros H1 H2. destruct (Nat.compare_spec a1 a2) as [->|Hlt|Hgt].
  - destruct (Nat.compare_spec b1 b2);
      [apply Nat.compare_eq_iff|apply Nat.compare_lt_iff
      |apply Nat.compare_gt_iff]; lia.
  - apply Nat.compare_lt_iff. lia.
  - apply Nat.compare_gt_iff. lia.
Qed.

Lemma compare_field (w : nat) (x y : nat) (r1 r2 : string) :
  0 < w → x < 10 ^ w → y < 10 ^ w →
  String.compare (Str.zfill w (Str.of_nat x) +:+ r1)
                 (Str.zfill w (Str.of_nat y) +:+ r2)
  = match Nat.compare x y with
    | Eq => String.compare r1 r2
    | c => c
    end.
Proof.
  intros Hw Hx Hy.
  destruct (zfill_width w x Hw Hx) as [Hlx Hdx].
  destruct (zfill_width w y Hw Hy) as [Hly Hdy].
  rewrite compare_app by congruence.
  by rewrite compare_digits, !to_nat_zfill by congruence.
Qed.

Lemma ascii_compare_refl (c : ascii) : Ascii.compare c c = Eq.
Proof. unfold Ascii.compare. apply N.compare_refl. Qed.

Lemma str_compare_refl (s : string) : String.compare s s = Eq.
Proof.
  induction s as [|c s IH]; [done|]. cbn [String.compare].
  by rewrite ascii_compare_refl.
Qed.

Section DateOrder.
Context `{Env}.

Lemma strftime_compare (t1 t2 : datetime) :
  datetime_ok t1 = true → datetime_ok t2 = true →
  strftime_pads_year = true ∨ (1000 ≤ year t1 ∧ 1000 ≤ year t2) →
  String.compare (strftime t1) (strftime t2)
  = Nat.compare (stamp t1) (stamp t2).
Proof.
  intros H1 H2 Hpad.
  destruct (datetime_ok_bounds t1 H1) as (Hy1 & Hmo1 & Hd1 & Hh1 & Hmi1 & Hs1).
  destruct (datetime_ok_bounds t2 H2) as (Hy2 & Hmo2 & Hd2 & Hh2 & Hmi2 & Hs2).
  pose proof (days_in_month_le (year t1) (month t1)).
  pose proof (days_in_month_le (year t2) (month t2)).
  destruct (strftime_year_shape (year t1)) as (_ & _ & Hp1); [lia|].
  destruct (strftime_year_shape (year t2)) as (_ & _ & Hp2); [lia|].
  destruct Hp1 as [Hp1 _]; [tauto|]. destruct Hp2 as [Hp2 _]; [tauto|].
  unfold strftime, stamp. rewrite Hp1, Hp2.
  rewrite <-(str_app_nil_r (Str.zfill 2 (Str.of_nat (second t1)))).
  rewrite <-(str_app_nil_r (Str.zfill 2 (Str.of_nat (second t2)))).
  rewrite !compare_weighted by lia.
  rewrite (compare_field 4) by (cbn; lia).
  cbn [String.append String.compare]. rewrite ascii_compare_refl.
  rewrite (compare_field 2) by (cbn; lia).
  cbn [String.append String.compare]. rewrite ascii_compare_refl.
  rewrite (compare_field 2) by (cbn; lia).
  cbn [String.append String.compare]. rewrite ascii_compare_refl.
  rewrite !(compare_field 2) by (cbn; lia).
  cbn [String.compare].
  destruct (year t1 ?= year t2); [|done..].
  destruct (month t1 ?= month t2); [|done..].
  destruct (day t1 ?= day t2); [|done..].
  destruct (hour t1 ?= hour t2); [|done..].
  destruct (minute t1 ?= minute t2); [|done..].
  by destruct (second t1 ?= second t2).
Qed.

(** X16.  The date part sorts by time.  Take two capture times that
    exiftool printed from valid dates, both from the year 1000 on, or any
    two on a platform whose C library fills the year with zeros.  Then the
    date parts of the base names compare, as strings, the way the times
    compare: the earlier time gives the smaller string, and equal strings
    mean equal times. *)
Theorem date_part_sorts_by_time (meta1 meta2 : exif_rec) (t1 t2 : datetime) :
  datetime_ok t1 = true → datetime_ok t2 = true →
  strftime_pads_year = true ∨ (1000 ≤ year t1 ∧ 1000 ≤ year t2) →
  DateTimeOriginal meta1 = Some (JStr (exif_timestamp t1)) →
  DateTimeOriginal meta2 = Some (JStr (exif_timestamp t2)) →
  String.compare (date_str meta1) (date_str meta2)
  = Nat.compare (stamp t1) (stamp t2)
  ∧ (String.le (date_str meta1) (date_str meta2) ↔ stamp t1 ≤ stamp t2)
  ∧ (date_str meta1 = date_str meta2 → t1 = t2).
Proof.
  intros H1 H2 Hpad Hm1 Hm2.
  assert (Hd : ∀ meta t, datetime_ok t = true →
            DateTimeOriginal meta = Some (JStr (exif_timestamp t)) →
            date_str meta = strftime t).
  { intros meta t Hok Hm. unfold date_str. rewrite Hm. cbn [from_option id].
    by rewrite strptime_exif_timestamp. }
  rewrite (Hd _ _ H1 Hm1), (Hd _ _ H2 Hm2).
  pose proof (strftime_compare t1 t2 H1 H2 Hpad) as Hcmp.
  split; [done|]. split.
  - unfold String.le, String.leb. rewrite Hcmp.
    destruct (Nat.compare_spec (stamp t1) (stamp t2)); split; try done; lia.
  - intros Heq. rewrite Heq in Hcmp.
    rewrite str_compare_refl in Hcmp. symmetry in Hcmp.
    apply Nat.compare_eq_iff in Hcmp.
    destruct (datetime_ok_bounds t1 H1) as (Hy1 & Hmo1 & Hd1 & Hh1 & Hmi1 & Hs1).
    destruct (datetime_ok_bounds t2 H2) as (Hy2 & Hmo2 & Hd2 & Hh2 & Hmi2 & Hs2).
    pose proof (days_in_month_le (year t1) (month t1)).
    pose proof (days_in_month_le (year t2) (month t2)).
    unfold stamp in Hcmp. destruct t1, t2. cbn in *.
    f_equal; lia.
Qed.

End DateOrder.

Lemma date_part_sorts_by_time_witness :
  let t1 := {| year := 2024; month := 3; day := 1;
               hour := 10; minute := 15; second := 22 |} in
  let t2 := {| year := 2024; month := 3; day := 2;
               hour := 8; minute := 0; second := 0 |} in
  let d1 := date_str (H:=Demo.env) (Demo.still "/A/IMG_0001.HEIC" Demo.uuid1) in
  let d2 := date_str (H:=Demo.env) (Demo.plain "/A/IMG_0002.JPG" Demo.uuid2) in
  String.compare d1 d2 = Nat.compare (stamp t1) (stamp t2)
  ∧ (String.le d1 d2 ↔ stamp t1 ≤ stamp t2)
  ∧ (d1 = d2 → t1 = t2).
Proof.
  intros t1 t2 d1 d2.
  apply (date_part_sorts_by_time (H:=Demo.env)
           (Demo.still "/A/IMG_0001.HEIC" Demo.uuid1)
           (Demo.plain "/A/IMG_0002.JPG" Demo.uuid2) t1 t2);
    try reflexivity.
  right. split; cbn; lia.
Defined.

(** Without the filling, a year below 1000 sorts after a later year. *)
Example early_year_sorts_late :
  let early :=
    {| SourceFile := None; ContentIdentifier := None;
       LivePhotoVideoIndex := None;
       DateTimeOriginal := Some (JStr "0999:01:01 00:00:00");
       Model := None |} in
  String.compare (date_str (H:=Demo.env) early)
    (date_str (H:=Demo.env) (Demo.still "/A/IMG_0001.HEIC" Demo.uuid1))
  = Gt.
Proof. vm_compute. reflexivity. Qed.

(** X17.  A slash in the model name.  The model goes into the base name as
    it is, so a model [AC/DC Cam] gives a destination inside a directory
    that does not exist: both copies are refused, both halves are recorded
    as failed, and no file is changed. *)
Theorem slash_in_model_fails_safely :
  let out :=
    move_pairs (H:=Demo.env)
      {[ Demo.uuid1 := ("/A/IMG_0001.HEIC", slashed) ]}
      {[ Demo.uuid1 := ("/A/IMG_0001.MOV",
                        Demo.clip "/A/IMG_0001.MOV" Demo.uuid1) ]}
      "/dest" false Demo.world1 in
  match returned out with
  | Some m =>
      List.map (λ e, (e_base_name e,
                      (dest (e_image e), success (e_image e)),
                      (dest (e_video e), success (e_video e))))
        (pairs m)
  | None => []
  end
  = [ ("2024-03-01_101522_LivePhoto_AC/DCCam_ABCD1234",
       ("/dest/2024-03-01_101522_LivePhoto_AC/DCCam_ABCD1234.heic", false),
       ("/dest/2024-03-01_101522_LivePhoto_AC/DCCam_ABCD1234.mov", false)) ]
  ∧ files out.2 = files Demo.world1
  ∧ List.filter (λ x, match x.1 with ERROR => true | _ => false end)
      (log out.2)
    = [ (ERROR, MsgSafeMoveFailed "/A/IMG_0001.HEIC"
                  "/dest/2024-03-01_101522_LivePhoto_AC/DCCam_ABCD1234.heic"
                  FileNotFoundError);
        (ERROR, MsgSafeMoveFailed "/A/IMG_0001.MOV"
                  "/dest/2024-03-01_101522_LivePhoto_AC/DCCam_ABCD1234.mov"
                  FileNotFoundError);
        (ERROR, MsgImageFailed "/A/IMG_0001.HEIC");
        (ERROR, MsgVideoFailed "/A/IMG_0001.MOV") ].
Proof. repeat split; vm_compute; reflexivity. Qed.

(* ================================================================== *)
(** * Further properties: no copy lands on an existing file *)
(* ================================================================== *)

Section NoOverwrite.
Context `{Env}.

Lemma safe_move_absent (src dst : string) (w w' : world) (b : bool)
    (p : string) :
  safe_move src dst w = (Ok b, w') → dst ∉ dirs w →
  files w !! p = None → p ≠ dst → files w' !! p = None.
Proof.
  intros Hrun Hdst Hp Hne. destruct (decide (p = src)) as [->|Hps].
  - destruct b.
    + destruct (safe_move_run src dst w) as (b1 & w1 & Hrun1 & _ & _ & Hb).
      rewrite Hrun in Hrun1. injection Hrun1 as <- <-.
      destruct Hb as (data & copy & Hsrc & _). congruence.
    + by rewrite (safe_move_false_source _ _ _ _ Hrun).
  - by rewrite (safe_move_elsewhere _ _ _ _ _ p Hrun).
Qed.

Lemma safe_move_preexisting (src dst : string) (w w' : world) (b : bool)
    (p : string) :
  safe_move src dst w = (Ok b, w') → path_exists w dst = false →
  is_Some (files w !! p) →
  files w' !! p = files w !! p ∨ files w' !! p = None.
Proof.
  intros Hrun [Hfree Hdir]%path_exists_false Hp.
  assert (p ≠ dst) by (intros ->; rewrite Hfree in Hp; by destruct Hp).
  destruct (decide (p = src)) as [->|Hps].
  - destruct b.
    + destruct (safe_move_run src dst w) as (b1 & w1 & Hrun1 & _ & _ & Hb).
      rewrite Hrun in Hrun1. injection Hrun1 as <- <-.
      destruct Hb as (data & copy & _ & _ & _ & _ & _ & -> & _).
      right. by rewrite lookup_delete_eq.
    + left. by rewrite (safe_move_false_source _ _ _ _ Hrun).
  - left. by rewrite (safe_move_elsewhere _ _ _ _ _ p Hrun).
Qed.

(** X18.  Moving a pair never overwrites.  For a pair whose image has an
    image extension, as every scanned pair has, each copy lands on a path
    where nothing was: a file that was there before the pair was moved is
    afterwards either unchanged or gone, never rewritten. *)
Theorem a_pair_never_overwrites (all_images all_videos : index)
    (dest_dir : string) (i total : nat) (uuid : string) (acc : tally)
    (w : world) (img_path vid_path : string) (img_meta vid_meta : exif_rec) :
  all_images !! uuid = Some (img_path, img_meta) →
  all_videos !! uuid = Some (vid_path, vid_meta) →
  Str.lower (suffix img_path) ∈ IMAGE_EXTS →
  ∃ t w',
    move_pair all_images all_videos dest_dir i total uuid acc w = (Ok t, w')
    ∧ ∀ p, is_Some (files w !! p) →
           files w' !! p = files w !! p ∨ files w' !! p = None.
Proof.
  intros Hi Hv Hext.
  destruct (move_pair_run all_images all_videos dest_dir i total uuid acc w
              img_path vid_path img_meta vid_meta Hi Hv)
    as (n & m & img_ok & vid_ok & w1 & w2 & w3 & w' & t & Hrun & _
        & _ & _ & Hnfree & _ & Hmfree & _ & [Hf1 Hd1] & _ & _
        & Himg & Hvid & [Hf3 Hd3] & _).
  exists t, w'. split; [exact Hrun|]. intros p Hp.
  set (base := rich_base_name img_meta uuid) in *.
  set (dimg := candidate dest_dir base (Str.lower (suffix img_path)) n) in *.
  set (dvid := candidate dest_dir base ".mov" m) in *.
  assert (Hdiff : dimg ≠ dvid).
  { subst dimg dvid.
    destruct (candidate_ends_with dest_dir base
                (Str.lower (suffix img_path)) n) as [p1 ->].
    destruct (candidate_ends_with dest_dir base ".mov" m) as [p2 ->].
    by apply image_ext_not_mov. }
  assert (Hnfree1 : path_exists w1 dimg = false).
  { apply path_exists_false. apply path_exists_false in Hnfree.
    by rewrite Hf1, Hd1. }
  destruct (safe_move_frame _ _ _ _ _ Himg) as [Hd2 _].
  assert (Hmfree2 : path_exists w2 dvid = false).
  { apply path_exists_false. apply path_exists_false in Hmfree as [Hmf Hmd].
    apply path_exists_false in Hnfree1 as [_ Hnd].
    split; [|by rewrite Hd2, Hd1].
    apply (safe_move_absent _ _ _ _ _ dvid Himg); [done| |done].
    by rewrite Hf1. }
  rewrite Hf3. rewrite <-Hf1 in Hp |- *.
  destruct (safe_move_preexisting _ _ _ _ _ p Himg Hnfree1 Hp) as [Heq|Hgone].
  - rewrite <-Heq in Hp |- *.
    apply (safe_move_preexisting _ _ _ _ _ p Hvid Hmfree2 Hp).
  - right. apply path_exists_false in Hmfree2 as [_ Hmd2].
    apply (safe_move_absent _ _ _ _ _ p Hvid); [done|done|].
    intros ->. apply path_exists_false in Hmfree as [Hmf _].
    rewrite Hf1, Hmf in Hp. by destruct Hp.
Qed.

End NoOverwrite.

Lemma a_pair_never_overwrites_witness :
  let all_images : index :=
    {[ Demo.uuid1 := ("/A/IMG_0001.HEIC",
                      Demo.still "/A/IMG_0001.HEIC" Demo.uuid1) ]} in
  let all_videos : index :=
    {[ Demo.uuid1 := ("/A/IMG_0001.MOV",
                      Demo.clip "/A/IMG_0001.MOV" Demo.uuid1) ]} in
  ∃ t w',
    move_pair (H:=Demo.env) all_images all_videos "/dest" 0 1 Demo.uuid1
      {| t_pairs := []; success_count := 0; fail_count := 0 |} Demo.world2
    = (Ok t, w')
    ∧ ∀ p, is_Some (files Demo.world2 !! p) →
           files w' !! p = files Demo.world2 !! p ∨ files w' !! p = None.
Proof.
  intros all_images all_videos.
  apply (a_pair_never_overwrites (H:=Demo.env) all_images all_videos "/dest"
           0 1 Demo.uuid1 _ Demo.world2 "/A/IMG_0001.HEIC" "/A/IMG_0001.MOV"
           (Demo.still "/A/IMG_0001.HEIC" Demo.uuid1)
           (Demo.clip "/A/IMG_0001.MOV" Demo.uuid1)).
  - vm_compute. reflexivity.
  - vm_compute. reflexivity.
  - apply (bool_decide_unpack _). vm_compute. exact I.
Defined.
